(** * Crash-curve rendering core: canvas.js

    A shallow embedding of [src/client/js/canvas.js] — the classes
    [CanvasManager], [RocketCurve] and [ExplosionParticles] — together with
    the properties the specification states about them.

    Conventions of the embedding.
    - A JavaScript number is an exact rational ([Q]); only finite numbers are
      in the model, and arithmetic is exact.  Equality of numbers is
      therefore [Qeq] ([==]).  The one place where the source leaves rational
      arithmetic ([Math.sin] in [drawCurrentPoint]) is modelled over [R].
    - [undefined] is [None]; a relational comparison with [undefined] is
      [false], as in JavaScript (its operand converts to NaN).
    - Every class is a module holding a record for the instance fields and one
      function per method, taking the instance and returning the updated one.
      The [CanvasManager] shared by the other two classes is passed to the
      methods that read it.
    - The canvas element records the numbers assigned to its [width] and
      [height]; the integral size the host gives the backing store is
      computed from them.
    - [Math.random] and [Date.now] are inputs: the former an oracle giving the
      successive results, threaded with a call counter; the latter a
      parameter of the method that reads the clock. *)

From Stdlib Require Import String List Arith Lia Bool.
From Stdlib Require Import ZArith QArith Qminmax Qround Lqa.
From Stdlib Require Import Reals Lra.
Import ListNotations.

Local Open Scope Q_scope.

(** Linear and non-linear arithmetic over [Q]; [lra] and [nra] themselves
    are the ones over [R]. *)
Ltac qlra := Lqa.lra.
Ltac qnra := Lqa.nra.

(** The two divisions of the source, as multiplications by a constant. *)
Ltac qdiv :=
  unfold Qdiv in *;
  change (/ 30) with (1 # 30) in *;
  change (/ 10) with (1 # 10) in *.

(** ** JavaScript primitives used by the source *)

Module JS.

(** [a < b] on numbers. *)
Definition lt (a b : Q) : bool :=
  match a ?= b with Lt => true | _ => false end.

(** [a > b] on numbers. *)
Definition gt (a b : Q) : bool := lt b a.

(** [v < b] where [v] may be [undefined]. *)
Definition lt_undef (v : option Q) (b : Q) : bool :=
  match v with
  | Some a => lt a b
  | None => false
  end.

(** [Math.min(a, b)]. *)
Definition min (a b : Q) : Q := Qmin a b.

(** [Math.floor(a)]. *)
Definition floor (a : Q) : Z := Qfloor a.

(** The conversion of a number to a WebIDL [unsigned long], made by the
    host when a number is assigned to an attribute of that type: the
    fraction is dropped (towards zero) and the result is taken modulo
    2^32. *)
Definition toUnsignedLong (a : Q) : Z :=
  (Z.quot (Qnum a) (Zpos (Qden a)) mod 4294967296)%Z.

(** [arr[i]] for an integral index: [undefined] outside the array. *)
Definition index {A : Type} (arr : list A) (i : Z) : option A :=
  if (i <? 0)%Z then None else nth_error arr (Z.to_nat i).

(** [arr.push(v)]. *)
Definition push {A : Type} (arr : list A) (v : A) : list A := arr ++ [v].

(** [arr.shift()]: the array that is left. *)
Definition shift {A : Type} (arr : list A) : list A := tl arr.

End JS.

(** ** class CanvasManager *)

Module CanvasManager.

(** The result of [canvas.getBoundingClientRect()]. *)
Record DOMRect : Type := mkRect { rect_width : Q; rect_height : Q }.

(** A CSS length, [n + 'px']. *)
Inductive CssLength : Type := px (n : Q).

(** The calls made on the 2d context by the methods modelled here. *)
Inductive CtxCall : Type :=
| scale (sx sy : Q).

(** The canvas element: the numbers last assigned to its [width] and
    [height] attributes, its CSS size, and the calls its context received,
    oldest first.  The size of the backing store, which the host derives
    from the assigned numbers, is read with [backingWidth] and
    [backingHeight] below. *)
Record Canvas : Type := mkCanvas {
  canvas_width : Q;
  canvas_height : Q;
  style_width : CssLength;
  style_height : CssLength;
  ctx_calls : list CtxCall
}.

(** The device signals read by [detectPerformance]: [navigator.*] may be
    [undefined], [window.innerWidth] is always a number. *)
Record Device : Type := mkDevice {
  hardwareConcurrency : option Q;
  deviceMemory : option Q;
  innerWidth : Q
}.

Record PerformanceSettings : Type := mkSettings {
  particleCount : nat;
  frameRate : nat;
  enableShadows : bool;
  enableBlur : bool
}.

Record t : Type := mk {
  canvas : Canvas;
  width : Q;
  height : Q;
  dpr : Q;
  performanceSettings : PerformanceSettings
}.

(** [resize()], with the bounding rectangle the host reports. *)
Definition resize (rect : DOMRect) (this : t) : t :=
  let width' := rect_width rect in
  let height' := rect_height rect in
  let c := canvas this in
  {| canvas :=
       {| canvas_width := width' * dpr this;
          canvas_height := height' * dpr this;
          style_width := px width';
          style_height := px height';
          ctx_calls := ctx_calls c ++ [scale (dpr this) (dpr this)] |};
     width := width';
     height := height';
     dpr := dpr this;
     performanceSettings := performanceSettings this |}.

(** What an attribute that reflects a non-negative integer holds after a
    number is assigned to it: the number as an [unsigned long] when that is
    at most 2147483647, the attribute's default otherwise. *)
Definition reflected (default : Z) (assigned : Q) : Z :=
  let n := JS.toUnsignedLong assigned in
  if (n <=? 2147483647)%Z then n else default.

(** The size of the backing store, in device pixels: [canvas.width] and
    [canvas.height] as the host keeps them, with their defaults 300 and
    150. *)
Definition backingWidth (c : Canvas) : Z := reflected 300 (canvas_width c).
Definition backingHeight (c : Canvas) : Z := reflected 150 (canvas_height c).

(** [detectPerformance()]. *)
Definition detectPerformance (dev : Device) : PerformanceSettings :=
  let isLowEnd :=
    JS.lt_undef (hardwareConcurrency dev) 4
    || JS.lt_undef (deviceMemory dev) 2
    || JS.lt (innerWidth dev) 768 in
  {| particleCount := if isLowEnd then 10 else 20;
     frameRate := if isLowEnd then 30 else 60;
     enableShadows := negb isLowEnd;
     enableBlur := negb isLowEnd |}.

(** The two profiles named by the specification. *)
Definition lowEnd : PerformanceSettings :=
  {| particleCount := 10; frameRate := 30;
     enableShadows := false; enableBlur := false |}.

Definition highEnd : PerformanceSettings :=
  {| particleCount := 20; frameRate := 60;
     enableShadows := true; enableBlur := true |}.

End CanvasManager.

(** ** class RocketCurve *)

Module RocketCurve.

(** An element of [this.points]. *)
Record Point : Type := mkPoint {
  x : Q;
  y : Q;
  multiplier : Q;
  time : Q
}.

Record t : Type := mk {
  points : list Point;
  animationId : option nat;
  isAnimating : bool
}.

(** [new RocketCurve(canvasManager)]. *)
Definition new : t :=
  {| points := []; animationId := None; isAnimating := false |}.

(** [stopAnimation()]; cancelling the frame request leaves the fields as
    they are. *)
Definition stopAnimation (this : t) : t :=
  {| points := points this;
     animationId := animationId this;
     isAnimating := false |}.

(** [reset()]. *)
Definition reset (this : t) : t :=
  stopAnimation
    {| points := [];
       animationId := animationId this;
       isAnimating := isAnimating this |}.

(** The object literal [{ x, y, multiplier, time }] built by [addPoint]. *)
Definition curvePoint (cm : CanvasManager.t) (time multiplier : Q) : Point :=
  let width := CanvasManager.width cm in
  let height := CanvasManager.height cm in
  let x := JS.min ((time / 30) * width) width in
  let y := height - JS.min (((multiplier - 1) / 10) * height) height in
  {| x := x; y := y; multiplier := multiplier; time := time |}.

(** [addPoint(time, multiplier)]. *)
Definition addPoint (cm : CanvasManager.t) (time multiplier : Q) (this : t) : t :=
  let pushed := JS.push (points this) (curvePoint cm time multiplier) in
  let kept :=
    if (300 <? length pushed)%nat then JS.shift pushed else pushed in
  {| points := kept;
     animationId := animationId this;
     isAnimating := isAnimating this |}.

(** One [addPoint] call as data: the canvas manager as it is at the call, and
    the two arguments. *)
Definition Call : Type := (CanvasManager.t * Q * Q)%type.

Definition pointOf (c : Call) : Point :=
  let '(cm, time, multiplier) := c in curvePoint cm time multiplier.

Definition addPointCall (this : t) (c : Call) : t :=
  let '(cm, time, multiplier) := c in addPoint cm time multiplier this.

(** A sequence of [addPoint] calls, in order. *)
Definition addPoints (calls : list Call) (this : t) : t :=
  fold_left addPointCall calls this.

(** A call of [ctx.arc(x, y, radius, 0, 2 * Math.PI)] followed by [fill()]
    with the given [fillStyle]. *)
Record Disc : Type := mkDisc {
  disc_x : Q;
  disc_y : Q;
  disc_radius : R;
  disc_fill : string
}.

(** The pulse factor of [drawCurrentPoint] when [Date.now()] is [now]
    (milliseconds). *)
Definition pulse (now : R) : R :=
  let time := (now / 500)%R in
  (sin time * 0.3 + 0.7)%R.

(** [drawCurrentPoint()], as the discs it fills, in drawing order. *)
Definition drawCurrentPoint (now : R) (this : t) : list Disc :=
  match points this with
  | [] => []
  | p0 :: _ =>
      let lastPoint := last (points this) p0 in
      [ {| disc_x := x lastPoint; disc_y := y lastPoint;
           disc_radius := (6 * pulse now)%R; disc_fill := "#ffffff" |};
        {| disc_x := x lastPoint; disc_y := y lastPoint;
           disc_radius := (4 * pulse now)%R; disc_fill := "#e53e3e" |} ]
  end.

End RocketCurve.

(** ** class ExplosionParticles *)

Module ExplosionParticles.

(** An element of [this.particles]. *)
Record Particle : Type := mkParticle {
  x : Q;
  y : Q;
  vx : Q;
  vy : Q;
  life : Q;
  decay : Q;
  size : Q;
  color : option string
}.

Record t : Type := mk {
  particles : list Particle;
  isActive : bool
}.

(** The successive results of [Math.random()]; a method that draws from it
    takes the number of draws made so far and returns the new count. *)
Definition Random : Type := nat -> Q.

Definition colors : list string :=
  ["#ff6b6b"; "#ffa500"; "#ffff00"; "#ff4757"; "#ff3742"]%string.

(** [getRandomColor()]. *)
Definition getRandomColor (rnd : Random) (n : nat) : option string * nat :=
  let r := rnd n in
  (JS.index colors (JS.floor (r * inject_Z (Z.of_nat (length colors)))), S n).

(** The object literal pushed by one iteration of the loop of
    [createParticles]; its fields are evaluated top to bottom. *)
Definition newParticle (x0 y0 : Q) (rnd : Random) (n : nat) : Particle * nat :=
  let vx0 := (rnd n - 0.5) * 15 in
  let vy0 := (rnd (S n) - 0.5) * 15 in
  let decay0 := 0.015 + rnd (S (S n)) * 0.01 in
  let size0 := 2 + rnd (S (S (S n))) * 4 in
  let '(color0, n') := getRandomColor rnd (S (S (S (S n)))) in
  ({| x := x0; y := y0; vx := vx0; vy := vy0; life := 1;
      decay := decay0; size := size0; color := color0 |}, n').

(** The [for] loop of [createParticles] with [k] iterations left. *)
Fixpoint createLoop (k : nat) (x0 y0 : Q) (rnd : Random)
  (ps : list Particle) (n : nat) : list Particle * nat :=
  match k with
  | O => (ps, n)
  | S k' =>
      let '(p, n') := newParticle x0 y0 rnd n in
      createLoop k' x0 y0 rnd (JS.push ps p) n'
  end.

(** [createParticles(x, y)]. *)
Definition createParticles (cm : CanvasManager.t) (x0 y0 : Q)
  (rnd : Random) (n : nat) (this : t) : t * nat :=
  let particleCount :=
    CanvasManager.particleCount (CanvasManager.performanceSettings cm) in
  let '(ps, n') := createLoop particleCount x0 y0 rnd (particles this) n in
  ({| particles := ps; isActive := true |}, n').

(** [new ExplosionParticles(canvasManager, x, y)]. *)
Definition new (cm : CanvasManager.t) (x0 y0 : Q)
  (rnd : Random) (n : nat) : t * nat :=
  createParticles cm x0 y0 rnd n {| particles := []; isActive := false |}.

(** The body of the [forEach] of [update], on one particle. *)
Definition advance (p : Particle) : Particle :=
  {| x := x p + vx p;
     y := y p + vy p;
     vx := vx p * 0.98;
     vy := vy p + 0.2;
     life := life p - decay p;
     decay := decay p;
     size := size p;
     color := color p |}.

(** [update()]. *)
Definition update (this : t) : t :=
  if negb (isActive this) then this
  else
    let moved := map advance (particles this) in
    let alive := filter (fun particle => JS.gt (life particle) 0) moved in
    {| particles := alive;
       isActive := if (length alive =? 0)%nat then false else isActive this |}.

(** The particles [update] keeps, out of those of an active batch. *)
Definition survivors (ps : list Particle) : list Particle :=
  filter (fun particle => JS.gt (life particle) 0) (map advance ps).

(** [k] successive calls of [update()]. *)
Definition updates (k : nat) (this : t) : t := Nat.iter k update this.

(** The sum of the remaining lives of a batch. *)
Definition totalLife (ps : list Particle) : Q :=
  fold_right (fun p acc => life p + acc) 0 ps.

(** What [createParticles] establishes for each particle and [update]
    keeps: a life in (0, 1] and a decay rate of at least 0.015. *)
Definition fresh (p : Particle) : Prop :=
  0 < life p /\ life p <= 1 /\ 0.015 <= decay p.

End ExplosionParticles.

(** ** Sample data *)

(** An 800 by 400 canvas on a device of pixel ratio 2, after its first
    [resize()]. *)
Definition wideSurface : CanvasManager.t :=
  {| CanvasManager.canvas :=
       {| CanvasManager.canvas_width := 1600;
          CanvasManager.canvas_height := 800;
          CanvasManager.style_width := CanvasManager.px 800;
          CanvasManager.style_height := CanvasManager.px 400;
          CanvasManager.ctx_calls := [CanvasManager.scale 2 2] |};
     CanvasManager.width := 800;
     CanvasManager.height := 400;
     CanvasManager.dpr := 2;
     CanvasManager.performanceSettings := CanvasManager.highEnd |}.

(** A canvas on a device of pixel ratio 1.5, before its first [resize()],
    and a layout box of 333.3 by 100.25 CSS pixels. *)
Definition fractionalSurface : CanvasManager.t :=
  {| CanvasManager.canvas :=
       {| CanvasManager.canvas_width := 300;
          CanvasManager.canvas_height := 150;
          CanvasManager.style_width := CanvasManager.px 300;
          CanvasManager.style_height := CanvasManager.px 150;
          CanvasManager.ctx_calls := [] |};
     CanvasManager.width := 0;
     CanvasManager.height := 0;
     CanvasManager.dpr := 1.5;
     CanvasManager.performanceSettings := CanvasManager.highEnd |}.

Definition fractionalBox : CanvasManager.DOMRect :=
  CanvasManager.mkRect 333.3 100.25.

Definition originPoint : RocketCurve.Point :=
  {| RocketCurve.x := 0; RocketCurve.y := 0;
     RocketCurve.multiplier := 1; RocketCurve.time := 0 |}.

(** A desktop browser that exposes neither [navigator.hardwareConcurrency]
    nor [navigator.deviceMemory], with a 1024 pixel wide viewport. *)
Definition silentDesktop : CanvasManager.Device :=
  {| CanvasManager.hardwareConcurrency := None;
     CanvasManager.deviceMemory := None;
     CanvasManager.innerWidth := 1024 |}.

(** A dual-core phone. *)
Definition smallPhone : CanvasManager.Device :=
  {| CanvasManager.hardwareConcurrency := Some 2;
     CanvasManager.deviceMemory := Some 1;
     CanvasManager.innerWidth := 390 |}.

(** ** Vocabulary of the statements *)

(** A device signal is present and below the threshold [k]. *)
Definition below (v : option Q) (k : Q) : Prop :=
  match v with
  | Some a => a < k
  | None => False
  end.

(** Some signal of the device is below its threshold. *)
Definition belowThresholds (dev : CanvasManager.Device) : Prop :=
  below (CanvasManager.hardwareConcurrency dev) 4
  \/ below (CanvasManager.deviceMemory dev) 2
  \/ CanvasManager.innerWidth dev < 768.

(** Two optional signals carry the same number, or are both missing. *)
Definition sameSignal (u v : option Q) : Prop :=
  match u, v with
  | Some a, Some b => a == b
  | None, None => True
  | _, _ => False
  end.

Definition sameDevice (d1 d2 : CanvasManager.Device) : Prop :=
  sameSignal (CanvasManager.hardwareConcurrency d1)
             (CanvasManager.hardwareConcurrency d2)
  /\ sameSignal (CanvasManager.deviceMemory d1) (CanvasManager.deviceMemory d2)
  /\ CanvasManager.innerWidth d1 == CanvasManager.innerWidth d2.

(** A missing signal replaced by the number [k]. *)
Definition orElse (v : option Q) (k : Q) : option Q :=
  match v with
  | Some a => Some a
  | None => Some k
  end.

(** Every result of [Math.random()] lies in [0, 1). *)
Definition unitInterval (rnd : ExplosionParticles.Random) : Prop :=
  forall i : nat, 0 <= rnd i /\ rnd i < 1.

(** A particle as [createParticles(x0, y0)] makes it. *)
Definition spawnedAt (x0 y0 : Q) (p : ExplosionParticles.Particle) : Prop :=
  (ExplosionParticles.x p = x0 /\ ExplosionParticles.y p = y0)
  /\ ExplosionParticles.life p = 1
  /\ (-7.5 <= ExplosionParticles.vx p /\ ExplosionParticles.vx p < 7.5)
  /\ (-7.5 <= ExplosionParticles.vy p /\ ExplosionParticles.vy p < 7.5)
  /\ (0.015 <= ExplosionParticles.decay p
      /\ ExplosionParticles.decay p < 0.025)
  /\ (2 <= ExplosionParticles.size p /\ ExplosionParticles.size p < 6)
  /\ (exists c : string,
        ExplosionParticles.color p = Some c
        /\ In c ExplosionParticles.colors).

(** An oracle whose every draw is one half. *)
Definition alwaysHalf : ExplosionParticles.Random := fun _ => 0.5.

(** A particle that is still alive. *)
Definition alive (p : ExplosionParticles.Particle) : Prop :=
  0 < ExplosionParticles.life p.

(** A live particle that has gone through [k] updates since it was fresh. *)
Definition agedBy (k : nat) (p : ExplosionParticles.Particle) : Prop :=
  0 < ExplosionParticles.life p
  /\ ExplosionParticles.life p <= 1 - 0.015 * inject_Z (Z.of_nat k)
  /\ 0.015 <= ExplosionParticles.decay p.

(** The active flag is off exactly when no particle is left. *)
Definition flagMatches (e : ExplosionParticles.t) : Prop :=
  ExplosionParticles.isActive e = false
  <-> ExplosionParticles.particles e = [].

(** An active batch of two particles, one about to die. *)
Definition twoSparks : ExplosionParticles.t :=
  {| ExplosionParticles.particles :=
       [ {| ExplosionParticles.x := 120; ExplosionParticles.y := 80;
            ExplosionParticles.vx := 3; ExplosionParticles.vy := -4.5;
            ExplosionParticles.life := 1; ExplosionParticles.decay := 0.02;
            ExplosionParticles.size := 4;
            ExplosionParticles.color := Some "#ffa500"%string |};
         {| ExplosionParticles.x := 131; ExplosionParticles.y := 97;
            ExplosionParticles.vx := -1; ExplosionParticles.vy := 2;
            ExplosionParticles.life := 0.02; ExplosionParticles.decay := 0.02;
            ExplosionParticles.size := 3;
            ExplosionParticles.color := Some "#ff4757"%string |} ];
     ExplosionParticles.isActive := true |}.

(** The last [n] elements of a list, in order. *)
Definition lastn {A : Type} (n : nat) (l : list A) : list A :=
  skipn (length l - n) l.

(** A size the backing store can take as it is: from 0 up to, and short
    of, 2147483648. *)
Definition storable (q : Q) : Prop := 0 <= q /\ q < 2147483648.

(** [z] is [q] with its fraction dropped. *)
Definition wholePart (q : Q) (z : Z) : Prop :=
  inject_Z z <= q /\ q < inject_Z z + 1.

(** * The rest of canvas.js: painting, head pose, animation loop, timers *)

From Stdlib Require Import DecimalString Qreals.

(** ** The 2d drawing context *)

Module Ctx.

(** A value of [strokeStyle] or [fillStyle]. *)
Inductive Paint : Type :=
| css (colour : string)
| linearGradient (x0 y0 x1 y1 : Q) (stops : list (Q * string))
| noPaint.

(** The drawing state that [save()] and [restore()] cover, as far as the
    source touches it. *)
Record Style : Type := mkStyle {
  strokeStyle : Paint;
  fillStyle : Paint;
  lineWidth : Q;
  lineCap : string;
  lineJoin : string;
  shadowColor : string;
  shadowBlur : Q;
  shadowOffsetX : Q;
  shadowOffsetY : Q;
  globalAlpha : Q;
  lineDash : list Q;
  font : string
}.

(** A call that builds the path or paints.  A painting call is recorded
    with the drawing state it is made in.  Every [arc] of the source is a
    full circle, so only centre and radius are kept; [N] is the type of the
    radius. *)
Inductive Call (N : Type) : Type :=
| beginPath
| moveTo (x y : Q)
| lineTo (x y : Q)
| quadraticCurveTo (cpx cpy x y : Q)
| arc (x y : Q) (radius : N)
| stroke (s : Style)
| fill (s : Style)
| fillRect (x y w h : Q) (s : Style)
| clearRect (x y w h : Q)
| fillText (text : string) (x y : Q) (s : Style).

Arguments beginPath {N}.
Arguments moveTo {N} x y.
Arguments lineTo {N} x y.
Arguments quadraticCurveTo {N} cpx cpy x y.
Arguments arc {N} x y radius.
Arguments stroke {N} s.
Arguments fill {N} s.
Arguments fillRect {N} x y w h s.
Arguments clearRect {N} x y w h.
Arguments fillText {N} text x y s.

(** The context: the current drawing state, the states saved by [save()]
    (newest first), and the calls received so far (oldest first). *)
Record t (N : Type) : Type := mk {
  style : Style;
  saved : list Style;
  calls : list (Call N)
}.

Arguments mk {N} _ _ _.
Arguments style {N} _.
Arguments saved {N} _.
Arguments calls {N} _.

Section Methods.

Context {N : Type}.

Definition withStyle (f : Style -> Style) (c : t N) : t N :=
  {| style := f (style c); saved := saved c; calls := calls c |}.

Definition call (k : Call N) (c : t N) : t N :=
  {| style := style c; saved := saved c; calls := calls c ++ [k] |}.

(** Calls that paint take the current drawing state with them. *)
Definition painting (k : Style -> Call N) (c : t N) : t N :=
  call (k (style c)) c.

Definition setStrokeStyle (v : Paint) : t N -> t N :=
  withStyle (fun s =>
    mkStyle v (fillStyle s) (lineWidth s) (lineCap s) (lineJoin s)
      (shadowColor s) (shadowBlur s) (shadowOffsetX s) (shadowOffsetY s)
      (globalAlpha s) (lineDash s) (font s)).

Definition setFillStyle (v : Paint) : t N -> t N :=
  withStyle (fun s =>
    mkStyle (strokeStyle s) v (lineWidth s) (lineCap s) (lineJoin s)
      (shadowColor s) (shadowBlur s) (shadowOffsetX s) (shadowOffsetY s)
      (globalAlpha s) (lineDash s) (font s)).

Definition setLineWidth (v : Q) : t N -> t N :=
  withStyle (fun s =>
    mkStyle (strokeStyle s) (fillStyle s) v (lineCap s) (lineJoin s)
      (shadowColor s) (shadowBlur s) (shadowOffsetX s) (shadowOffsetY s)
      (globalAlpha s) (lineDash s) (font s)).

Definition setLineCap (v : string) : t N -> t N :=
  withStyle (fun s =>
    mkStyle (strokeStyle s) (fillStyle s) (lineWidth s) v (lineJoin s)
      (shadowColor s) (shadowBlur s) (shadowOffsetX s) (shadowOffsetY s)
      (globalAlpha s) (lineDash s) (font s)).

Definition setLineJoin (v : string) : t N -> t N :=
  withStyle (fun s =>
    mkStyle (strokeStyle s) (fillStyle s) (lineWidth s) (lineCap s) v
      (shadowColor s) (shadowBlur s) (shadowOffsetX s) (shadowOffsetY s)
      (globalAlpha s) (lineDash s) (font s)).

Definition setShadowColor (v : string) : t N -> t N :=
  withStyle (fun s =>
    mkStyle (strokeStyle s) (fillStyle s) (lineWidth s) (lineCap s)
      (lineJoin s) v (shadowBlur s) (shadowOffsetX s) (shadowOffsetY s)
      (globalAlpha s) (lineDash s) (font s)).

Definition setShadowBlur (v : Q) : t N -> t N :=
  withStyle (fun s =>
    mkStyle (strokeStyle s) (fillStyle s) (lineWidth s) (lineCap s)
      (lineJoin s) (shadowColor s) v (shadowOffsetX s) (shadowOffsetY s)
      (globalAlpha s) (lineDash s) (font s)).

Definition setShadowOffsetX (v : Q) : t N -> t N :=
  withStyle (fun s =>
    mkStyle (strokeStyle s) (fillStyle s) (lineWidth s) (lineCap s)
      (lineJoin s) (shadowColor s) (shadowBlur s) v (shadowOffsetY s)
      (globalAlpha s) (lineDash s) (font s)).

Definition setShadowOffsetY (v : Q) : t N -> t N :=
  withStyle (fun s =>
    mkStyle (strokeStyle s) (fillStyle s) (lineWidth s) (lineCap s)
      (lineJoin s) (shadowColor s) (shadowBlur s) (shadowOffsetX s) v
      (globalAlpha s) (lineDash s) (font s)).

Definition setGlobalAlpha (v : Q) : t N -> t N :=
  withStyle (fun s =>
    mkStyle (strokeStyle s) (fillStyle s) (lineWidth s) (lineCap s)
      (lineJoin s) (shadowColor s) (shadowBlur s) (shadowOffsetX s)
      (shadowOffsetY s) v (lineDash s) (font s)).

Definition setLineDash (v : list Q) : t N -> t N :=
  withStyle (fun s =>
    mkStyle (strokeStyle s) (fillStyle s) (lineWidth s) (lineCap s)
      (lineJoin s) (shadowColor s) (shadowBlur s) (shadowOffsetX s)
      (shadowOffsetY s) (globalAlpha s) v (font s)).

Definition setFont (v : string) : t N -> t N :=
  withStyle (fun s =>
    mkStyle (strokeStyle s) (fillStyle s) (lineWidth s) (lineCap s)
      (lineJoin s) (shadowColor s) (shadowBlur s) (shadowOffsetX s)
      (shadowOffsetY s) (globalAlpha s) (lineDash s) v).

(** [ctx.save()]. *)
Definition save (c : t N) : t N :=
  {| style := style c; saved := style c :: saved c; calls := calls c |}.

(** [ctx.restore()]; nothing happens when no state is saved. *)
Definition restore (c : t N) : t N :=
  match saved c with
  | [] => c
  | s :: rest => {| style := s; saved := rest; calls := calls c |}
  end.

(** Statements of a method body, run in order. *)
Definition run (body : list (t N -> t N)) (c : t N) : t N :=
  fold_left (fun c' statement => statement c') body c.

(** A [for] loop over the values [range], running [body i] for each. *)
Definition each {I : Type} (range : list I) (body : I -> t N -> t N)
  (c : t N) : t N :=
  fold_left (fun c' i => body i c') range c.

End Methods.

(** The calls of a log that paint, with the state they painted in. *)
Definition paintedWith {N : Type} (k : Call N) : option Style :=
  match k with
  | stroke s | fill s | fillRect _ _ _ _ s | fillText _ _ _ s => Some s
  | _ => None
  end.

End Ctx.

(** The calls a method made: those of the context after it that were not
    there before. *)
Definition emitted {N : Type} (before after : Ctx.t N) : list (Ctx.Call N) :=
  skipn (length (Ctx.calls before)) (Ctx.calls after).

(** ** class CanvasManager: construction and painting *)

Module CanvasSetup.

(** [window.devicePixelRatio || 1]: the ratio when it is a non-zero number,
    1 when it is missing or zero. *)
Definition pixelRatio (devicePixelRatio : option Q) : Q :=
  match devicePixelRatio with
  | Some r => if Qeq_bool r 0 then 1 else r
  | None => 1
  end.

(** The fields of an instance as the constructor initialises them, before
    [setupCanvas()]; [performanceSettings] is assigned at the end of the
    constructor, and [element] is the canvas the page provides. *)
Definition initial (element : CanvasManager.Canvas)
  (devicePixelRatio : option Q) (settings : CanvasManager.PerformanceSettings)
  : CanvasManager.t :=
  {| CanvasManager.canvas := element;
     CanvasManager.width := 0;
     CanvasManager.height := 0;
     CanvasManager.dpr := pixelRatio devicePixelRatio;
     CanvasManager.performanceSettings := settings |}.

(** [new CanvasManager(canvasId)]: [setupCanvas()] calls [resize()] with
    the rectangle the host reports, and the settings are those
    [detectPerformance()] returns for the device. *)
Definition new (element : CanvasManager.Canvas)
  (rect : CanvasManager.DOMRect) (devicePixelRatio : option Q)
  (dev : CanvasManager.Device) : CanvasManager.t :=
  CanvasManager.resize rect
    (initial element devicePixelRatio (CanvasManager.detectPerformance dev)).

End CanvasSetup.

Module CanvasPainting.

Import Ctx.

Section Painting.

Context {N : Type}.
Variable cm : CanvasManager.t.

Local Abbreviation width := (CanvasManager.width cm).
Local Abbreviation height := (CanvasManager.height cm).

(** A loop counter as a number. *)
Definition num (i : nat) : Q := inject_Z (Z.of_nat i).

(** The template literals [`${n}x`] and [`${n}s`]. *)
Definition label (n : nat) (unit : string) : string :=
  (NilEmpty.string_of_uint (Nat.to_uint n) ++ unit)%string.

(** [clear()]. *)
Definition clear : t N -> t N :=
  call (clearRect 0 0 width height).

(** The height at which [drawGrid] puts its [i]-th horizontal line. *)
Definition lineY (i : nat) : Q := height - (num i / 10) * height.

(** The abscissa at which [drawGrid] puts its [i]-th vertical line. *)
Definition lineX (timeIntervals i : nat) : Q :=
  (num i / num timeIntervals) * width.

(** The body of the first loop of [drawGrid]. *)
Definition horizontalLine (i : nat) : t N -> t N :=
  let y := lineY i in
  run [ call beginPath;
        call (moveTo 0 y);
        call (lineTo width y);
        painting stroke;
        setFillStyle (css "#a0aec0");
        setFont "12px Inter, sans-serif";
        setGlobalAlpha 0.6;
        painting (fillText (label (i + 1) "x") 10 (y - 5));
        setGlobalAlpha 0.3 ].

(** The body of the second loop of [drawGrid]. *)
Definition verticalLine (timeIntervals i : nat) : t N -> t N :=
  let x := lineX timeIntervals i in
  run [ call beginPath;
        call (moveTo x 0);
        call (lineTo x height);
        painting stroke;
        setFillStyle (css "#a0aec0");
        setGlobalAlpha 0.6;
        painting (fillText (label (i * 5) "s") (x + 5) (height - 5));
        setGlobalAlpha 0.3 ].

(** [drawGrid()]. *)
Definition drawGrid : t N -> t N :=
  let timeIntervals := 6%nat in
  run [ setStrokeStyle (css "#4a5568");
        setLineWidth 1;
        setLineDash [2; 2];
        setGlobalAlpha 0.3;
        each (seq 1 10) horizontalLine;
        each (seq 1 timeIntervals) (verticalLine timeIntervals);
        setLineDash [];
        setGlobalAlpha 1 ].

(** [drawBackground()]. *)
Definition drawBackground : t N -> t N :=
  let gradient :=
    linearGradient 0 0 0 height
      [ (0, "rgba(26, 32, 44, 0.8)"%string);
        (1, "rgba(45, 55, 72, 0.8)"%string) ] in
  run [ setFillStyle gradient;
        painting (fillRect 0 0 width height) ].

End Painting.

End CanvasPainting.

(** ** class RocketCurve: painting and head pose *)

(** [Math.atan2(y, x)] for finite arguments. *)
Module JSMath.

Definition atan2 (y x : Q) : R :=
  match x ?= 0 with
  | Gt => atan (Q2R (y / x))
  | Lt => if Qle_bool 0 y
          then (atan (Q2R (y / x)) + PI)%R
          else (atan (Q2R (y / x)) - PI)%R
  | Eq =>
      match y ?= 0 with
      | Gt => (PI / 2)%R
      | Lt => (- (PI / 2))%R
      | Eq => 0%R
      end
  end.

End JSMath.

Module CurvePainting.

Import Ctx.

(** [drawCurrentPoint()], on the context. *)
Definition drawCurrentPoint (now : R) (this : RocketCurve.t) : t R -> t R :=
  match RocketCurve.points this with
  | [] => fun c => c
  | p0 :: _ =>
      let lastPoint := last (RocketCurve.points this) p0 in
      let pulse := RocketCurve.pulse now in
      run [ call beginPath;
            call (arc (RocketCurve.x lastPoint) (RocketCurve.y lastPoint)
                      (6 * pulse)%R);
            setFillStyle (css "#ffffff");
            painting fill;
            call beginPath;
            call (arc (RocketCurve.x lastPoint) (RocketCurve.y lastPoint)
                      (4 * pulse)%R);
            setFillStyle (css "#e53e3e");
            painting fill ]
  end.

(** The body of the [for] loop of [draw], for index [i]. *)
Definition quadraticTo (points : list RocketCurve.Point)
  (p0 : RocketCurve.Point) (i : nat) : t R -> t R :=
  let current := nth i points p0 in
  let next := nth (i + 1) points p0 in
  let controlX := (RocketCurve.x current + RocketCurve.x next) / 2 in
  let controlY := (RocketCurve.y current + RocketCurve.y next) / 2 in
  call (quadraticCurveTo (RocketCurve.x current) (RocketCurve.y current)
                         controlX controlY).

(** [draw()], when [Date.now()] is [now]. *)
Definition draw (cm : CanvasManager.t) (now : R) (this : RocketCurve.t)
  : t R -> t R :=
  let points := RocketCurve.points this in
  if (length points <? 2)%nat then fun c => c
  else
    match points with
    | [] => fun c => c
    | p0 :: _ =>
        let shadows :=
          CanvasManager.enableShadows
            (CanvasManager.performanceSettings cm) in
        run [ setStrokeStyle (css "#e53e3e");
              setLineWidth 3;
              setLineCap "round";
              setLineJoin "round";
              (if shadows
               then run [ setShadowColor "#e53e3e";
                          setShadowBlur 10;
                          setShadowOffsetX 0;
                          setShadowOffsetY 0 ]
               else fun c => c);
              call beginPath;
              call (moveTo (RocketCurve.x p0) (RocketCurve.y p0));
              each (seq 1 (length points - 2)) (quadraticTo points p0);
              (if (1 <? length points)%nat
               then
                 let lastPoint := last points p0 in
                 call (lineTo (RocketCurve.x lastPoint)
                              (RocketCurve.y lastPoint))
               else fun c => c);
              painting stroke;
              (if shadows then setShadowBlur 0 else fun c => c);
              drawCurrentPoint now this ]
    end.

(** The object returned by [getRocketPosition()]. *)
Record Pose : Type := mkPose {
  pose_x : Q;
  pose_y : Q;
  pose_angle : R;
  pose_multiplier : Q
}.

(** [getRocketPosition()]; [None] is [null]. *)
Definition getRocketPosition (this : RocketCurve.t) : option Pose :=
  let points := RocketCurve.points this in
  match points with
  | [] => None
  | p0 :: _ =>
      let lastPoint := last points p0 in
      let angle :=
        if (1 <? length points)%nat
        then
          let prevPoint := nth (length points - 2) points p0 in
          JSMath.atan2 (RocketCurve.y lastPoint - RocketCurve.y prevPoint)
                       (RocketCurve.x lastPoint - RocketCurve.x prevPoint)
        else 0%R in
      Some {| pose_x := RocketCurve.x lastPoint;
              pose_y := RocketCurve.y lastPoint;
              pose_angle := angle;
              pose_multiplier := RocketCurve.multiplier lastPoint |}
  end.

End CurvePainting.

(** ** class ExplosionParticles: painting *)

Module ParticlePainting.

Import Ctx.

(** A particle colour as a paint; [undefined] is no paint. *)
Definition paintOf (colour : option string) : Paint :=
  match colour with
  | Some c => css c
  | None => noPaint
  end.

(** The body of the [forEach] of [draw], on one particle. *)
Definition drawParticle (particle : ExplosionParticles.Particle)
  : t Q -> t Q :=
  run [ save;
        setGlobalAlpha (ExplosionParticles.life particle);
        setFillStyle (paintOf (ExplosionParticles.color particle));
        call beginPath;
        call (arc (ExplosionParticles.x particle)
                  (ExplosionParticles.y particle)
                  (ExplosionParticles.size particle));
        painting fill;
        restore ].

(** [draw()]. *)
Definition draw (this : ExplosionParticles.t) : t Q -> t Q :=
  if negb (ExplosionParticles.isActive this) then fun c => c
  else each (ExplosionParticles.particles this) drawParticle.

(** What one particle adds to the log when it is drawn on a context whose
    drawing state is [s]. *)
Definition particleCalls (s : Style) (particle : ExplosionParticles.Particle)
  : list (Call Q) :=
  [ beginPath;
    arc (ExplosionParticles.x particle) (ExplosionParticles.y particle)
        (ExplosionParticles.size particle);
    fill (mkStyle (strokeStyle s)
            (paintOf (ExplosionParticles.color particle))
            (lineWidth s) (lineCap s) (lineJoin s) (shadowColor s)
            (shadowBlur s) (shadowOffsetX s) (shadowOffsetY s)
            (ExplosionParticles.life particle) (lineDash s) (font s)) ].

End ParticlePainting.

(** ** Vocabulary of the painting statements *)

(** How [drawGrid] paints: lines dashed, thin and at opacity 0.3, labels at
    opacity 0.6, and nothing else painted. *)
Definition paintedAsGrid {N : Type} (k : Ctx.Call N) : Prop :=
  match k with
  | Ctx.stroke s =>
      Ctx.strokeStyle s = Ctx.css "#4a5568"
      /\ Ctx.lineWidth s = 1
      /\ Ctx.lineDash s = [2; 2]
      /\ Ctx.globalAlpha s = 0.3
  | Ctx.fillText _ _ _ s =>
      Ctx.fillStyle s = Ctx.css "#a0aec0"
      /\ Ctx.globalAlpha s = 0.6
  | Ctx.fill _ | Ctx.fillRect _ _ _ _ _ | Ctx.clearRect _ _ _ _ => False
  | _ => True
  end.

(** The texts written by the calls of a log, in order. *)
Definition texts {N : Type} (log : list (Ctx.Call N)) : list string :=
  flat_map (fun k => match k with
                     | Ctx.fillText text _ _ _ => [text]
                     | _ => []
                     end) log.

(** The drawing states in which the calls of a log painted, in order. *)
Definition paints {N : Type} (log : list (Ctx.Call N)) : list Ctx.Style :=
  flat_map (fun k => match Ctx.paintedWith k with
                     | Some s => [s]
                     | None => []
                     end) log.

(** The shadow part of a drawing state. *)
Definition shadowOf (s : Ctx.Style) : string * Q * Q * Q :=
  (Ctx.shadowColor s, Ctx.shadowBlur s,
   Ctx.shadowOffsetX s, Ctx.shadowOffsetY s).

(** The circles of a log, in order: centre and radius. *)
Definition arcs {N : Type} (log : list (Ctx.Call N)) : list (Q * Q * N) :=
  flat_map (fun k => match k with
                     | Ctx.arc x y radius => [(x, y, radius)]
                     | _ => []
                     end) log.

(** ** More sample data *)

(** The drawing state of a context nobody has touched. *)
Definition plainStyle : Ctx.Style :=
  {| Ctx.strokeStyle := Ctx.css "#000000";
     Ctx.fillStyle := Ctx.css "#000000";
     Ctx.lineWidth := 1;
     Ctx.lineCap := "butt";
     Ctx.lineJoin := "miter";
     Ctx.shadowColor := "rgba(0, 0, 0, 0)";
     Ctx.shadowBlur := 0;
     Ctx.shadowOffsetX := 0;
     Ctx.shadowOffsetY := 0;
     Ctx.globalAlpha := 1;
     Ctx.lineDash := [];
     Ctx.font := "10px sans-serif" |}.

(** A curve on [wideSurface] after the samples (0, 1), (15, 6), (30, 11). *)
Definition threePointCurve : RocketCurve.t :=
  {| RocketCurve.points :=
       [ {| RocketCurve.x := 0; RocketCurve.y := 400;
            RocketCurve.multiplier := 1; RocketCurve.time := 0 |};
         {| RocketCurve.x := 400; RocketCurve.y := 200;
            RocketCurve.multiplier := 6; RocketCurve.time := 15 |};
         {| RocketCurve.x := 800; RocketCurve.y := 0;
            RocketCurve.multiplier := 11; RocketCurve.time := 30 |} ];
     RocketCurve.animationId := None;
     RocketCurve.isAnimating := false |}.

(** ** The animation loop of [RocketCurve] *)

(** The host's frame requests: [requestAnimationFrame] hands out fresh
    non-zero handles, [cancelAnimationFrame] forgets one.  The only callback
    registered here is [() => this.animate()]. *)
Module Frames.

Record t : Type := mk {
  pending : list nat;
  nextHandle : nat
}.

(** The host at page load. *)
Definition idle : t := {| pending := []; nextHandle := 1 |}.

(** [requestAnimationFrame(callback)]. *)
Definition request (host : t) : nat * t :=
  (nextHandle host,
   {| pending := pending host ++ [nextHandle host];
      nextHandle := S (nextHandle host) |}).

(** [cancelAnimationFrame(handle)]. *)
Definition cancel (handle : nat) (host : t) : t :=
  {| pending := remove Nat.eq_dec handle (pending host);
     nextHandle := nextHandle host |}.

(** The host takes the request [handle] off its list to run its callback;
    [None] when no such request is pending. *)
Definition take (handle : nat) (host : t) : option t :=
  if in_dec Nat.eq_dec handle (pending host)
  then Some {| pending := remove Nat.eq_dec handle (pending host);
               nextHandle := nextHandle host |}
  else None.

(** Handles are positive and below the next one to be handed out. *)
Definition wellFormed (host : t) : Prop :=
  (0 < nextHandle host)%nat
  /\ Forall (fun handle => (0 < handle < nextHandle host)%nat) (pending host).

End Frames.

Module AnimationLoop.

(** A curve together with the host that schedules its frames. *)
Definition State : Type := (RocketCurve.t * Frames.t)%type.

(** The truth value of [this.animationId]: [null] and 0 are false. *)
Definition truthy (animationId : option nat) : bool :=
  match animationId with
  | Some (S _) => true
  | _ => false
  end.

(** [animate()]. *)
Definition animate (st : State) : State :=
  let '(this, host) := st in
  if negb (RocketCurve.isAnimating this) then st
  else
    let '(handle, host') := Frames.request host in
    ({| RocketCurve.points := RocketCurve.points this;
        RocketCurve.animationId := Some handle;
        RocketCurve.isAnimating := RocketCurve.isAnimating this |}, host').

(** [startAnimation()]. *)
Definition startAnimation (st : State) : State :=
  let '(this, host) := st in
  if RocketCurve.isAnimating this then st
  else
    animate ({| RocketCurve.points := RocketCurve.points this;
                RocketCurve.animationId := RocketCurve.animationId this;
                RocketCurve.isAnimating := true |}, host).

(** [stopAnimation()]. *)
Definition stopAnimation (st : State) : State :=
  let '(this, host) := st in
  let this' :=
    {| RocketCurve.points := RocketCurve.points this;
       RocketCurve.animationId := RocketCurve.animationId this;
       RocketCurve.isAnimating := false |} in
  if truthy (RocketCurve.animationId this)
  then
    match RocketCurve.animationId this with
    | Some handle => (this', Frames.cancel handle host)
    | None => (this', host)
    end
  else (this', host).

(** [reset()]. *)
Definition reset (st : State) : State :=
  let '(this, host) := st in
  stopAnimation
    ({| RocketCurve.points := [];
        RocketCurve.animationId := RocketCurve.animationId this;
        RocketCurve.isAnimating := RocketCurve.isAnimating this |}, host).

(** The host runs the frame callback registered under [handle], if that
    request is still pending. *)
Definition frame (handle : nat) (st : State) : State :=
  let '(this, host) := st in
  match Frames.take handle host with
  | Some host' => animate (this, host')
  | None => st
  end.

(** What can happen to a curve. *)
Inductive Op : Type :=
| Start
| Stop
| Reset
| Frame (handle : nat)
| AddPoint (cm : CanvasManager.t) (time multiplier : Q).

Definition step (st : State) (op : Op) : State :=
  match op with
  | Start => startAnimation st
  | Stop => stopAnimation st
  | Reset => reset st
  | Frame handle => frame handle st
  | AddPoint cm time multiplier =>
      (RocketCurve.addPoint cm time multiplier (fst st), snd st)
  end.

(** A history of a curve, from its construction at page load. *)
Definition history (ops : list Op) : State :=
  fold_left step ops (RocketCurve.new, Frames.idle).

(** While the loop runs exactly one frame request is pending, the one the
    curve remembers; while it is stopped none is. *)
Definition oneRequest (st : State) : Prop :=
  let '(this, host) := st in
  Frames.wellFormed host
  /\ (forall handle, RocketCurve.animationId this = Some handle ->
        (0 < handle < Frames.nextHandle host)%nat)
  /\ (if RocketCurve.isAnimating this
      then exists handle,
             RocketCurve.animationId this = Some handle
             /\ Frames.pending host = [handle]
      else Frames.pending host = []).

End AnimationLoop.

(** ** Timers: the resize handler and [throttle] *)

(** The host's timers.  Time is counted in milliseconds; [A] is what a
    timer runs when it fires.  The queue is kept in firing order: by due
    time, and by age among timers due at the same time.  The callbacks of
    the source set no timers themselves. *)
Module Timers.

Record Timer (A : Type) : Type := mkTimer {
  handle : nat;
  due : nat;
  callback : A
}.

Arguments mkTimer {A} _ _ _.
Arguments handle {A} _.
Arguments due {A} _.
Arguments callback {A} _.

Record t (A : Type) : Type := mk {
  now : nat;
  queue : list (Timer A);
  nextHandle : nat
}.

Arguments mk {A} _ _ _.
Arguments now {A} _.
Arguments queue {A} _.
Arguments nextHandle {A} _.

Section Host.

Context {A : Type}.

(** The host at page load. *)
Definition idle : t A := {| now := 0; queue := []; nextHandle := 1 |}.

Fixpoint insert (timer : Timer A) (q : list (Timer A)) : list (Timer A) :=
  match q with
  | [] => [timer]
  | first :: rest =>
      if (due first <=? due timer)%nat
      then first :: insert timer rest
      else timer :: q
  end.

(** [setTimeout(callback, delay)]. *)
Definition setTimeout (run : A) (delay : nat) (host : t A) : nat * t A :=
  (nextHandle host,
   {| now := now host;
      queue := insert (mkTimer (nextHandle host) (now host + delay) run)
                      (queue host);
      nextHandle := S (nextHandle host) |}).

(** [clearTimeout(id)]; [undefined] and unknown handles clear nothing. *)
Definition clearTimeout (id : option nat) (host : t A) : t A :=
  match id with
  | None => host
  | Some h =>
      {| now := now host;
         queue := filter (fun timer => negb (handle timer =? h)%nat)
                         (queue host);
         nextHandle := nextHandle host |}
  end.

(** [dt] milliseconds pass: the callbacks of the timers that come due, in
    firing order, and the host afterwards. *)
Definition elapse (dt : nat) (host : t A) : list A * t A :=
  let now' := (now host + dt)%nat in
  (map callback (filter (fun timer => (due timer <=? now')%nat) (queue host)),
   {| now := now';
      queue := filter (fun timer => negb (due timer <=? now')%nat)
                      (queue host);
      nextHandle := nextHandle host |}).

End Host.

End Timers.

(** [setupResizeHandler()]: the listener it installs and the variable
    [resizeTimeout] the listener closes over. *)
Module ResizeHandler.

(** The one callback given to [setTimeout]: [() => this.resize()]. *)
Inductive Callback : Type := runResize.

Record t : Type := mk {
  manager : CanvasManager.t;
  layout : CanvasManager.DOMRect;
  resizeTimeout : option nat;
  timers : Timers.t Callback
}.

(** The state once the constructor has run, for a canvas laid out as
    [rect]. *)
Definition setup (cm : CanvasManager.t) (rect : CanvasManager.DOMRect) : t :=
  {| manager := cm; layout := rect; resizeTimeout := None;
     timers := Timers.idle |}.

(** The listener of the window's [resize] event. *)
Definition onResize (s : t) : t :=
  let cleared := Timers.clearTimeout (resizeTimeout s) (timers s) in
  let '(id, host) := Timers.setTimeout runResize 150 cleared in
  {| manager := manager s; layout := layout s;
     resizeTimeout := Some id; timers := host |}.

(** A timer fires: [this.resize()] reads the layout as it is then. *)
Definition fire (s : t) (run : Callback) : t :=
  match run with
  | runResize =>
      {| manager := CanvasManager.resize (layout s) (manager s);
         layout := layout s;
         resizeTimeout := resizeTimeout s;
         timers := timers s |}
  end.

(** [dt] milliseconds pass. *)
Definition elapse (dt : nat) (s : t) : t :=
  let '(fired, host) := Timers.elapse dt (timers s) in
  fold_left fire fired
    {| manager := manager s; layout := layout s;
       resizeTimeout := resizeTimeout s; timers := host |}.

(** The page lays the canvas out anew. *)
Definition relayout (rect : CanvasManager.DOMRect) (s : t) : t :=
  {| manager := manager s; layout := rect;
     resizeTimeout := resizeTimeout s; timers := timers s |}.

Inductive Op : Type :=
| ResizeEvent
| Elapse (dt : nat)
| Relayout (rect : CanvasManager.DOMRect).

Definition step (s : t) (op : Op) : t :=
  match op with
  | ResizeEvent => onResize s
  | Elapse dt => elapse dt s
  | Relayout rect => relayout rect s
  end.

Definition run (ops : list Op) (s : t) : t := fold_left step ops s.

(** The time that passes during a sequence of operations. *)
Definition duration (ops : list Op) : nat :=
  fold_right (fun op total =>
                match op with
                | Elapse dt => (dt + total)%nat
                | _ => total
                end) 0%nat ops.

(** At most one timer is pending: the one [resizeTimeout] names, set by the
    latest resize event and due 150 ms after it, [since] milliseconds
    ago. *)
Definition pendingSince (since : nat) (s : t) : Prop :=
  exists id : nat,
    resizeTimeout s = Some id
    /\ (since < 150)%nat
    /\ Timers.queue (timers s)
       = [Timers.mkTimer id (Timers.now (timers s) - since + 150) runResize]
    /\ (since <= Timers.now (timers s))%nat.

(** No timer is pending. *)
Definition quiet (s : t) : Prop := Timers.queue (timers s) = [].

End ResizeHandler.

(** [throttle(func, limit)]: the function it returns and the variable
    [inThrottle] that function closes over.  An execution of [func] is
    recorded with the time at which it starts.  Timers run when the host
    gets to them, at or after the time they are due, and never while
    [func] is running. *)
Module Throttle.

(** The one callback given to [setTimeout]: [() => inThrottle = false]. *)
Inductive Callback : Type := release.

(** How a call ends. *)
Inductive Outcome : Type := Returned | Thrown.

(** What one execution of [func] does, as far as the throttle can tell: it
    takes time, it may call the throttled function itself, and it returns
    or throws.  In [Reenter args inner next handler], [inner] is what
    [func] does if the nested call executes it, [next] how the outer
    execution goes on once the nested call has returned, and [handler] how
    it goes on if the nested call throws ([Throw] when the exception is
    not caught). *)
Inductive Behaviour (Args : Type) : Type :=
| Return
| Throw
| Spend (dt : nat) (next : Behaviour Args)
| Reenter (args : Args) (inner next handler : Behaviour Args).

Arguments Return {Args}.
Arguments Throw {Args}.
Arguments Spend {Args} _ _.
Arguments Reenter {Args} _ _ _ _.

Record t (Args : Type) : Type := mk {
  inThrottle : bool;
  timers : Timers.t Callback;
  executed : list (nat * Args)
}.

Arguments mk {Args} _ _ _.
Arguments inThrottle {Args} _.
Arguments timers {Args} _.
Arguments executed {Args} _.

Section Throttled.

Context {Args : Type}.
Variable limit : nat.

(** [throttle(func, limit)], just returned: [inThrottle] is [undefined]. *)
Definition fresh : t Args :=
  {| inThrottle := false; timers := Timers.idle; executed := [] |}.

(** [dt] milliseconds pass and no timer runs. *)
Definition tick (dt : nat) (s : t Args) : t Args :=
  {| inThrottle := inThrottle s;
     timers :=
       {| Timers.now := Timers.now (timers s) + dt;
          Timers.queue := Timers.queue (timers s);
          Timers.nextHandle := Timers.nextHandle (timers s) |};
     executed := executed s |}.

(** The returned function, called with [args]; [apply] is
    [func.apply(this, args)].  An exception of [func] leaves the function
    before [inThrottle] is set. *)
Definition guarded (apply : t Args -> Outcome * t Args) (args : Args)
  (s : t Args) : Outcome * t Args :=
  if negb (inThrottle s)
  then
    let '(outcome, s1) :=
      apply {| inThrottle := inThrottle s;
               timers := timers s;
               executed := executed s ++ [(Timers.now (timers s), args)] |} in
    match outcome with
    | Thrown => (Thrown, s1)
    | Returned =>
        let '(_, host) := Timers.setTimeout release limit (timers s1) in
        (Returned,
         {| inThrottle := true; timers := host; executed := executed s1 |})
    end
  else (Returned, s).

(** An execution of [func] that behaves as [b]. *)
Fixpoint func (b : Behaviour Args) (s : t Args) : Outcome * t Args :=
  match b with
  | Return => (Returned, s)
  | Throw => (Thrown, s)
  | Spend dt next => func next (tick dt s)
  | Reenter args inner next handler =>
      let '(outcome, s1) := guarded (func inner) args s in
      match outcome with
      | Returned => func next s1
      | Thrown => func handler s1
      end
  end.

(** A call of the returned function with [args], [func] behaving as [b]
    if it is executed. *)
Definition call (args : Args) (b : Behaviour Args) (s : t Args)
  : Outcome * t Args :=
  guarded (func b) args s.

Definition fire (s : t Args) (run : Callback) : t Args :=
  match run with
  | release =>
      {| inThrottle := false; timers := timers s; executed := executed s |}
  end.

(** The host runs the first timer, if it is due. *)
Definition runTimer (s : t Args) : t Args :=
  match Timers.queue (timers s) with
  | [] => s
  | timer :: rest =>
      if (Timers.due timer <=? Timers.now (timers s))%nat
      then fire {| inThrottle := inThrottle s;
                   timers :=
                     {| Timers.now := Timers.now (timers s);
                        Timers.queue := rest;
                        Timers.nextHandle := Timers.nextHandle (timers s) |};
                   executed := executed s |}
                (Timers.callback timer)
      else s
  end.

(** What happens to a throttled function: the host calls it (an exception
    ends that task of the host and nothing else), time passes, the host
    runs a timer. *)
Inductive Op : Type :=
| Call (args : Args) (b : Behaviour Args)
| Tick (dt : nat)
| RunTimer.

Definition step (s : t Args) (op : Op) : t Args :=
  match op with
  | Call args b => snd (call args b s)
  | Tick dt => tick dt s
  | RunTimer => runTimer s
  end.

Definition run (ops : list Op) : t Args := fold_left step ops fresh.

(** [func] returns and does not call the throttled function. *)
Fixpoint plain (b : Behaviour Args) : bool :=
  match b with
  | Return => true
  | Spend _ next => plain next
  | Throw | Reenter _ _ _ _ => false
  end.

(** Every call of a history finds [func] plain. *)
Definition orderly (ops : list Op) : bool :=
  forallb (fun op => match op with Call _ b => plain b | _ => true end) ops.

(** Successive executions are at least [limit] apart. *)
Fixpoint spaced (log : list (nat * Args)) : Prop :=
  match log with
  | [] => True
  | (time, _) :: rest =>
      match rest with
      | [] => True
      | (time', _) :: _ => (time + limit <= time')%nat
      end
      /\ spaced rest
  end.

(** The calls the host makes in a history that starts in [s], each with
    the time at which it is made. *)
Fixpoint callsMade (s : t Args) (ops : list Op) : list (nat * Args) :=
  match ops with
  | [] => []
  | op :: rest =>
      match op with
      | Call args _ => [(Timers.now (timers s), args)]
      | _ => []
      end ++ callsMade (step s op) rest
  end.

End Throttled.

End Throttle.

(** ** Vocabulary of the timer statements *)

(** Resize events keep coming before the pending timer fires: during [ops]
    no 150 ms pass without a new resize event, the latest one being [since]
    milliseconds old at the start. *)
Fixpoint calm (since : nat) (ops : list ResizeHandler.Op) : Prop :=
  match ops with
  | [] => True
  | ResizeHandler.ResizeEvent :: rest => calm 0 rest
  | ResizeHandler.Elapse dt :: rest =>
      (since + dt < 150)%nat /\ calm (since + dt) rest
  | ResizeHandler.Relayout _ :: rest => calm since rest
  end.

(** The age of the latest resize event at the end of [ops], when it is
    [since] milliseconds old at the start. *)
Fixpoint age (since : nat) (ops : list ResizeHandler.Op) : nat :=
  match ops with
  | [] => since
  | ResizeHandler.ResizeEvent :: rest => age 0 rest
  | ResizeHandler.Elapse dt :: rest => age (since + dt) rest
  | ResizeHandler.Relayout _ :: rest => age since rest
  end.

(** The layout at the end of [ops], when it is [rect] at the start. *)
Fixpoint layoutAfter (rect : CanvasManager.DOMRect)
  (ops : list ResizeHandler.Op) : CanvasManager.DOMRect :=
  match ops with
  | [] => rect
  | ResizeHandler.Relayout rect' :: rest => layoutAfter rect' rest
  | _ :: rest => layoutAfter rect rest
  end.

(** The time of the latest execution recorded in a log. *)
Definition lastTime {Args : Type} (log : list (nat * Args)) : option nat :=
  match rev log with
  | [] => None
  | (time, _) :: _ => Some time
  end.

(** Every state of the resize handler is quiet or has its one timer
    pending. *)
Definition settled (s : ResizeHandler.t) : Prop :=
  ResizeHandler.quiet s \/ exists since, ResizeHandler.pendingSince since s.

(** The state of a throttled function whose [func] is plain agrees with its
    log: executions are spaced; while throttled the one pending timer is the
    release, due [limit] or more after the latest execution; while open no
    timer is pending and the latest execution is at least [limit] old. *)
Definition throttleInvariant {Args : Type} (limit : nat)
  (s : Throttle.t Args) : Prop :=
  Throttle.spaced limit (Throttle.executed s)
  /\ match lastTime (Throttle.executed s) with
     | None =>
         Throttle.inThrottle s = false
         /\ Timers.queue (Throttle.timers s) = []
     | Some latest =>
         (latest <= Timers.now (Throttle.timers s))%nat
         /\ if Throttle.inThrottle s
            then exists id due,
                   Timers.queue (Throttle.timers s)
                   = [Timers.mkTimer id due Throttle.release]
                   /\ (latest + limit <= due)%nat
            else Timers.queue (Throttle.timers s) = []
                 /\ (latest + limit <= Timers.now (Throttle.timers s))%nat
     end.

(** * socket.js: class SocketManager *)

Module SocketManager.

(** What a listener receives. *)
Inductive Data : Type :=
| status (connected : bool) (reason : option string)
| failure (error : string) (attempts : nat)
| reconnected (attempts : nat)
| fromServer (payload : string).

(** What [send] hands to the socket. *)
Inductive Message : Type :=
| placeBetMessage (amount : Q) (autoCashOut : option Q) (timestamp : nat)
| cashOutMessage (timestamp : nat)
| joinGameMessage (playerName : string) (timestamp : nat).

(** A line on the console, by level. *)
Inductive Console : Type := logged | warned | errored.

(** A listener is a function object, known by its identity. *)
Definition Callback : Type := nat.

(** A [Map] from event names to arrays of listeners, in insertion order of
    the keys. *)
Definition CallbackMap : Type := list (string * list Callback).

Fixpoint get (event : string) (m : CallbackMap) : option (list Callback) :=
  match m with
  | [] => None
  | (key, callbacks) :: rest =>
      if String.eqb key event then Some callbacks else get event rest
  end.

Definition has (event : string) (m : CallbackMap) : bool :=
  match get event m with
  | Some _ => true
  | None => false
  end.

Fixpoint set (event : string) (callbacks : list Callback) (m : CallbackMap)
  : CallbackMap :=
  match m with
  | [] => [(event, callbacks)]
  | (key, old) :: rest =>
      if String.eqb key event then (key, callbacks) :: rest
      else (key, old) :: set event callbacks rest
  end.

(** [callbacks.indexOf(callback)]; [None] is -1. *)
Fixpoint indexOf (callback : Callback) (callbacks : list Callback)
  : option nat :=
  match callbacks with
  | [] => None
  | first :: rest =>
      if (first =? callback)%nat then Some 0%nat
      else option_map S (indexOf callback rest)
  end.

(** [callbacks.splice(index, 1)]: the array that is left. *)
Definition splice1 (index : nat) (callbacks : list Callback) : list Callback :=
  firstn index callbacks ++ skipn (S index) callbacks.

Record t : Type := mk {
  isConnected : bool;
  reconnectAttempts : nat;
  maxReconnectAttempts : nat;
  reconnectDelay : nat;
  eventCallbacks : CallbackMap;
  (** what the socket was asked to send, oldest first *)
  outbox : list (string * Message);
  (** every invocation of a listener, oldest first *)
  delivered : list (Callback * Data);
  (** every [emit], oldest first *)
  emitted : list (string * Data);
  console : list Console
}.

(** The fields after the constructor; the socket is connecting. *)
Definition new : t :=
  {| isConnected := false; reconnectAttempts := 0;
     maxReconnectAttempts := 5; reconnectDelay := 1000;
     eventCallbacks := []; outbox := []; delivered := []; emitted := [];
     console := [] |}.

Definition withCallbacks (m : CallbackMap) (s : t) : t :=
  mk (isConnected s) (reconnectAttempts s) (maxReconnectAttempts s)
     (reconnectDelay s) m (outbox s) (delivered s) (emitted s) (console s).

Definition withConsole (line : Console) (s : t) : t :=
  mk (isConnected s) (reconnectAttempts s) (maxReconnectAttempts s)
     (reconnectDelay s) (eventCallbacks s) (outbox s) (delivered s)
     (emitted s) (console s ++ [line]).

Definition withConnected (connected : bool) (s : t) : t :=
  mk connected (reconnectAttempts s) (maxReconnectAttempts s)
     (reconnectDelay s) (eventCallbacks s) (outbox s) (delivered s)
     (emitted s) (console s).

Definition withAttempts (attempts : nat) (s : t) : t :=
  mk (isConnected s) attempts (maxReconnectAttempts s)
     (reconnectDelay s) (eventCallbacks s) (outbox s) (delivered s)
     (emitted s) (console s).

(** [on(event, callback)]. *)
Definition on (event : string) (callback : Callback) (s : t) : t :=
  let m := eventCallbacks s in
  let m := if negb (has event m) then set event [] m else m in
  match get event m with
  | Some callbacks => withCallbacks (set event (callbacks ++ [callback]) m) s
  | None => withCallbacks m s
  end.

(** [off(event, callback)]. *)
Definition off (event : string) (callback : Callback) (s : t) : t :=
  let m := eventCallbacks s in
  if has event m then
    match get event m with
    | Some callbacks =>
        match indexOf callback callbacks with
        | Some index => withCallbacks (set event (splice1 index callbacks) m) s
        | None => s
        end
    | None => s
    end
  else s.

Section Listeners.

(** Whether the listener [callback] throws when called with [data].
    Listeners do not call back into the manager. *)
Variable throws : Callback -> Data -> bool.

(** One turn of the [forEach] of [emit]: the call inside [try], and the
    [console.error] of the [catch]. *)
Definition deliver (data : Data) (s : t) (callback : Callback) : t :=
  let s' :=
    mk (isConnected s) (reconnectAttempts s) (maxReconnectAttempts s)
       (reconnectDelay s) (eventCallbacks s) (outbox s)
       (delivered s ++ [(callback, data)]) (emitted s) (console s) in
  if throws callback data then withConsole errored s' else s'.

(** [emit(event, data)]. *)
Definition emit (event : string) (data : Data) (s : t) : t :=
  let s :=
    mk (isConnected s) (reconnectAttempts s) (maxReconnectAttempts s)
       (reconnectDelay s) (eventCallbacks s) (outbox s) (delivered s)
       (emitted s ++ [(event, data)]) (console s) in
  if has event (eventCallbacks s) then
    match get event (eventCallbacks s) with
    | Some callbacks => fold_left (deliver data) callbacks s
    | None => s
    end
  else s.

(** The events of the socket that [setupEventHandlers] listens to. *)
Inductive SocketEvent : Type :=
| connect
| disconnect (reason : string)
| connect_error
| reconnect (attemptNumber : nat)
| game_state (payload : string)
| player_joined (payload : string)
| player_left (payload : string)
| player_bet (payload : string)
| player_cashed_out (payload : string)
| game_history (payload : string)
| error (payload : string).

(** The handlers installed by [setupEventHandlers()]. *)
Definition handle (event : SocketEvent) (s : t) : t :=
  match event with
  | connect =>
      let s := withConsole logged s in
      let s := withConnected true s in
      let s := withAttempts 0 s in
      emit "connection_status" (status true None) s
  | disconnect reason =>
      let s := withConsole logged s in
      let s := withConnected false s in
      emit "connection_status" (status false (Some reason)) s
  | connect_error =>
      let s := withConsole errored s in
      let s := withAttempts (reconnectAttempts s + 1) s in
      if (maxReconnectAttempts s <=? reconnectAttempts s)%nat
      then emit "connection_error"
             (failure "Falha ao conectar após várias tentativas"
                      (reconnectAttempts s)) s
      else s
  | reconnect attemptNumber =>
      let s := withConsole logged s in
      emit "reconnected" (reconnected attemptNumber) s
  | game_state payload => emit "game_state" (fromServer payload) s
  | player_joined payload => emit "player_joined" (fromServer payload) s
  | player_left payload => emit "player_left" (fromServer payload) s
  | player_bet payload => emit "player_bet" (fromServer payload) s
  | player_cashed_out payload =>
      emit "player_cashed_out" (fromServer payload) s
  | game_history payload => emit "game_history" (fromServer payload) s
  | error payload =>
      let s := withConsole errored s in
      emit "server_error" (fromServer payload) s
  end.

End Listeners.

(** [send(event, data)]; the socket exists from the constructor on. *)
Definition send (event : string) (data : Message) (s : t) : t :=
  if isConnected s && true
  then mk (isConnected s) (reconnectAttempts s) (maxReconnectAttempts s)
          (reconnectDelay s) (eventCallbacks s)
          (outbox s ++ [(event, data)]) (delivered s) (emitted s) (console s)
  else withConsole warned s.

(** [placeBet(amount, autoCashOut)], when [Date.now()] is [now]. *)
Definition placeBet (now : nat) (amount : Q) (autoCashOut : option Q)
  : t -> t :=
  send "place_bet" (placeBetMessage amount autoCashOut now).

(** [cashOut()]. *)
Definition cashOut (now : nat) : t -> t :=
  send "cash_out" (cashOutMessage now).

Definition adjectives : list string :=
  ["Rápido"; "Sortudo"; "Corajoso"; "Esperto"; "Audaz"]%string.

Definition nouns : list string :=
  ["Piloto"; "Astronauta"; "Foguete"; "Explorador"; "Aventureiro"]%string.

(** A template substitution [${value}] of an array element: the text
    [undefined] when there is none. *)
Definition shown (value : option string) : string :=
  match value with
  | Some text => text
  | None => "undefined"
  end.

(** [generatePlayerName()], with the random numbers as for
    [ExplosionParticles]: the name, and the number of draws made. *)
Definition generatePlayerName (rnd : nat -> Q) (n : nat) : string * nat :=
  let adj :=
    JS.index adjectives
      (JS.floor (rnd n * inject_Z (Z.of_nat (length adjectives)))) in
  let noun :=
    JS.index nouns
      (JS.floor (rnd (S n) * inject_Z (Z.of_nat (length nouns)))) in
  let number := (JS.floor (rnd (S (S n)) * 999) + 1)%Z in
  ((shown adj ++ shown noun ++ NilZero.string_of_int (Z.to_int number))%string,
   S (S (S n))).

(** A string is falsy exactly when it is empty. *)
Definition nonEmpty (text : option string) : option string :=
  match text with
  | Some EmptyString => None
  | other => other
  end.

(** [joinGame(playerName)]; [None] is a call without argument. *)
Definition joinGame (rnd : nat -> Q) (n : nat) (now : nat)
  (playerName : option string) (s : t) : t * nat :=
  let '(name, n') :=
    match nonEmpty playerName with
    | Some text => (text, n)
    | None => generatePlayerName rnd n
    end in
  (send "join_game" (joinGameMessage name now) s, n').

End SocketManager.

(** The listeners an [emit] of [event] would call, in order. *)
Definition listeners (event : string) (s : SocketManager.t)
  : list SocketManager.Callback :=
  match SocketManager.get event (SocketManager.eventCallbacks s) with
  | Some callbacks => callbacks
  | None => []
  end.

(** An array without the first occurrence of [callback]. *)
Fixpoint withoutFirst (callback : SocketManager.Callback)
  (callbacks : list SocketManager.Callback) : list SocketManager.Callback :=
  match callbacks with
  | [] => []
  | first :: rest =>
      if (first =? callback)%nat then rest
      else first :: withoutFirst callback rest
  end.

(** Whether the socket is connected after [events], when it is [before]
    them: the latest [connect] or [disconnect] decides. *)
Definition onlineAfter (before : bool)
  (events : list SocketManager.SocketEvent) : bool :=
  fold_left (fun connected event =>
               match event with
               | SocketManager.connect => true
               | SocketManager.disconnect _ => false
               | _ => connected
               end) events before.

(** The socket events [events], handled in order. *)
Definition handleAll
  (throws : SocketManager.Callback -> SocketManager.Data -> bool)
  (events : list SocketManager.SocketEvent) (s : SocketManager.t)
  : SocketManager.t :=
  fold_left (fun s' event => SocketManager.handle throws event s') events s.

(** The message of the [connection_error] event. *)
Definition tooManyAttempts : string :=
  "Falha ao conectar após várias tentativas".

(** * The UI script: class UIManager *)

Module UIManager.

(** The values [gameState] takes; [setGameState] stores whatever it is
    given. *)
Inductive GameState : Type := waiting | starting | flying | crashed | unknown.

(** The text of an input field, by what [parseFloat] makes of it: text
    typed by the user or set to a literal parses to a number or to NaN
    ([None]); text written as [value.toFixed(2)] parses to the rounded
    value. *)
Inductive FieldText : Type :=
| typed (parsed : option Q)
| toFixed2 (value : option Q).

Inductive Notification : Type :=
| invalidBet
| insufficientBalance
| betPlaced (amount : Q)
| cashedOut (amount : Q).

(** The calls made on [window.socketManager]. *)
Inductive SocketCall : Type :=
| placeBetCall (amount : Q) (autoCashOut : option (option Q))
| cashOutCall.

Record t : Type := mk {
  gameState : GameState;
  playerBalance : Q;
  currentBet : Q;
  isAutoCashOut : bool;
  isPlaying : bool;
  (** [elements.betAmount]: [value] and [style.borderColor] *)
  betAmountValue : FieldText;
  betAmountBorder : string;
  (** [elements.autoCashOutValue] and [elements.autoCashOutToggle] *)
  autoCashOutText : FieldText;
  autoCashOutDisabled : bool;
  autoCashOutChecked : bool;
  (** [elements.btnText], [elements.startBtn], [elements.btnLoading] *)
  btnText : string;
  btnDisabled : bool;
  btnLoadingHidden : bool;
  btnBackground : string;
  (** the number whose [toFixed(2)] is shown as balance *)
  balanceShown : Q;
  notifications : list Notification;
  hasSocketManager : bool;
  socketCalls : list SocketCall
}.

(** How a call ends: it returns, or the call stack is exhausted on the way
    (a [RangeError] that nothing catches).  Either way the state reached is
    kept. *)
Inductive Outcome (A : Type) : Type :=
| Returned (result : A) (s : t)
| Thrown (s : t).

Arguments Returned {A} _ _.
Arguments Thrown {A} _.

Definition stateOf {A : Type} (o : Outcome A) : t :=
  match o with
  | Returned _ s => s
  | Thrown s => s
  end.

Definition returns {A : Type} (o : Outcome A) : bool :=
  match o with
  | Returned _ _ => true
  | Thrown _ => false
  end.

Section Methods.

(** The value of the decimal text [x.toFixed(2)]. *)
Variable round2 : Q -> Q.

(** [parseFloat(field.value)]. *)
Definition parseFloat (text : FieldText) : option Q :=
  match text with
  | typed parsed => parsed
  | toFixed2 (Some value) => Some (round2 value)
  | toFixed2 None => None
  end.

(** [x || 0] for a number [x]: NaN and 0 give 0. *)
Definition orZero (x : option Q) : Q :=
  match x with
  | Some q => q
  | None => 0
  end.

Definition setBetBorder (colour : string) (s : t) : t :=
  mk (gameState s) (playerBalance s) (currentBet s) (isAutoCashOut s)
     (isPlaying s) (betAmountValue s) colour (autoCashOutText s)
     (autoCashOutDisabled s) (autoCashOutChecked s) (btnText s)
     (btnDisabled s) (btnLoadingHidden s) (btnBackground s)
     (balanceShown s) (notifications s) (hasSocketManager s) (socketCalls s).

Definition setButton (text : string) (disabled loadingHidden : bool)
  (s : t) : t :=
  mk (gameState s) (playerBalance s) (currentBet s) (isAutoCashOut s)
     (isPlaying s) (betAmountValue s) (betAmountBorder s)
     (autoCashOutText s) (autoCashOutDisabled s) (autoCashOutChecked s)
     text disabled loadingHidden (btnBackground s)
     (balanceShown s) (notifications s) (hasSocketManager s) (socketCalls s).

Definition setBackground (background : string) (s : t) : t :=
  mk (gameState s) (playerBalance s) (currentBet s) (isAutoCashOut s)
     (isPlaying s) (betAmountValue s) (betAmountBorder s)
     (autoCashOutText s) (autoCashOutDisabled s) (autoCashOutChecked s)
     (btnText s) (btnDisabled s) (btnLoadingHidden s) background
     (balanceShown s) (notifications s) (hasSocketManager s) (socketCalls s).

Definition setBetText (text : FieldText) (s : t) : t :=
  mk (gameState s) (playerBalance s) (currentBet s) (isAutoCashOut s)
     (isPlaying s) text (betAmountBorder s)
     (autoCashOutText s) (autoCashOutDisabled s) (autoCashOutChecked s)
     (btnText s) (btnDisabled s) (btnLoadingHidden s) (btnBackground s)
     (balanceShown s) (notifications s) (hasSocketManager s) (socketCalls s).

Definition setPlaying (playing : bool) (s : t) : t :=
  mk (gameState s) (playerBalance s) (currentBet s) (isAutoCashOut s)
     playing (betAmountValue s) (betAmountBorder s)
     (autoCashOutText s) (autoCashOutDisabled s) (autoCashOutChecked s)
     (btnText s) (btnDisabled s) (btnLoadingHidden s) (btnBackground s)
     (balanceShown s) (notifications s) (hasSocketManager s) (socketCalls s).

(** [showNotification(message, type)], as far as the message goes. *)
Definition showNotification (n : Notification) (s : t) : t :=
  mk (gameState s) (playerBalance s) (currentBet s) (isAutoCashOut s)
     (isPlaying s) (betAmountValue s) (betAmountBorder s)
     (autoCashOutText s) (autoCashOutDisabled s) (autoCashOutChecked s)
     (btnText s) (btnDisabled s) (btnLoadingHidden s) (btnBackground s)
     (balanceShown s) (notifications s ++ [n]) (hasSocketManager s)
     (socketCalls s).

(** A call on [window.socketManager], made when there is one. *)
Definition callSocket (c : SocketCall) (s : t) : t :=
  if hasSocketManager s
  then mk (gameState s) (playerBalance s) (currentBet s) (isAutoCashOut s)
          (isPlaying s) (betAmountValue s) (betAmountBorder s)
          (autoCashOutText s) (autoCashOutDisabled s) (autoCashOutChecked s)
          (btnText s) (btnDisabled s) (btnLoadingHidden s) (btnBackground s)
          (balanceShown s) (notifications s) (hasSocketManager s)
          (socketCalls s ++ [c])
  else s.

(** [updateBalance()]. *)
Definition updateBalance (s : t) : t :=
  mk (gameState s) (playerBalance s) (currentBet s) (isAutoCashOut s)
     (isPlaying s) (betAmountValue s) (betAmountBorder s)
     (autoCashOutText s) (autoCashOutDisabled s) (autoCashOutChecked s)
     (btnText s) (btnDisabled s) (btnLoadingHidden s) (btnBackground s)
     (playerBalance s) (notifications s) (hasSocketManager s)
     (socketCalls s).

(** The local state update of [placeBet]. *)
Definition stake (betAmount : Q) (s : t) : t :=
  mk (gameState s) (playerBalance s - betAmount) betAmount
     (isAutoCashOut s) true (betAmountValue s) (betAmountBorder s)
     (autoCashOutText s) (autoCashOutDisabled s) (autoCashOutChecked s)
     (btnText s) (btnDisabled s) (btnLoadingHidden s) (btnBackground s)
     (balanceShown s) (notifications s) (hasSocketManager s)
     (socketCalls s).

Definition waitingOrStarting (s : t) : bool :=
  match gameState s with
  | waiting | starting => true
  | _ => false
  end.

Definition isFlying (s : t) : bool :=
  match gameState s with
  | flying => true
  | _ => false
  end.

(** The last statement of [updateStartButton]. *)
Definition resetBackground (s : t) : t :=
  if negb (isFlying s) || negb (isPlaying s) then setBackground "" s else s.

(** [validateBetAmount(value)] and [updateStartButton()], which call each
    other; [depth] is the number of calls the stack still takes. *)
Fixpoint validateBetAmount (depth : nat) (value : option Q) (s : t)
  {struct depth} : Outcome bool :=
  match depth with
  | O => Thrown s
  | S depth' =>
      let amount := orZero value in
      let isValid := Qle_bool 1 amount && Qle_bool amount (playerBalance s) in
      let s := setBetBorder (if isValid then "" else "#e53e3e") s in
      match updateStartButton depth' s with
      | Returned _ s' => Returned isValid s'
      | Thrown s' => Thrown s'
      end
  end

with updateStartButton (depth : nat) (s : t) {struct depth} : Outcome unit :=
  match depth with
  | O => Thrown s
  | S depth' =>
      if waitingOrStarting s then
        if isPlaying s then
          Returned tt (resetBackground (setButton "Aguardando..." true false s))
        else
          let betAmount := orZero (parseFloat (betAmountValue s)) in
          match validateBetAmount depth' (Some betAmount) s with
          | Returned isValidBet s' =>
              Returned tt
                (resetBackground
                   (setButton "Começar o jogo" (negb isValidBet) true s'))
          | Thrown s' => Thrown s'
          end
      else if isFlying s then
        if isPlaying s then
          Returned tt
            (resetBackground
               (setBackground
                  "linear-gradient(135deg, #38a169 0%, #2f855a 100%)"
                  (setButton "Retirar" false true s)))
        else
          Returned tt (resetBackground (setButton "Aguarde..." true true s))
      else
        Returned tt (resetBackground (setButton "Aguarde..." true true s))
  end.

(** [placeBet()]. *)
Definition placeBet (depth : nat) (s : t) : Outcome unit :=
  match depth with
  | O => Thrown s
  | S depth' =>
      let betAmount := orZero (parseFloat (betAmountValue s)) in
      match validateBetAmount depth' (Some betAmount) s with
      | Thrown s' => Thrown s'
      | Returned false s' => Returned tt (showNotification invalidBet s')
      | Returned true s' =>
          if negb (Qle_bool betAmount (playerBalance s'))
          then Returned tt (showNotification insufficientBalance s')
          else
            let autoCashOut :=
              if isAutoCashOut s'
              then Some (parseFloat (autoCashOutText s'))
              else None in
            let s' := callSocket (placeBetCall betAmount autoCashOut) s' in
            let s' := stake betAmount s' in
            let s' := updateBalance s' in
            match updateStartButton depth' s' with
            | Thrown s'' => Thrown s''
            | Returned _ s'' =>
                Returned tt (showNotification (betPlaced betAmount) s'')
            end
      end
  end.

(** [cashOut()]. *)
Definition cashOut (depth : nat) (s : t) : Outcome unit :=
  match depth with
  | O => Thrown s
  | S depth' =>
      if negb (isPlaying s) then Returned tt s
      else
        let s := callSocket cashOutCall s in
        let s := setPlaying false s in
        updateStartButton depth' s
  end.

(** [handleMainAction()]. *)
Definition handleMainAction (depth : nat) (s : t) : Outcome unit :=
  match depth with
  | O => Thrown s
  | S depth' =>
      if waitingOrStarting s then placeBet depth' s
      else if isFlying s && isPlaying s then cashOut depth' s
      else Returned tt s
  end.

(** The [data-action] of a bet control button. *)
Inductive Action : Type := half | double | otherAction.

(** [Math.max(a, b)] and [Math.min(a, b)] when [a] may be [undefined] or
    NaN: the result is then NaN. *)
Definition maxNaN (a : option Q) (b : Q) : option Q :=
  option_map (fun q => Qmax q b) a.

Definition minNaN (a : option Q) (b : Q) : option Q :=
  option_map (fun q => Qmin q b) a.

(** [adjustBetAmount(action)]. *)
Definition adjustBetAmount (depth : nat) (action : Action) (s : t)
  : Outcome unit :=
  match depth with
  | O => Thrown s
  | S depth' =>
      let currentValue := orZero (parseFloat (betAmountValue s)) in
      let newValue :=
        match action with
        | half => Some (currentValue / 2)
        | double => Some (currentValue * 2)
        | otherAction => None
        end in
      let newValue := maxNaN newValue 1 in
      let newValue := minNaN newValue (playerBalance s) in
      let s := setBetText (toFixed2 newValue) s in
      match validateBetAmount depth' newValue s with
      | Returned _ s' => Returned tt s'
      | Thrown s' => Thrown s'
      end
  end.

End Methods.

(** A child of the history container: its colour class and the multiplier
    it shows. *)
Record HistoryItem : Type := mkItem {
  colourClass : string;
  shownMultiplier : Q
}.

(** The [while] loop of [addToHistory]: the last child is removed as long
    as there are more than 20; [turns] bounds the number of turns. *)
Fixpoint trimHistory (turns : nat) (children : list HistoryItem)
  : list HistoryItem :=
  match turns with
  | O => children
  | S turns' =>
      if (20 <? length children)%nat
      then trimHistory turns' (removelast children)
      else children
  end.

(** [addToHistory(multiplier)], on the children of the history container,
    first child first.  The loop needs no more turns than there are
    children. *)
Definition addToHistory (multiplier : Q) (children : list HistoryItem)
  : list HistoryItem :=
  let colour :=
    if Qle_bool 10 multiplier then "purple"%string
    else if Qle_bool 2 multiplier then "green"%string
    else "red"%string in
  let historyItem :=
    {| colourClass := colour; shownMultiplier := multiplier |} in
  let children := historyItem :: children in
  trimHistory (length children) children.

End UIManager.

(** The part of the state that betting is about. *)
Definition stakes (s : UIManager.t)
  : Q * Q * bool * list UIManager.SocketCall * list UIManager.Notification :=
  (UIManager.playerBalance s, UIManager.currentBet s, UIManager.isPlaying s,
   UIManager.socketCalls s, UIManager.notifications s).

(** The item [addToHistory] makes for a multiplier. *)
Definition historyItemOf (multiplier : Q) : UIManager.HistoryItem :=
  hd (UIManager.mkItem "" 0) (UIManager.addToHistory multiplier []).

(** A player in the waiting phase with 1000 in balance and a bet of 10
    typed in. *)
Definition freshPlayer : UIManager.t :=
  {| UIManager.gameState := UIManager.waiting;
     UIManager.playerBalance := 1000;
     UIManager.currentBet := 0;
     UIManager.isAutoCashOut := false;
     UIManager.isPlaying := false;
     UIManager.betAmountValue := UIManager.typed (Some 10);
     UIManager.betAmountBorder := "";
     UIManager.autoCashOutText := UIManager.typed (Some 2);
     UIManager.autoCashOutDisabled := true;
     UIManager.autoCashOutChecked := false;
     UIManager.btnText := "Começar o jogo";
     UIManager.btnDisabled := false;
     UIManager.btnLoadingHidden := true;
     UIManager.btnBackground := "";
     UIManager.balanceShown := 1000;
     UIManager.notifications := [];
     UIManager.hasSocketManager := true;
     UIManager.socketCalls := [] |}.

(** Everything in the state but the border of the bet field and the look of
    the main button. *)
Definition beyondLooks (s : UIManager.t) :=
  (UIManager.gameState s, UIManager.playerBalance s, UIManager.currentBet s,
   UIManager.isAutoCashOut s, UIManager.isPlaying s,
   UIManager.betAmountValue s, UIManager.autoCashOutText s,
   UIManager.autoCashOutDisabled s, UIManager.autoCashOutChecked s,
   UIManager.balanceShown s, UIManager.notifications s,
   UIManager.hasSocketManager s, UIManager.socketCalls s).

(** A bet the validation accepts. *)
Definition validBet (amount : Q) (s : UIManager.t) : bool :=
  Qle_bool 1 amount && Qle_bool amount (UIManager.playerBalance s).

(** [UIManager.updateMultiplier]: what it writes to [elements.multiplier]. *)
Module MultiplierDisplay.

Record t : Type := mk {
  (** the number whose [toFixed(2)], followed by X, is the text *)
  shown : Q;
  (** the factor in [transform: translateX(-50%) scale(...)] *)
  scale : Q;
  colour : string
}.

(** [updateMultiplier(multiplier)]. *)
Definition updateMultiplier (multiplier : Q) : t :=
  let scale := JS.min (1 + (multiplier - 1) * 0.05) 1.5 in
  let colour :=
    if Qle_bool 10 multiplier then "#ffd700"%string
    else if Qle_bool 5 multiplier then "#ff6b6b"%string
    else if Qle_bool 2 multiplier then "#68d391"%string
    else "white"%string in
  {| shown := multiplier; scale := scale; colour := colour |}.

End MultiplierDisplay.

(** * Properties *)

(** ** The point buffer of [RocketCurve] *)

Section PointBuffer.

Import RocketCurve.

Context {A : Type}.

Lemma lastn_length (n : nat) (l : list A) :
  length (lastn n l) = Nat.min (length l) n.
Proof. unfold lastn. rewrite length_skipn. lia. Qed.

Lemma lastn_short (n : nat) (l : list A) :
  (length l <= n)%nat -> lastn n l = l.
Proof.
  intros Hle. unfold lastn.
  replace (length l - n)%nat with 0%nat by lia. reflexivity.
Qed.

Lemma tl_skipn (k : nat) (l : list A) : tl (skipn k l) = skipn (S k) l.
Proof.
  revert l. induction k as [|k IH]; intros [|a l]; simpl; auto.
Qed.

(** Pushing onto the last [n] elements and dropping the head when the
    result is longer than [n] gives the last [n] elements again. *)
Lemma push_shift_lastn (n : nat) (l : list A) (a : A) :
  (0 < n)%nat ->
  (let pushed := JS.push (lastn n l) a in
   if (n <? length pushed)%nat then JS.shift pushed else pushed)
  = lastn n (l ++ [a]).
Proof.
  intros Hn. cbv zeta. unfold JS.push, JS.shift.
  destruct (Nat.ltb_spec n (length (lastn n l ++ [a]))) as [Hlong|Hfit];
    rewrite length_app, lastn_length in *; simpl in *.
  - assert (Hl : (n <= length l)%nat) by lia.
    unfold lastn. rewrite length_app. simpl.
    replace (length l + 1 - n)%nat with (S (length l - n)) by lia.
    rewrite skipn_app.
    replace (S (length l - n) - length l)%nat with 0%nat by lia.
    change (skipn 0 [a]) with [a].
    rewrite <- (tl_skipn (length l - n) l).
    destruct (skipn (length l - n) l) eqn:E; [|reflexivity].
    apply (f_equal (@length A)) in E. rewrite length_skipn in E.
    simpl in E. lia.
  - assert (Hl : (length l < n)%nat) by lia.
    rewrite (lastn_short n l) by lia.
    symmetry. apply lastn_short. rewrite length_app. simpl. lia.
Qed.

End PointBuffer.

Lemma addPoint_lastn (l : list RocketCurve.Point) (c : RocketCurve.Call)
  (rc : RocketCurve.t) :
  RocketCurve.points rc = lastn 300 l ->
  RocketCurve.points (RocketCurve.addPointCall rc c)
  = lastn 300 (l ++ [RocketCurve.pointOf c]).
Proof.
  intros Hrc. destruct c as [[cm t] m].
  unfold RocketCurve.addPointCall, RocketCurve.addPoint, RocketCurve.pointOf.
  cbn [RocketCurve.points]. rewrite Hrc.
  apply (push_shift_lastn 300). lia.
Qed.

Lemma addPoints_lastn (calls : list RocketCurve.Call) :
  forall (l : list RocketCurve.Point) (rc : RocketCurve.t),
  RocketCurve.points rc = lastn 300 l ->
  RocketCurve.points (RocketCurve.addPoints calls rc)
  = lastn 300 (l ++ map RocketCurve.pointOf calls).
Proof.
  induction calls as [|c calls IH]; intros l rc Hrc; simpl.
  - rewrite app_nil_r. exact Hrc.
  - unfold RocketCurve.addPoints in *. simpl.
    rewrite (IH (l ++ [RocketCurve.pointOf c])).
    + rewrite <- app_assoc. reflexivity.
    + apply addPoint_lastn. exact Hrc.
Qed.

(** C1. Starting from a new curve, or from one that was just reset, after
    any sequence of [addPoint] calls the buffer holds the last [min n 300]
    points that were inserted, in insertion order; in particular it never
    holds more than 300 points, and the points dropped are the oldest
    ones. *)
Theorem addPoint_keeps_last_300 (calls : list RocketCurve.Call)
  (rc0 : RocketCurve.t) :
  let inserted := map RocketCurve.pointOf calls in
  let bounded (start : RocketCurve.t) :=
    let buffer := RocketCurve.points (RocketCurve.addPoints calls start) in
    (length buffer <= 300)%nat
    /\ length buffer = Nat.min (length calls) 300
    /\ buffer = lastn (Nat.min (length calls) 300) inserted
    /\ buffer = skipn (length calls - 300) inserted in
  bounded RocketCurve.new /\ bounded (RocketCurve.reset rc0).
Proof.
  cbv zeta.
  assert (H : forall start, RocketCurve.points start = [] ->
            RocketCurve.points (RocketCurve.addPoints calls start)
            = lastn 300 (map RocketCurve.pointOf calls)).
  { intros start Hs. apply (addPoints_lastn calls []). exact Hs. }
  split; rewrite H by reflexivity;
    rewrite lastn_length, length_map;
    (split; [lia|]); (split; [reflexivity|]);
    unfold lastn; rewrite length_map;
    (split; [f_equal; lia | reflexivity]).
Qed.

(** ** The coordinate mapping of [addPoint] *)

Section Mapping.

Import RocketCurve.

(** The point stored by a call is the newest element of the buffer. *)
Lemma addPoint_stores (cm : CanvasManager.t) (t m : Q) (rc : RocketCurve.t)
  (d : Point) :
  last (points (addPoint cm t m rc)) d = curvePoint cm t m.
Proof.
  unfold addPoint, JS.push, JS.shift. cbn [points].
  destruct (300 <? length (points rc ++ [curvePoint cm t m]))%nat eqn:E.
  - apply Nat.ltb_lt in E. rewrite length_app in E. simpl in E.
    destruct (points rc) as [|p ps]; simpl in *; [lia|].
    apply last_last.
  - apply last_last.
Qed.

Lemma min_cases (a b : Q) :
  (a <= b /\ JS.min a b == a) \/ (b <= a /\ JS.min a b == b).
Proof.
  unfold JS.min. destruct (Q.min_spec a b) as [[H E]|[H E]].
  - left. split; [apply Qlt_le_weak; exact H | exact E].
  - right. split; assumption.
Qed.

Variable cm : CanvasManager.t.
Local Abbreviation w := (CanvasManager.width cm).
Local Abbreviation h := (CanvasManager.height cm).

Ltac by_min_cases a b :=
  let H := fresh "H" in
  let E := fresh "E" in
  destruct (min_cases a b) as [[H E]|[H E]]; qdiv; first [qlra | qnra].



Lemma x_unclamped (t m : Q) :
  0 <= w -> t <= 30 -> x (curvePoint cm t m) == t / 30 * w.
Proof.
  unfold curvePoint. cbn [x]. generalize w. intros w0 Hw Ht.
  by_min_cases (t / 30 * w0) w0.
Qed.

Lemma x_clamped (t m : Q) :
  0 <= w -> 30 <= t -> x (curvePoint cm t m) == w.
Proof.
  unfold curvePoint. cbn [x]. generalize w. intros w0 Hw Ht.
  by_min_cases (t / 30 * w0) w0.
Qed.

Lemma y_unclamped (t m : Q) :
  0 <= h -> m <= 11 -> y (curvePoint cm t m) == h - (m - 1) / 10 * h.
Proof.
  unfold curvePoint. cbn [y]. generalize h. intros h0 Hh Hm.
  by_min_cases ((m - 1) / 10 * h0) h0.
Qed.

Lemma y_clamped (t m : Q) :
  0 <= h -> 11 <= m -> y (curvePoint cm t m) == 0.
Proof.
  unfold curvePoint. cbn [y]. generalize h. intros h0 Hh Hm.
  by_min_cases ((m - 1) / 10 * h0) h0.
Qed.





End Mapping.

(** C2. On a surface of width [w >= 0] and height [h >= 0], the point stored
    by [addPoint(0, 1)] is [(0, h)], the point stored by [addPoint(30, 11)]
    is [(w, 0)], and every call with [time > 30] and [multiplier > 11] stores
    a point with [x = w] and [y = 0], as [addPoint(30, 11)] does. *)
Theorem addPoint_mapping_clamped (cm : CanvasManager.t) (rc : RocketCurve.t)
  (d : RocketCurve.Point) :
  0 <= CanvasManager.width cm ->
  0 <= CanvasManager.height cm ->
  let stored t m :=
    last (RocketCurve.points (RocketCurve.addPoint cm t m rc)) d in
  (RocketCurve.x (stored 0 1) == 0
   /\ RocketCurve.y (stored 0 1) == CanvasManager.height cm)
  /\ (RocketCurve.x (stored 30 11) == CanvasManager.width cm
      /\ RocketCurve.y (stored 30 11) == 0)
  /\ (forall t m : Q, 30 < t -> 11 < m ->
      RocketCurve.x (stored t m) == RocketCurve.x (stored 30 11)
      /\ RocketCurve.y (stored t m) == RocketCurve.y (stored 30 11)
      /\ RocketCurve.x (stored t m) == CanvasManager.width cm
      /\ RocketCurve.y (stored t m) == 0).
Proof.
  intros Hw Hh stored. unfold stored.
  repeat split; rewrite ?addPoint_stores.
  - rewrite x_unclamped by qlra. qdiv. qlra.
  - rewrite y_unclamped by qlra. qdiv. qlra.
  - apply x_clamped; qlra.
  - apply y_clamped; qlra.
  - rewrite !x_clamped by qlra. reflexivity.
  - rewrite !y_clamped by qlra. reflexivity.
  - apply x_clamped; qlra.
  - apply y_clamped; qlra.
Qed.

Lemma addPoint_mapping_clamped_witness :
  let stored t m :=
    last (RocketCurve.points
            (RocketCurve.addPoint wideSurface t m RocketCurve.new))
         originPoint in
  RocketCurve.x (stored 45 12) == 800 /\ RocketCurve.y (stored 45 12) == 0.
Proof.
  assert (Hw : 0 <= CanvasManager.width wideSurface) by (vm_compute; discriminate).
  assert (Hh : 0 <= CanvasManager.height wideSurface) by (vm_compute; discriminate).
  destruct (addPoint_mapping_clamped wideSurface RocketCurve.new originPoint
              Hw Hh) as (_ & _ & Hfar).
  destruct (Hfar 45 12) as (_ & _ & Hx & Hy).
  - vm_compute; reflexivity.
  - vm_compute; reflexivity.
  - split; [exact Hx | exact Hy].
Defined.




(** ** [detectPerformance] *)

Section Detection.

Import CanvasManager.

Lemma lt_spec (a b : Q) : JS.lt a b = true <-> a < b.
Proof.
  unfold JS.lt. rewrite Qlt_alt.
  destruct (a ?= b); split; intros H; congruence.
Qed.

Lemma lt_undef_spec (v : option Q) (k : Q) :
  JS.lt_undef v k = true <-> below v k.
Proof.
  destruct v as [a|]; simpl.
  - apply lt_spec.
  - split; [discriminate | contradiction].
Qed.

Lemma lt_compat (a a' b : Q) : a == a' -> JS.lt a b = JS.lt a' b.
Proof. intros E. unfold JS.lt. rewrite E. reflexivity. Qed.

Lemma lt_undef_compat (u v : option Q) (k : Q) :
  sameSignal u v -> JS.lt_undef u k = JS.lt_undef v k.
Proof.
  destruct u as [a|], v as [b|]; simpl; try contradiction; auto.
  apply lt_compat.
Qed.

(** The flag [isLowEnd] computed by the method decides [belowThresholds]. *)
Lemma isLowEnd_spec (dev : Device) :
  JS.lt_undef (hardwareConcurrency dev) 4
  || JS.lt_undef (deviceMemory dev) 2
  || JS.lt (innerWidth dev) 768 = true
  <-> belowThresholds dev.
Proof.
  unfold belowThresholds.
  rewrite !orb_true_iff, !lt_undef_spec, lt_spec. tauto.
Qed.

Lemma detect_low (dev : Device) :
  belowThresholds dev -> detectPerformance dev = lowEnd.
Proof.
  intros H. apply isLowEnd_spec in H.
  unfold detectPerformance. rewrite H. reflexivity.
Qed.

Lemma detect_high (dev : Device) :
  ~ belowThresholds dev -> detectPerformance dev = highEnd.
Proof.
  intros H. rewrite <- isLowEnd_spec in H. apply not_true_is_false in H.
  unfold detectPerformance. rewrite H. reflexivity.
Qed.

Lemma detect_compat (d1 d2 : Device) :
  sameDevice d1 d2 -> detectPerformance d1 = detectPerformance d2.
Proof.
  intros (Hc & Hm & Hw). unfold detectPerformance.
  rewrite (lt_undef_compat _ _ 4 Hc), (lt_undef_compat _ _ 2 Hm),
    (lt_compat _ _ 768 Hw).
  reflexivity.
Qed.

End Detection.

(** C3. [detectPerformance] is a function of the three device signals:
    devices with the same signals get the same profile.  If the core count is
    below 4, or the device memory below 2, or the viewport width below 768,
    the profile is [{particleCount: 10, frameRate: 30, enableShadows: false,
    enableBlur: false}]; otherwise it is [{particleCount: 20, frameRate: 60,
    enableShadows: true, enableBlur: true}]. *)
Theorem detectPerformance_thresholds (dev : CanvasManager.Device) :
  (forall dev', sameDevice dev dev' ->
     CanvasManager.detectPerformance dev = CanvasManager.detectPerformance dev')
  /\ (belowThresholds dev ->
      CanvasManager.detectPerformance dev
      = CanvasManager.mkSettings 10 30 false false)
  /\ (~ belowThresholds dev ->
      CanvasManager.detectPerformance dev
      = CanvasManager.mkSettings 20 60 true true).
Proof.
  split; [intros dev'; apply detect_compat|].
  split; [apply detect_low | apply detect_high].
Qed.

Lemma detectPerformance_thresholds_witness :
  CanvasManager.detectPerformance smallPhone
  = CanvasManager.mkSettings 10 30 false false.
Proof.
  destruct (detectPerformance_thresholds smallPhone) as (_ & Hlow & _).
  apply Hlow. left. vm_compute. reflexivity.
Defined.

(** C7 as stated fails: with both navigator signals missing and a viewport
    1024 pixels wide the result is the high-end profile, not the low-end
    one. *)
Lemma missing_signals_give_high_end :
  CanvasManager.hardwareConcurrency silentDesktop = None
  /\ CanvasManager.deviceMemory silentDesktop = None
  /\ CanvasManager.detectPerformance silentDesktop
     = CanvasManager.mkSettings 20 60 true true
  /\ CanvasManager.detectPerformance silentDesktop
     <> CanvasManager.mkSettings 10 30 false false.
Proof. vm_compute. repeat split; discriminate. Qed.

(** C7, amended. [detectPerformance] never fails, and a missing signal never
    selects the low-end profile: it compares false against its threshold, so
    the result is the one the device would get with that signal at (or
    above) its threshold.  With both navigator signals missing the profile is
    decided by the viewport width alone: low-end below 768, high-end from
    768 on. *)
Theorem missing_signal_is_not_below (dev : CanvasManager.Device) (c m : Q) :
  4 <= c -> 2 <= m ->
  CanvasManager.detectPerformance dev
  = CanvasManager.detectPerformance
      {| CanvasManager.hardwareConcurrency :=
           orElse (CanvasManager.hardwareConcurrency dev) c;
         CanvasManager.deviceMemory :=
           orElse (CanvasManager.deviceMemory dev) m;
         CanvasManager.innerWidth := CanvasManager.innerWidth dev |}
  /\ (CanvasManager.hardwareConcurrency dev = None ->
      CanvasManager.deviceMemory dev = None ->
      (CanvasManager.innerWidth dev < 768 ->
       CanvasManager.detectPerformance dev = CanvasManager.lowEnd)
      /\ (768 <= CanvasManager.innerWidth dev ->
          CanvasManager.detectPerformance dev = CanvasManager.highEnd)).
Proof.
  intros Hc Hm. split.
  - unfold CanvasManager.detectPerformance.
    cbn [CanvasManager.hardwareConcurrency CanvasManager.deviceMemory
         CanvasManager.innerWidth].
    assert (E1 : JS.lt_undef (orElse (CanvasManager.hardwareConcurrency dev) c) 4
                 = JS.lt_undef (CanvasManager.hardwareConcurrency dev) 4).
    { destruct (CanvasManager.hardwareConcurrency dev); simpl; [reflexivity|].
      apply not_true_is_false. rewrite lt_spec. qlra. }
    assert (E2 : JS.lt_undef (orElse (CanvasManager.deviceMemory dev) m) 2
                 = JS.lt_undef (CanvasManager.deviceMemory dev) 2).
    { destruct (CanvasManager.deviceMemory dev); simpl; [reflexivity|].
      apply not_true_is_false. rewrite lt_spec. qlra. }
    rewrite E1, E2. reflexivity.
  - intros Ec Em. split; intros Hw.
    + apply detect_low. right. right. exact Hw.
    + apply detect_high. unfold belowThresholds. rewrite Ec, Em. simpl.
      intros [[]|[[]|H]]. qlra.
Qed.

Lemma missing_signal_is_not_below_witness :
  CanvasManager.detectPerformance silentDesktop
  = CanvasManager.detectPerformance
      {| CanvasManager.hardwareConcurrency := Some 8;
         CanvasManager.deviceMemory := Some 4;
         CanvasManager.innerWidth := 1024 |}.
Proof.
  assert (Hc : 4 <= 8) by (vm_compute; discriminate).
  assert (Hm : 2 <= 4) by (vm_compute; discriminate).
  exact (proj1 (missing_signal_is_not_below silentDesktop 8 4 Hc Hm)).
Defined.

(** ** [resize] *)

(** A non-negative number converts to its floor. *)
Lemma toUnsignedLong_storable (q : Q) :
  storable q ->
  JS.toUnsignedLong q = Qfloor q /\ (0 <= Qfloor q <= 2147483647)%Z.
Proof.
  intros [H0 Hmax].
  assert (Hf : (0 <= Qfloor q < 2147483648)%Z).
  { split.
    - change 0%Z with (Qfloor 0). apply Qfloor_resp_le. exact H0.
    - apply Z.lt_nge. intros Hge.
      assert (Hq : inject_Z 2147483648 <= q).
      { apply Qle_trans with (inject_Z (Qfloor q)); [|apply Qfloor_le].
        rewrite <- Zle_Qle. exact Hge. }
      change (inject_Z 2147483648) with 2147483648 in Hq. qlra. }
  assert (Hquot : Z.quot (Qnum q) (Zpos (Qden q)) = Qfloor q).
  { destruct q as [n d]. unfold Qfloor. cbn [Qnum Qden].
    apply Z.quot_div_nonneg; [|reflexivity].
    unfold Qle in H0. cbn in H0. lia. }
  unfold JS.toUnsignedLong. rewrite Hquot.
  rewrite Z.mod_small by lia. split; [reflexivity | lia].
Qed.

Lemma reflected_storable (default : Z) (q : Q) :
  storable q ->
  CanvasManager.reflected default q = Qfloor q.
Proof.
  intros H. destruct (toUnsignedLong_storable q H) as [Hu Hr].
  unfold CanvasManager.reflected. rewrite Hu.
  destruct (Z.leb_spec (Qfloor q) 2147483647); [reflexivity | lia].
Qed.

Lemma wholePart_floor (q : Q) : wholePart q (Qfloor q).
Proof.
  split; [apply Qfloor_le|].
  generalize (Qlt_floor q). rewrite inject_Z_plus. intros H. exact H.
Qed.

Lemma wholePart_exact (q : Q) (z : Z) :
  wholePart q z -> (inject_Z z == q <-> exists k : Z, q == inject_Z k).
Proof.
  intros [Hle Hlt]. split.
  - intros H. exists z. symmetry. exact H.
  - intros [k Hk]. rewrite Hk in *.
    rewrite <- Zle_Qle in Hle.
    change (inject_Z z + 1) with (inject_Z z + inject_Z 1) in Hlt.
    rewrite <- inject_Z_plus, <- Zlt_Qlt in Hlt.
    assert (z = k) by lia. subst. reflexivity.
Qed.

(** C9, as stated, fails: a layout box of 333.3 by 100.25 on a device of
    pixel ratio 1.5 makes [resize()] assign 499.95 and 150.375, and the
    backing store is then 499 by 150 device pixels, not the logical size
    times the ratio. *)
Lemma resize_backing_store_truncates :
  let once := CanvasManager.resize fractionalBox fractionalSurface in
  CanvasManager.width once * CanvasManager.dpr once == 499.95
  /\ CanvasManager.backingWidth (CanvasManager.canvas once) = 499%Z
  /\ CanvasManager.height once * CanvasManager.dpr once == 150.375
  /\ CanvasManager.backingHeight (CanvasManager.canvas once) = 150%Z
  /\ ~ (inject_Z (CanvasManager.backingWidth (CanvasManager.canvas once))
        == CanvasManager.width once * CanvasManager.dpr once)
  /\ ~ (inject_Z (CanvasManager.backingHeight (CanvasManager.canvas once))
        == CanvasManager.height once * CanvasManager.dpr once).
Proof.
  cbv zeta. repeat split; try reflexivity; vm_compute; discriminate.
Qed.

(** C9. Two successive [resize()] calls that see the same bounding rectangle
    leave the same logical width and height (those of the rectangle) and the
    same backing store.  After each of them a dimension of the backing store
    is the logical dimension times the device pixel ratio with its fraction
    dropped, when that product is storable: never above the product, less
    than one device pixel below it, and equal to it exactly when the
    product is a whole number. *)
Theorem resize_idempotent_dimensions (rect : CanvasManager.DOMRect)
  (cm : CanvasManager.t) :
  let once := CanvasManager.resize rect cm in
  let twice := CanvasManager.resize rect once in
  let truncated (s : CanvasManager.t) :=
    (storable (CanvasManager.width s * CanvasManager.dpr s) ->
     wholePart (CanvasManager.width s * CanvasManager.dpr s)
       (CanvasManager.backingWidth (CanvasManager.canvas s))
     /\ (inject_Z (CanvasManager.backingWidth (CanvasManager.canvas s))
         == CanvasManager.width s * CanvasManager.dpr s
         <-> exists k : Z,
               CanvasManager.width s * CanvasManager.dpr s == inject_Z k))
    /\ (storable (CanvasManager.height s * CanvasManager.dpr s) ->
        wholePart (CanvasManager.height s * CanvasManager.dpr s)
          (CanvasManager.backingHeight (CanvasManager.canvas s))
        /\ (inject_Z (CanvasManager.backingHeight (CanvasManager.canvas s))
            == CanvasManager.height s * CanvasManager.dpr s
            <-> exists k : Z,
                  CanvasManager.height s * CanvasManager.dpr s
                  == inject_Z k)) in
  (CanvasManager.width twice = CanvasManager.width once
   /\ CanvasManager.height twice = CanvasManager.height once)
  /\ (CanvasManager.width once = CanvasManager.rect_width rect
      /\ CanvasManager.height once = CanvasManager.rect_height rect)
  /\ CanvasManager.dpr twice = CanvasManager.dpr cm
  /\ (CanvasManager.backingWidth (CanvasManager.canvas twice)
      = CanvasManager.backingWidth (CanvasManager.canvas once)
      /\ CanvasManager.backingHeight (CanvasManager.canvas twice)
         = CanvasManager.backingHeight (CanvasManager.canvas once))
  /\ truncated once
  /\ truncated twice.
Proof.
  assert (Hcut : forall default q,
            storable q ->
            wholePart q (CanvasManager.reflected default q)
            /\ (inject_Z (CanvasManager.reflected default q) == q
                <-> exists k : Z, q == inject_Z k)).
  { intros default q Hq. rewrite (reflected_storable default q Hq).
    split; [apply wholePart_floor|].
    apply wholePart_exact, wholePart_floor. }
  destruct cm as [c w h r ps]. destruct rect as [rw rh].
  cbv zeta. unfold CanvasManager.resize.
  unfold CanvasManager.backingWidth, CanvasManager.backingHeight.
  cbn [CanvasManager.width CanvasManager.height CanvasManager.dpr
       CanvasManager.canvas CanvasManager.canvas_width
       CanvasManager.canvas_height CanvasManager.rect_width
       CanvasManager.rect_height].
  repeat match goal with |- _ /\ _ => split end;
    try reflexivity; apply Hcut.
Qed.

Lemma resize_idempotent_dimensions_witness :
  storable (800 * 2)
  /\ wholePart (800 * 2)
       (CanvasManager.backingWidth
          (CanvasManager.canvas
             (CanvasManager.resize (CanvasManager.mkRect 800 400)
                wideSurface))).
Proof.
  assert (Hs : storable (800 * 2)) by (split; vm_compute; congruence).
  split; [exact Hs|].
  exact (proj1
           (proj1 (proj1 (proj2 (proj2 (proj2 (proj2
              (resize_idempotent_dimensions (CanvasManager.mkRect 800 400)
                 wideSurface))))))
              Hs)).
Defined.

(** ** Construction of [ExplosionParticles] *)

Section Creation.

Import ExplosionParticles.

Variable rnd : Random.
Hypothesis rnd_range : unitInterval rnd.

Lemma floor_range (r : Q) (k : Z) :
  0 <= r -> r < 1 -> (0 < k)%Z ->
  (0 <= JS.floor (r * inject_Z k) < k)%Z.
Proof.
  intros H0 H1 Hk. unfold JS.floor.
  assert (Hk' : inject_Z 0 < inject_Z k) by (rewrite <- Zlt_Qlt; exact Hk).
  change (inject_Z 0) with 0 in Hk'.
  split.
  - change 0%Z with (Qfloor 0). apply Qfloor_resp_le. qnra.
  - rewrite Zlt_Qlt.
    apply Qle_lt_trans with (r * inject_Z k); [apply Qfloor_le | qnra].
Qed.

Lemma getRandomColor_palette (n : nat) :
  (exists c : string,
     fst (getRandomColor rnd n) = Some c /\ In c colors)
  /\ snd (getRandomColor rnd n) = S n.
Proof.
  split; [|reflexivity].
  unfold getRandomColor. cbn [fst].
  destruct (rnd_range n) as [H0 H1].
  pose proof (floor_range (rnd n) (Z.of_nat (length colors)) H0 H1) as Hf.
  set (i := JS.floor (rnd n * inject_Z (Z.of_nat (length colors)))) in *.
  change (Z.of_nat (length colors)) with 5%Z in Hf.
  specialize (Hf eq_refl).
  assert (Hi : i = 0%Z \/ i = 1%Z \/ i = 2%Z \/ i = 3%Z \/ i = 4%Z) by lia.
  destruct Hi as [E|[E|[E|[E|E]]]]; rewrite E; cbn;
    eexists; (split; [reflexivity|]); simpl; tauto.
Qed.

Lemma newParticle_spawned (x0 y0 : Q) (n : nat) :
  spawnedAt x0 y0 (fst (newParticle x0 y0 rnd n))
  /\ snd (newParticle x0 y0 rnd n) = (n + 5)%nat.
Proof.
  unfold newParticle.
  destruct (getRandomColor_palette (S (S (S (S n))))) as [Hc Hn].
  destruct (getRandomColor rnd (S (S (S (S n))))) as [c n'].
  cbn [fst snd] in *. subst n'.
  split; [|lia].
  destruct (rnd_range n) as [? ?].
  destruct (rnd_range (S n)) as [? ?].
  destruct (rnd_range (S (S n))) as [? ?].
  destruct (rnd_range (S (S (S n)))) as [? ?].
  unfold spawnedAt.
  cbn [x y vx vy life decay size color].
  repeat split; try qlra.
  exact Hc.
Qed.

Lemma createLoop_spawned (x0 y0 : Q) (k : nat) :
  forall (ps : list Particle) (n : nat),
  Forall (spawnedAt x0 y0) ps ->
  Forall (spawnedAt x0 y0) (fst (createLoop k x0 y0 rnd ps n))
  /\ length (fst (createLoop k x0 y0 rnd ps n)) = (length ps + k)%nat
  /\ snd (createLoop k x0 y0 rnd ps n) = (n + 5 * k)%nat.
Proof.
  induction k as [|k IH]; intros ps n Hps; cbn [createLoop].
  - cbn [fst snd]. repeat split; [exact Hps | lia | lia].
  - destruct (newParticle_spawned x0 y0 n) as [Hp Hn].
    destruct (newParticle x0 y0 rnd n) as [p n']. cbn [fst snd] in *.
    subst n'.
    destruct (IH (JS.push ps p) (n + 5)%nat) as (HF & HL & HN).
    { unfold JS.push. apply Forall_app. split; [exact Hps|].
      constructor; [exact Hp | constructor]. }
    split; [exact HF|]. split.
    + rewrite HL. unfold JS.push. rewrite length_app. simpl. lia.
    + rewrite HN. lia.
Qed.

End Creation.

(** C4. Whatever the origin and the performance settings, a new
    [ExplosionParticles] holds exactly [particleCount] particles and is
    active.  Each particle sits at the origin, has life exactly 1, velocity
    components in [-7.5, 7.5), a decay rate in [0.015, 0.025), a radius in
    [2, 6) and a colour of the five-colour palette; the construction draws
    five random numbers per particle. *)
Theorem createParticles_spawns_budget (cm : CanvasManager.t) (x0 y0 : Q)
  (rnd : ExplosionParticles.Random) (n : nat) :
  unitInterval rnd ->
  let e := fst (ExplosionParticles.new cm x0 y0 rnd n) in
  let budget :=
    CanvasManager.particleCount (CanvasManager.performanceSettings cm) in
  length (ExplosionParticles.particles e) = budget
  /\ Forall (spawnedAt x0 y0) (ExplosionParticles.particles e)
  /\ ExplosionParticles.isActive e = true
  /\ snd (ExplosionParticles.new cm x0 y0 rnd n) = (n + 5 * budget)%nat.
Proof.
  intros Hrnd. cbv zeta.
  unfold ExplosionParticles.new, ExplosionParticles.createParticles.
  cbn [ExplosionParticles.particles].
  destruct (createLoop_spawned rnd Hrnd x0 y0
              (CanvasManager.particleCount
                 (CanvasManager.performanceSettings cm))
              [] n (Forall_nil _)) as (HF & HL & HN).
  destruct (ExplosionParticles.createLoop _ x0 y0 rnd [] n) as [ps n'].
  cbn [fst snd ExplosionParticles.particles ExplosionParticles.isActive] in *.
  auto.
Qed.

Lemma createParticles_spawns_budget_witness :
  length (ExplosionParticles.particles
            (fst (ExplosionParticles.new wideSurface 120 80 alwaysHalf 0)))
  = 20%nat.
Proof.
  assert (H : unitInterval alwaysHalf).
  { intros i. split; vm_compute; [discriminate | reflexivity]. }
  exact (proj1 (createParticles_spawns_budget wideSurface 120 80 alwaysHalf 0 H)).
Defined.

(** ** [update] *)

Section Update.

Import ExplosionParticles.

Lemma gt_zero_spec (a : Q) : JS.gt a 0 = true <-> 0 < a.
Proof. unfold JS.gt. apply lt_spec. Qed.

Lemma update_active (e : t) :
  isActive e = true ->
  particles (update e) = survivors (particles e)
  /\ isActive (update e)
     = if (length (survivors (particles e)) =? 0)%nat then false else true.
Proof.
  intros Ha. unfold update, survivors. rewrite Ha. simpl. auto.
Qed.

Lemma update_inactive (e : t) : isActive e = false -> update e = e.
Proof. intros Ha. unfold update. rewrite Ha. reflexivity. Qed.

Lemma survivors_alive (ps : list Particle) : Forall alive (survivors ps).
Proof.
  apply Forall_forall. intros p Hp.
  apply filter_In in Hp. destruct Hp as [_ Hp].
  apply gt_zero_spec. exact Hp.
Qed.

Lemma survivors_origin (ps : list Particle) (q : Particle) :
  In q (survivors ps) -> exists p, In p ps /\ q = advance p /\ alive q.
Proof.
  intros Hq. apply filter_In in Hq. destruct Hq as [Hq Hl].
  apply in_map_iff in Hq. destruct Hq as (p & E & Hp).
  exists p. repeat split; auto. apply gt_zero_spec. exact Hl.
Qed.

Lemma survivors_aged (k : nat) (ps : list Particle) :
  Forall (agedBy k) ps -> Forall (agedBy (S k)) (survivors ps).
Proof.
  rewrite !Forall_forall. intros H q Hq.
  destruct (survivors_origin ps q Hq) as (p & Hp & E & Hq0).
  destruct (H p Hp) as (H0 & H1 & H2).
  unfold agedBy, alive in *. subst q. cbn [life decay advance] in *.
  rewrite Nat2Z.inj_succ, <- Z.add_1_r, inject_Z_plus.
  change (inject_Z 1) with 1.
  repeat split; qlra.
Qed.

Lemma fresh_aged (p : Particle) : fresh p <-> agedBy 0 p.
Proof.
  unfold fresh, agedBy. change (inject_Z (Z.of_nat 0)) with 0.
  split; intros (H0 & H1 & H2); repeat split; qlra.
Qed.

Lemma aged_fresh (k : nat) (p : Particle) : agedBy k p -> fresh p.
Proof.
  unfold fresh, agedBy. intros (H0 & H1 & H2).
  assert (Hk : inject_Z 0 <= inject_Z (Z.of_nat k))
    by (rewrite <- Zle_Qle; lia).
  change (inject_Z 0) with 0 in Hk.
  repeat split; qlra.
Qed.

Lemma survivors_cons (p : Particle) (ps : list Particle) :
  survivors (p :: ps)
  = if JS.gt (life p - decay p) 0 then advance p :: survivors ps
    else survivors ps.
Proof. reflexivity. Qed.

Lemma totalLife_cons (p : Particle) (ps : list Particle) :
  totalLife (p :: ps) = life p + totalLife ps.
Proof. reflexivity. Qed.

(** Total life does not grow, and shrinks when there is a particle. *)
Lemma survivors_total (ps : list Particle) :
  Forall fresh ps ->
  totalLife (survivors ps) <= totalLife ps
  /\ (ps <> [] -> totalLife (survivors ps) < totalLife ps).
Proof.
  induction 1 as [|p ps Hp Hps [IHle _]].
  - split; [simpl; qlra | congruence].
  - destruct Hp as (H0 & H1 & H2).
    assert (Hstep : totalLife (survivors (p :: ps)) < totalLife (p :: ps)).
    { rewrite survivors_cons, totalLife_cons.
      destruct (JS.gt (life p - decay p) 0).
      - rewrite totalLife_cons. cbn [advance life]. qlra.
      - qlra. }
    split; [apply Qlt_le_weak; exact Hstep | intros _; exact Hstep].
Qed.

Lemma update_flag_active (e : t) :
  isActive e = true -> flagMatches (update e).
Proof.
  intros Ha. destruct (update_active e Ha) as [Ep Ei].
  unfold flagMatches. rewrite Ep, Ei.
  destruct (survivors (particles e)) as [|q qs]; simpl.
  - tauto.
  - split; discriminate.
Qed.

Lemma update_flag (e : t) : flagMatches e -> flagMatches (update e).
Proof.
  intros H. destruct (isActive e) eqn:Ha.
  - apply update_flag_active. exact Ha.
  - rewrite update_inactive by exact Ha. exact H.
Qed.

Lemma updates_succ (k : nat) (e : t) :
  updates (S k) e = update (updates k e).
Proof. reflexivity. Qed.

Lemma updates_flag (k : nat) (e : t) :
  isActive e = true -> flagMatches (updates (S k) e).
Proof.
  intros Ha. induction k as [|k IH].
  - apply update_flag_active. exact Ha.
  - rewrite updates_succ. apply update_flag. exact IH.
Qed.

Lemma update_aged (k : nat) (e : t) :
  flagMatches e -> Forall (agedBy k) (particles e) ->
  Forall (agedBy (S k)) (particles (update e)).
Proof.
  intros Hf Hk. destruct (isActive e) eqn:Ha.
  - destruct (update_active e Ha) as [Ep _]. rewrite Ep.
    apply survivors_aged. exact Hk.
  - rewrite update_inactive by exact Ha.
    destruct Hf as [Hf _]. rewrite (Hf Ha). constructor.
Qed.

Lemma updates_aged (k : nat) (e : t) :
  flagMatches e -> Forall fresh (particles e) ->
  flagMatches (updates k e) /\ Forall (agedBy k) (particles (updates k e)).
Proof.
  intros Hf Hfresh. induction k as [|k [IHf IHa]].
  - split; [exact Hf|]. simpl.
    eapply Forall_impl; [|exact Hfresh]. intros p. apply fresh_aged.
  - rewrite updates_succ. split.
    + apply update_flag. exact IHf.
    + apply update_aged; assumption.
Qed.

(** No particle outlives 67 updates. *)
Lemma aged_out (ps : list Particle) : Forall (agedBy 67) ps -> ps = [].
Proof.
  destruct ps as [|p ps]; [reflexivity|].
  intros H. inversion H as [|? ? (H0 & H1 & _) _]. subst.
  exfalso.
  assert (E : 1 - 0.015 * inject_Z (Z.of_nat 67) < 0) by reflexivity.
  qlra.
Qed.

Lemma update_alive (e : t) :
  Forall alive (particles e) -> Forall alive (particles (update e)).
Proof.
  intros H. destruct (isActive e) eqn:Ha.
  - destruct (update_active e Ha) as [Ep _]. rewrite Ep.
    apply survivors_alive.
  - rewrite update_inactive by exact Ha. exact H.
Qed.

Lemma createLoop_alive (k : nat) (x0 y0 : Q) (rnd : Random) :
  forall (ps : list Particle) (n : nat),
  Forall alive ps -> Forall alive (fst (createLoop k x0 y0 rnd ps n)).
Proof.
  induction k as [|k IH]; intros ps n Hps; cbn [createLoop].
  - exact Hps.
  - unfold newParticle.
    destruct (getRandomColor rnd (S (S (S (S n))))) as [c n'].
    apply IH. unfold JS.push. apply Forall_app. split; [exact Hps|].
    constructor; [|constructor]. unfold alive. cbn [life]. reflexivity.
Qed.

Lemma spawned_fresh (x0 y0 : Q) (p : Particle) :
  spawnedAt x0 y0 p -> fresh p.
Proof.
  intros (_ & Hl & _ & _ & (Hd & _) & _). unfold fresh. rewrite Hl.
  repeat split; first [exact Hd | qlra].
Qed.

(** A new simulator is active and all its particles are fresh; [update]
    keeps them so. *)
Lemma new_fresh (cm : CanvasManager.t) (x0 y0 : Q) (rnd : Random) (n : nat) :
  unitInterval rnd ->
  isActive (fst (new cm x0 y0 rnd n)) = true
  /\ Forall fresh (particles (fst (new cm x0 y0 rnd n))).
Proof.
  intros Hrnd. unfold new, createParticles. cbn [particles].
  destruct (createLoop_spawned rnd Hrnd x0 y0
              (CanvasManager.particleCount
                 (CanvasManager.performanceSettings cm))
              [] n (Forall_nil _)) as (HF & _ & _).
  destruct (createLoop _ x0 y0 rnd [] n) as [ps n'].
  cbn [fst particles isActive] in *.
  split; [reflexivity|].
  eapply Forall_impl; [apply spawned_fresh | exact HF].
Qed.

Lemma update_fresh (e : t) :
  Forall fresh (particles e) -> Forall fresh (particles (update e)).
Proof.
  intros H. destruct (isActive e) eqn:Ha.
  - destruct (update_active e Ha) as [Ep _]. rewrite Ep.
    eapply Forall_impl; [apply (aged_fresh 1)|].
    apply survivors_aged.
    eapply Forall_impl; [|exact H]. intros p. apply fresh_aged.
  - rewrite update_inactive by exact Ha. exact H.
Qed.

End Update.

(** C5. On an active, non-empty batch whose particles have a life in (0, 1]
    and a decay rate of at least 0.015 — which is how [createParticles] makes
    them and how [update] leaves them — every call of [update()] made while
    particles are left makes the sum of the remaining lives strictly
    smaller.  After at most 67 calls no particle is left and the batch is
    inactive; after every call the batch is inactive exactly when it is
    empty. *)
Theorem update_drains_batch (e : ExplosionParticles.t) :
  ExplosionParticles.isActive e = true ->
  ExplosionParticles.particles e <> [] ->
  Forall ExplosionParticles.fresh (ExplosionParticles.particles e) ->
  (forall k : nat,
     let batch := ExplosionParticles.updates k e in
     ExplosionParticles.particles batch <> [] ->
     ExplosionParticles.totalLife
       (ExplosionParticles.particles (ExplosionParticles.update batch))
     < ExplosionParticles.totalLife (ExplosionParticles.particles batch))
  /\ (forall k : nat,
      Forall ExplosionParticles.fresh
        (ExplosionParticles.particles (ExplosionParticles.updates k e)))
  /\ (forall k : nat, flagMatches (ExplosionParticles.updates (S k) e))
  /\ (forall k : nat, (67 <= k)%nat ->
      ExplosionParticles.particles (ExplosionParticles.updates k e) = []
      /\ ExplosionParticles.isActive (ExplosionParticles.updates k e) = false).
Proof.
  intros Ha Hne Hfresh.
  assert (Hflag : flagMatches e).
  { unfold flagMatches. rewrite Ha. split; [discriminate | contradiction]. }
  assert (Hall : forall k : nat,
            Forall ExplosionParticles.fresh
              (ExplosionParticles.particles (ExplosionParticles.updates k e))).
  { intros k. eapply Forall_impl; [apply (aged_fresh k)|].
    apply updates_aged; assumption. }
  split.
  { intros k batch Hk.
    assert (Hon : ExplosionParticles.isActive batch = true).
    { destruct (ExplosionParticles.isActive batch) eqn:E; [reflexivity|].
      exfalso. apply Hk.
      apply (proj1 (updates_aged k e Hflag Hfresh)). exact E. }
    destruct (update_active batch Hon) as [Ep _]. rewrite Ep.
    apply survivors_total; [apply Hall | exact Hk]. }
  split; [exact Hall|].
  split; [intros k; apply updates_flag; exact Ha|].
  intros k Hk.
  assert (Hempty : ExplosionParticles.particles
                     (ExplosionParticles.updates 67 e) = []).
  { apply aged_out. apply updates_aged; assumption. }
  assert (Hoff : ExplosionParticles.isActive
                   (ExplosionParticles.updates 67 e) = false).
  { apply (updates_flag 66 e Ha). exact Hempty. }
  replace k with ((k - 67) + 67)%nat by lia.
  induction (k - 67)%nat as [|j IH]; [auto|].
  change (S j + 67)%nat with (S (j + 67)).
  rewrite updates_succ, update_inactive by apply IH.
  exact IH.
Qed.

Lemma update_drains_batch_witness :
  ExplosionParticles.totalLife
    (ExplosionParticles.particles (ExplosionParticles.update twoSparks))
  < ExplosionParticles.totalLife (ExplosionParticles.particles twoSparks)
  /\ ExplosionParticles.particles (ExplosionParticles.updates 67 twoSparks)
     = [].
Proof.
  assert (Ha : ExplosionParticles.isActive twoSparks = true) by reflexivity.
  assert (Hne : ExplosionParticles.particles twoSparks <> [])
    by (simpl; discriminate).
  assert (Hfresh : Forall ExplosionParticles.fresh
                     (ExplosionParticles.particles twoSparks)).
  { simpl. repeat constructor; vm_compute; discriminate. }
  destruct (update_drains_batch twoSparks Ha Hne Hfresh)
    as (Hlt & _ & _ & Hend).
  split; [exact (Hlt 0%nat Hne) | apply (Hend 67%nat); lia].
Defined.

(** C10. After a call of [update()] on an active batch every particle left
    has a life strictly above 0; a particle whose life reaches exactly 0 in
    the step is not among them.  Hence, in every state a simulator goes
    through from its construction on, all stored lives are positive — in
    particular whenever the active flag is set. *)
Theorem update_keeps_only_live_particles :
  (forall e : ExplosionParticles.t,
     ExplosionParticles.isActive e = true ->
     Forall alive (ExplosionParticles.particles (ExplosionParticles.update e))
     /\ (forall p : ExplosionParticles.Particle,
           In p (ExplosionParticles.particles e) ->
           ExplosionParticles.life p - ExplosionParticles.decay p == 0 ->
           ~ In (ExplosionParticles.advance p)
                (ExplosionParticles.particles (ExplosionParticles.update e))))
  /\ (forall (cm : CanvasManager.t) (x0 y0 : Q)
        (rnd : ExplosionParticles.Random) (n k : nat),
        let e :=
          ExplosionParticles.updates k
            (fst (ExplosionParticles.new cm x0 y0 rnd n)) in
        Forall alive (ExplosionParticles.particles e)
        /\ (ExplosionParticles.isActive e = true ->
            forall p, In p (ExplosionParticles.particles e) ->
                      0 < ExplosionParticles.life p)).
Proof.
  split.
  - intros e Ha. destruct (update_active e Ha) as [Ep _]. rewrite Ep.
    split; [apply survivors_alive|].
    intros p _ Hzero Hin.
    pose proof (survivors_alive (ExplosionParticles.particles e)) as Hall.
    rewrite Forall_forall in Hall. specialize (Hall _ Hin).
    unfold alive in Hall. cbn [ExplosionParticles.advance
                                 ExplosionParticles.life] in Hall.
    qlra.
  - intros cm x0 y0 rnd n k e.
    assert (Hall : Forall alive (ExplosionParticles.particles e)).
    { unfold e. induction k as [|k IH].
      - unfold ExplosionParticles.updates, ExplosionParticles.new,
          ExplosionParticles.createParticles.
        cbn [Nat.iter ExplosionParticles.particles].
        pose proof (createLoop_alive
                      (CanvasManager.particleCount
                         (CanvasManager.performanceSettings cm))
                      x0 y0 rnd [] n (Forall_nil _)) as H.
        destruct (ExplosionParticles.createLoop _ x0 y0 rnd [] n) as [ps n'].
        exact H.
      - rewrite updates_succ. apply update_alive. exact IH. }
    split; [exact Hall|].
    intros _ p Hp. rewrite Forall_forall in Hall. exact (Hall p Hp).
Qed.

Lemma update_keeps_only_live_particles_witness :
  Forall alive
    (ExplosionParticles.particles (ExplosionParticles.update twoSparks))
  /\ length
       (ExplosionParticles.particles (ExplosionParticles.update twoSparks))
     = 1%nat.
Proof.
  split; [|reflexivity].
  exact (proj1 (proj1 update_keeps_only_live_particles twoSparks eq_refl)).
Defined.

(** ** The pulsing head marker *)

Section Pulse.

Import RocketCurve.
Local Open Scope R_scope.

Lemma pulse_range (now : R) : 0.4 <= pulse now <= 1.
Proof.
  unfold pulse. destruct (SIN_bound (now / 500)) as [Hlo Hhi]. lra.
Qed.

Lemma pulse_period (now : R) : pulse (now + 1000 * PI) = pulse now.
Proof.
  unfold pulse.
  replace ((now + 1000 * PI) / 500) with (now / 500 + 2 * INR 1 * PI)
    by (simpl; field).
  rewrite sin_period. reflexivity.
Qed.

Lemma pulse_low : pulse (750 * PI) = 0.4.
Proof.
  unfold pulse.
  replace (750 * PI / 500) with (3 * (PI / 2)) by field.
  rewrite sin_3PI2. lra.
Qed.

Lemma pulse_high : pulse (250 * PI) = 1.
Proof.
  unfold pulse.
  replace (250 * PI / 500) with (PI / 2) by field.
  rewrite sin_PI2. lra.
Qed.

Lemma sin_5_negative : sin 5 < 0.
Proof.
  pose proof PI_4 as Hhi. pose proof PI2_3_2 as Hlo.
  apply sin_lt_0; lra.
Qed.

Lemma drawCurrentPoint_radii (now : R) (rc : RocketCurve.t) :
  map disc_radius (drawCurrentPoint now rc)
  = match points rc with
    | [] => []
    | _ :: _ => [6 * pulse now; 4 * pulse now]
    end.
Proof.
  unfold drawCurrentPoint. destruct (points rc); reflexivity.
Qed.

End Pulse.

(** C8 as stated fails: when [Date.now()] is 2500 the pulse factor is
    [0.7 + 0.3 * sin 5], which is below 0.7. *)
Lemma pulse_below_seventy_percent :
  (RocketCurve.pulse 2500 < 0.7)%R
  /\ ~ (0.7 <= RocketCurve.pulse 2500 <= 1)%R.
Proof.
  assert (H : (RocketCurve.pulse 2500 < 0.7)%R).
  { unfold RocketCurve.pulse.
    replace (2500 / 500)%R with 5%R by field.
    pose proof sin_5_negative. lra. }
  split; [exact H | lra].
Qed.

(** C8, amended. The head marker is drawn as two discs whose radii are 6 and
    4 times a pulse factor [0.7 + 0.3 * sin (now / 500)], [now] being the
    wall-clock time in milliseconds.  The factor has period [1000 * PI]
    milliseconds, that is 2π·0.5 seconds, and stays within [0.4, 1.0] for all
    times, reaching both ends: the radius varies between 40% and 100% of its
    base size. *)
Theorem pulse_between_40_and_100_percent (now : R) (rc : RocketCurve.t) :
  (0.4 <= RocketCurve.pulse now <= 1)%R
  /\ RocketCurve.pulse (now + 1000 * PI) = RocketCurve.pulse now
  /\ RocketCurve.pulse (750 * PI) = 0.4%R
  /\ RocketCurve.pulse (250 * PI) = 1%R
  /\ map RocketCurve.disc_radius (RocketCurve.drawCurrentPoint now rc)
     = match RocketCurve.points rc with
       | [] => []
       | _ :: _ =>
           [(6 * RocketCurve.pulse now)%R; (4 * RocketCurve.pulse now)%R]
       end.
Proof.
  split; [apply pulse_range|].
  split; [apply pulse_period|].
  split; [apply pulse_low|].
  split; [apply pulse_high | apply drawCurrentPoint_radii].
Qed.

(** * Properties of the rest of canvas.js *)

(** ** The drawing context *)

Section Context2d.

Import Ctx.

Context {N : Type}.

Lemma emitted_app (c c' : t N) (new : list (Call N)) :
  calls c' = calls c ++ new -> emitted c c' = new.
Proof.
  intros E. unfold emitted. rewrite E, skipn_app, skipn_all, Nat.sub_diag.
  reflexivity.
Qed.

End Context2d.

(** Unfolds the statements of a method body down to the record of the
    context they produce. *)
Ltac ctx_unfold :=
  cbv [Ctx.run Ctx.each fold_left seq
       Ctx.call Ctx.painting Ctx.withStyle Ctx.save Ctx.restore
       Ctx.setStrokeStyle Ctx.setFillStyle Ctx.setLineWidth Ctx.setLineCap
       Ctx.setLineJoin Ctx.setShadowColor Ctx.setShadowBlur
       Ctx.setShadowOffsetX Ctx.setShadowOffsetY Ctx.setGlobalAlpha
       Ctx.setLineDash Ctx.setFont
       Ctx.style Ctx.saved Ctx.calls
       Ctx.strokeStyle Ctx.fillStyle Ctx.lineWidth Ctx.lineCap Ctx.lineJoin
       Ctx.shadowColor Ctx.shadowBlur Ctx.shadowOffsetX Ctx.shadowOffsetY
       Ctx.globalAlpha Ctx.lineDash Ctx.font].

(** ** [drawGrid], [drawBackground], [clear] *)

Section Grid.

Import Ctx CanvasPainting.

Context {N : Type}.
Variable cm : CanvasManager.t.

Lemma num_succ (i : nat) : num (i + 1) - 1 == num i.
Proof.
  unfold num. rewrite Nat2Z.inj_add, inject_Z_plus.
  change (inject_Z (Z.of_nat 1)) with 1. qlra.
Qed.

Lemma num_times_5 (i : nat) : num (i * 5) == num i * 5.
Proof.
  unfold num. rewrite Nat2Z.inj_mul, inject_Z_mult. reflexivity.
Qed.

Lemma num_range (i lo hi : nat) :
  (lo <= i <= hi)%nat -> num lo <= num i /\ num i <= num hi.
Proof.
  intros [Hlo Hhi]. unfold num. rewrite <- !Zle_Qle. lia.
Qed.

(** The horizontal line [i] sits where [addPoint] puts multiplier [i + 1]. *)
Lemma lineY_is_multiplier (i : nat) (time : Q) :
  0 <= CanvasManager.height cm -> (i <= 10)%nat ->
  lineY cm i == RocketCurve.y (RocketCurve.curvePoint cm time (num (i + 1))).
Proof.
  intros Hh Hi.
  destruct (num_range i 0 10 (conj (Nat.le_0_l i) Hi)) as [_ Hhi].
  change (num 10) with 10 in Hhi.
  pose proof (num_succ i) as E.
  rewrite y_unclamped by (try assumption; qlra).
  unfold lineY. rewrite E. reflexivity.
Qed.

(** The vertical line [i] sits where [addPoint] puts time [5 i]. *)
Lemma lineX_is_time (i : nat) (multiplier : Q) :
  0 <= CanvasManager.width cm -> (i <= 6)%nat ->
  lineX cm 6 i
  == RocketCurve.x (RocketCurve.curvePoint cm (num (i * 5)) multiplier).
Proof.
  intros Hw Hi.
  destruct (num_range i 0 6 (conj (Nat.le_0_l i) Hi)) as [_ Hhi].
  change (num 6) with 6 in Hhi.
  pose proof (num_times_5 i) as E.
  rewrite x_unclamped by (try assumption; qlra).
  unfold lineX. rewrite E. change (num 6) with 6.
  generalize (CanvasManager.width cm). intros w0.
  unfold Qdiv. change (/ 6) with (1 # 6). change (/ 30) with (1 # 30).
  qlra.
Qed.

End Grid.

Ltac grid_unfold :=
  unfold CanvasPainting.drawGrid, CanvasPainting.horizontalLine,
    CanvasPainting.verticalLine, CanvasPainting.drawBackground,
    CanvasPainting.clear;
  ctx_unfold;
  repeat rewrite <- app_assoc; cbn [app].

Ltac find_in_log :=
  cbn [In]; repeat first [left; reflexivity | right].

(** X1. Whatever the drawing state before, [drawGrid] strokes its sixteen
    lines dashed [2, 2], one pixel wide, in #4a5568 at opacity 0.3 and
    writes its sixteen labels in #a0aec0 at opacity 0.6: [2x] to [11x] for
    the horizontal lines, [5s] to [30s] for the vertical ones.  It leaves the
    opacity at 1 and the dash pattern empty, and no saved state behind; the
    stroke colour, line width and fill colour it set stay in place. *)
Theorem drawGrid_paints_dashed_and_resets (N : Type) (cm : CanvasManager.t)
  (c : Ctx.t N) :
  let c' := CanvasPainting.drawGrid cm c in
  Forall paintedAsGrid (emitted c c')
  /\ length (paints (emitted c c')) = 32%nat
  /\ texts (emitted c c')
     = [ "2x"; "3x"; "4x"; "5x"; "6x"; "7x"; "8x"; "9x"; "10x"; "11x";
         "5s"; "10s"; "15s"; "20s"; "25s"; "30s" ]%string
  /\ (Ctx.globalAlpha (Ctx.style c') = 1
      /\ Ctx.lineDash (Ctx.style c') = []
      /\ Ctx.saved c' = Ctx.saved c)
  /\ (Ctx.strokeStyle (Ctx.style c') = Ctx.css "#4a5568"
      /\ Ctx.lineWidth (Ctx.style c') = 1
      /\ Ctx.fillStyle (Ctx.style c') = Ctx.css "#a0aec0")
  /\ shadowOf (Ctx.style c') = shadowOf (Ctx.style c).
Proof.
  destruct c as [[ss fs lw lc lj sc sb sx sy ga ld fo] sv cs].
  cbv zeta.
  match goal with
  | |- context [emitted ?a ?b] =>
      assert (E : exists new, Ctx.calls b = Ctx.calls a ++ new
                              /\ emitted a b = new
                              /\ Forall paintedAsGrid new
                              /\ length (paints new) = 32%nat
                              /\ texts new
                                 = [ "2x"; "3x"; "4x"; "5x"; "6x"; "7x"; "8x";
                                     "9x"; "10x"; "11x"; "5s"; "10s"; "15s";
                                     "20s"; "25s"; "30s" ]%string)
  end.
  { eexists. split; [grid_unfold; reflexivity|].
    split; [apply emitted_app; grid_unfold; reflexivity|].
    split; [|split; reflexivity].
    repeat constructor. }
  destruct E as (new & _ & -> & HF & HP & HT).
  split; [exact HF|]. split; [exact HP|]. split; [exact HT|].
  grid_unfold. repeat split.
Qed.

(** X2. The grid agrees with the mapping of [addPoint]: on a surface of
    non-negative size, the horizontal line that [drawGrid] draws across the
    full width and labels [(i + 1)x] is at the height where [addPoint] puts
    multiplier [i + 1], and the vertical line it draws over the full height
    and labels [(5 i)s] is at the abscissa where [addPoint] puts time
    [5 i]. *)
Theorem drawGrid_lines_match_addPoint (N : Type) (cm : CanvasManager.t)
  (c : Ctx.t N) (i : nat) (time multiplier : Q) :
  0 <= CanvasManager.width cm ->
  0 <= CanvasManager.height cm ->
  let log := emitted c (CanvasPainting.drawGrid cm c) in
  ((1 <= i <= 10)%nat ->
   let y := CanvasPainting.lineY cm i in
   In (Ctx.moveTo 0 y) log
   /\ In (Ctx.lineTo (CanvasManager.width cm) y) log
   /\ (exists s, In (Ctx.fillText (CanvasPainting.label (i + 1) "x")
                                  10 (y - 5) s) log)
   /\ y == RocketCurve.y
             (RocketCurve.curvePoint cm time (CanvasPainting.num (i + 1))))
  /\ ((1 <= i <= 6)%nat ->
      let x := CanvasPainting.lineX cm 6 i in
      In (Ctx.moveTo x 0) log
      /\ In (Ctx.lineTo x (CanvasManager.height cm)) log
      /\ (exists s, In (Ctx.fillText (CanvasPainting.label (i * 5) "s")
                                     (x + 5) (CanvasManager.height cm - 5) s)
                       log)
      /\ x == RocketCurve.x
                (RocketCurve.curvePoint cm (CanvasPainting.num (i * 5))
                                        multiplier)).
Proof.
  intros Hw Hh log.
  assert (E : exists new, log = new
                          /\ Ctx.calls (CanvasPainting.drawGrid cm c)
                             = Ctx.calls c ++ new).
  { destruct c as [s sv cs]. eexists. split; [|grid_unfold; reflexivity].
    unfold log. apply emitted_app. grid_unfold. reflexivity. }
  destruct E as (new & -> & E).
  destruct c as [s sv cs]. revert E. grid_unfold. intros E.
  apply app_inv_head in E. subst new.
  split; intros Hi.
  - assert (Hcase : (i = 1 \/ i = 2 \/ i = 3 \/ i = 4 \/ i = 5 \/ i = 6
                     \/ i = 7 \/ i = 8 \/ i = 9 \/ i = 10)%nat) by lia.
    cbv zeta.
    split; [|split; [|split]].
    4: apply lineY_is_multiplier; [assumption | lia].
    all: decompose [or] Hcase; subst i;
      try eexists; find_in_log.
  - assert (Hcase : (i = 1 \/ i = 2 \/ i = 3 \/ i = 4 \/ i = 5
                     \/ i = 6)%nat) by lia.
    cbv zeta.
    split; [|split; [|split]].
    4: apply lineX_is_time; [assumption | lia].
    all: decompose [or] Hcase; subst i;
      try eexists; find_in_log.
Qed.

Lemma drawGrid_lines_match_addPoint_witness :
  CanvasPainting.lineY wideSurface 3
  == RocketCurve.y
       (RocketCurve.curvePoint wideSurface 12 (CanvasPainting.num (3 + 1))).
Proof.
  assert (Hw : 0 <= CanvasManager.width wideSurface) by (vm_compute; discriminate).
  assert (Hh : 0 <= CanvasManager.height wideSurface) by (vm_compute; discriminate).
  destruct (drawGrid_lines_match_addPoint R wideSurface
              (Ctx.mk plainStyle [] []) 3 12 4 Hw Hh) as [Hrow _].
  destruct Hrow as (_ & _ & _ & Hy); [lia | exact Hy].
Defined.

(** ** [RocketCurve.draw] *)

Section LoopsOfCalls.

Import Ctx.

Context {N I : Type}.

(** A loop whose body makes one call adds those calls, in order, and leaves
    the drawing state alone. *)
Lemma each_call (body : I -> t N -> t N) (f : I -> Call N)
  (range : list I) (c : t N) :
  (forall i c', body i c' = call (f i) c') ->
  each range body c
  = {| style := style c; saved := saved c;
       calls := calls c ++ map f range |}.
Proof.
  intros Hbody. revert c.
  induction range as [|i range IH]; intros [s sv cs].
  - unfold each. cbn. rewrite app_nil_r. reflexivity.
  - unfold each in *. cbn [fold_left map]. rewrite IH, Hbody.
    unfold call. cbn [style saved calls]. rewrite <- app_assoc.
    reflexivity.
Qed.

End LoopsOfCalls.

Ltac ctx_prims :=
  cbv [Ctx.call Ctx.painting Ctx.withStyle Ctx.save Ctx.restore
       Ctx.setStrokeStyle Ctx.setFillStyle Ctx.setLineWidth Ctx.setLineCap
       Ctx.setLineJoin Ctx.setShadowColor Ctx.setShadowBlur
       Ctx.setShadowOffsetX Ctx.setShadowOffsetY Ctx.setGlobalAlpha
       Ctx.setLineDash Ctx.setFont
       Ctx.style Ctx.saved Ctx.calls
       Ctx.strokeStyle Ctx.fillStyle Ctx.lineWidth Ctx.lineCap Ctx.lineJoin
       Ctx.shadowColor Ctx.shadowBlur Ctx.shadowOffsetX Ctx.shadowOffsetY
       Ctx.globalAlpha Ctx.lineDash Ctx.font].

Section CurveDrawing.

Import Ctx CurvePainting.

(** The call made by the loop of [draw] for index [i]. *)
Lemma quadraticTo_call (points : list RocketCurve.Point)
  (p0 : RocketCurve.Point) (i : nat) (c : t R) :
  quadraticTo points p0 i c
  = call (quadraticCurveTo
            (RocketCurve.x (nth i points p0))
            (RocketCurve.y (nth i points p0))
            ((RocketCurve.x (nth i points p0)
              + RocketCurve.x (nth (i + 1) points p0)) / 2)
            ((RocketCurve.y (nth i points p0)
              + RocketCurve.y (nth (i + 1) points p0)) / 2)) c.
Proof. reflexivity. Qed.

(** The whole effect of [draw] on a buffer of at least two points. *)
Lemma draw_unfolded (cm : CanvasManager.t) (now : R) (rc : RocketCurve.t)
  (p0 p1 : RocketCurve.Point) (rest : list RocketCurve.Point)
  (s : Style) (sv : list Style) (cs : list (Call R)) :
  RocketCurve.points rc = p0 :: p1 :: rest ->
  let points := p0 :: p1 :: rest in
  let lastPoint := last points p0 in
  let lx := RocketCurve.x lastPoint in
  let ly := RocketCurve.y lastPoint in
  let shadows :=
    CanvasManager.enableShadows (CanvasManager.performanceSettings cm) in
  let quad i :=
    quadraticCurveTo
      (RocketCurve.x (nth i points p0)) (RocketCurve.y (nth i points p0))
      ((RocketCurve.x (nth i points p0)
        + RocketCurve.x (nth (i + 1) points p0)) / 2)
      ((RocketCurve.y (nth i points p0)
        + RocketCurve.y (nth (i + 1) points p0)) / 2) in
  let lit (blur : Q) colour :=
    mkStyle (css "#e53e3e") colour 3 "round" "round"
      (if shadows then "#e53e3e"%string else shadowColor s)
      (if shadows then blur else shadowBlur s)
      (if shadows then 0 else shadowOffsetX s)
      (if shadows then 0 else shadowOffsetY s)
      (globalAlpha s) (lineDash s) (font s) in
  draw cm now rc (mk s sv cs)
  = mk (lit 0 (css "#e53e3e")) sv
       (cs ++ [beginPath; moveTo (RocketCurve.x p0) (RocketCurve.y p0)]
           ++ map quad (seq 1 (length rest))
           ++ [ lineTo lx ly;
                stroke (lit 10 (fillStyle s));
                beginPath;
                arc lx ly (6 * RocketCurve.pulse now)%R;
                fill (lit 0 (css "#ffffff"));
                beginPath;
                arc lx ly (4 * RocketCurve.pulse now)%R;
                fill (lit 0 (css "#e53e3e")) ]).
Proof.
  intros Hp. cbv zeta. unfold draw, drawCurrentPoint. rewrite Hp.
  cbn [length Nat.ltb Nat.leb Nat.sub]. rewrite Nat.sub_0_r.
  cbv [run fold_left].
  destruct (CanvasManager.enableShadows (CanvasManager.performanceSettings cm));
    cbv [run fold_left];
    rewrite (each_call _ _ (seq 1 (length rest)) _
               (quadraticTo_call (p0 :: p1 :: rest) p0));
    ctx_prims; repeat rewrite <- app_assoc; cbn [app]; reflexivity.
Qed.

Lemma paints_app {N : Type} (l1 l2 : list (Call N)) :
  paints (l1 ++ l2) = paints l1 ++ paints l2.
Proof. apply flat_map_app. Qed.


End CurveDrawing.

(** X3. [draw] paints nothing at all while the buffer holds fewer than two
    points: the context is left exactly as it was.  This includes a buffer
    of one point, whose marker [drawCurrentPoint] on its own would paint. *)
Theorem draw_needs_two_points (cm : CanvasManager.t) (now : R)
  (rc : RocketCurve.t) (c : Ctx.t R) :
  (length (RocketCurve.points rc) < 2)%nat ->
  CurvePainting.draw cm now rc c = c
  /\ (length (RocketCurve.points rc) = 1%nat ->
      length (arcs (emitted c (CurvePainting.drawCurrentPoint now rc c)))
      = 2%nat).
Proof.
  intros Hlen. split.
  - unfold CurvePainting.draw.
    destruct (Nat.ltb_spec (length (RocketCurve.points rc)) 2); [reflexivity|lia].
  - intros H1. destruct (RocketCurve.points rc) as [|p0 [|p1 rest]] eqn:E;
      try discriminate.
    destruct c as [s sv cs].
    erewrite emitted_app.
    2:{ unfold CurvePainting.drawCurrentPoint. rewrite E.
        cbv [Ctx.run fold_left]. ctx_prims.
        repeat rewrite <- app_assoc. cbn [app]. reflexivity. }
    reflexivity.
Qed.

Lemma draw_needs_two_points_witness :
  CurvePainting.draw wideSurface 0
    (RocketCurve.addPoint wideSurface 3 1.5 RocketCurve.new)
    (Ctx.mk plainStyle [] [])
  = Ctx.mk plainStyle [] [].
Proof.
  apply (draw_needs_two_points wideSurface 0
           (RocketCurve.addPoint wideSurface 3 1.5 RocketCurve.new)).
  simpl. lia.
Defined.

(** X4. With at least two points buffered, [draw] builds one path and
    strokes it once: the path starts at the oldest buffered point, has one
    quadratic segment for each interior point — the point itself as control
    point, the midpoint between it and its successor as end point — and ends
    with a straight segment to the newest point.  The only circles drawn
    after the stroke are the two discs of [drawCurrentPoint]. *)
Theorem draw_strokes_smoothed_path (cm : CanvasManager.t) (now : R)
  (rc : RocketCurve.t) (c : Ctx.t R) (d : RocketCurve.Point) :
  let points := RocketCurve.points rc in
  let n := length points in
  let pt i := nth i points d in
  (2 <= n)%nat ->
  exists (quads marker : list (Ctx.Call R)) (s : Ctx.Style),
    emitted c (CurvePainting.draw cm now rc c)
    = Ctx.beginPath
        :: Ctx.moveTo (RocketCurve.x (pt 0%nat)) (RocketCurve.y (pt 0%nat))
        :: quads
        ++ Ctx.lineTo (RocketCurve.x (last points d))
                      (RocketCurve.y (last points d))
        :: Ctx.stroke s
        :: marker
    /\ length quads = (n - 2)%nat
    /\ (forall k : nat, (k < n - 2)%nat ->
        nth_error quads k
        = Some (Ctx.quadraticCurveTo
                  (RocketCurve.x (pt (k + 1)%nat))
                  (RocketCurve.y (pt (k + 1)%nat))
                  ((RocketCurve.x (pt (k + 1)%nat)
                    + RocketCurve.x (pt (k + 2)%nat)) / 2)
                  ((RocketCurve.y (pt (k + 1)%nat)
                    + RocketCurve.y (pt (k + 2)%nat)) / 2)))
    /\ arcs marker
       = map (fun disc => (RocketCurve.disc_x disc, RocketCurve.disc_y disc,
                           RocketCurve.disc_radius disc))
             (RocketCurve.drawCurrentPoint now rc)
    /\ length (paints marker) = 2%nat.
Proof.
  intros points n pt Hn. subst pt n points. cbv beta.
  destruct (RocketCurve.points rc) as [|p0 [|p1 rest]] eqn:E;
    try (simpl in Hn; lia).
  destruct c as [s sv cs].
  pose proof (draw_unfolded cm now rc p0 p1 rest s sv cs E) as H.
  cbv zeta in H.
  erewrite emitted_app by (rewrite H; reflexivity).
  assert (Hlast : forall d', last (p0 :: p1 :: rest) d'
                             = last (p0 :: p1 :: rest) p0).
  { intros d'. generalize p1 at 1 2. clear.
    induction rest as [|r rest IH]; intros q; [reflexivity|].
    change (last (p0 :: q :: r :: rest) d') with (last (p0 :: r :: rest) d').
    change (last (p0 :: q :: r :: rest) p0) with (last (p0 :: r :: rest) p0).
    apply IH. }
  rewrite (Hlast d).
  eexists _, _, _. split; [cbn [app]; reflexivity|].
  split; [rewrite length_map, length_seq; simpl; lia|].
  split.
  - intros k Hk. cbn [length] in Hk.
    rewrite nth_error_map, nth_error_seq.
    destruct (Nat.ltb_spec k (length rest)); [|lia].
    cbn [option_map].
    replace (1 + k)%nat with (k + 1)%nat by lia.
    replace (k + 1 + 1)%nat with (k + 2)%nat by lia.
    rewrite (nth_indep (p0 :: p1 :: rest) p0 d) by (cbn [length]; lia).
    rewrite (nth_indep (p0 :: p1 :: rest) p0 d (n:=(k + 2)%nat))
      by (cbn [length]; lia).
    reflexivity.
  - unfold RocketCurve.drawCurrentPoint. rewrite E. split; reflexivity.
Qed.

Lemma draw_strokes_smoothed_path_witness :
  exists log : list (Ctx.Call R),
    emitted (Ctx.mk plainStyle [] [])
      (CurvePainting.draw wideSurface 0 threePointCurve
         (Ctx.mk plainStyle [] []))
    = Ctx.beginPath :: Ctx.moveTo 0 400 :: log.
Proof.
  assert (Hn : (2 <= length (RocketCurve.points threePointCurve))%nat)
    by (simpl; lia).
  destruct (draw_strokes_smoothed_path wideSurface 0 threePointCurve
              (Ctx.mk plainStyle [] []) originPoint Hn)
    as (quads & marker & s & E & _).
  eexists. exact E.
Defined.



(** ** [ExplosionParticles.draw] *)

Section ParticleDrawing.

Import Ctx ParticlePainting.

Lemma drawParticle_unfolded (p : ExplosionParticles.Particle)
  (s : Style) (sv : list Style) (cs : list (Call Q)) :
  drawParticle p (mk s sv cs) = mk s sv (cs ++ particleCalls s p).
Proof.
  unfold drawParticle, particleCalls. cbv [run fold_left]. ctx_prims.
  repeat rewrite <- app_assoc. reflexivity.
Qed.

Lemma each_drawParticle (ps : list ExplosionParticles.Particle)
  (s : Style) (sv : list Style) (cs : list (Call Q)) :
  each ps drawParticle (mk s sv cs)
  = mk s sv (cs ++ flat_map (particleCalls s) ps).
Proof.
  revert cs. induction ps as [|p ps IH]; intros cs.
  - unfold each. cbn. rewrite app_nil_r. reflexivity.
  - unfold each in *. cbn [fold_left flat_map].
    rewrite drawParticle_unfolded, IH, <- app_assoc. reflexivity.
Qed.

Lemma paints_particles (s : Style) (ps : list ExplosionParticles.Particle) :
  map globalAlpha (paints (flat_map (particleCalls s) ps))
  = map ExplosionParticles.life ps.
Proof.
  induction ps as [|p ps IH]; [reflexivity|].
  cbn [flat_map]. rewrite paints_app. cbn [map]. rewrite <- IH.
  reflexivity.
Qed.

Lemma particle_draw_unfolded (e : ExplosionParticles.t)
  (s : Style) (sv : list Style) (cs : list (Call Q)) :
  draw e (mk s sv cs)
  = mk s sv (cs ++ if ExplosionParticles.isActive e
                   then flat_map (particleCalls s)
                          (ExplosionParticles.particles e)
                   else []).
Proof.
  unfold draw. destruct (ExplosionParticles.isActive e); cbn [negb].
  - apply each_drawParticle.
  - rewrite app_nil_r. reflexivity.
Qed.

End ParticleDrawing.

(** X6. [ExplosionParticles.draw] leaves the drawing state and the stack of
    saved states exactly as it found them.  An active simulator draws, for
    each particle in order, one full circle at the particle's position with
    its size as radius, filled with the particle's colour at an opacity
    equal to its life, every other setting being the one in place before
    the call — whatever particles were drawn before it.  An inactive
    simulator draws nothing. *)
Theorem particle_draw_restores_state (e : ExplosionParticles.t)
  (c : Ctx.t Q) :
  let c' := ParticlePainting.draw e c in
  Ctx.style c' = Ctx.style c
  /\ Ctx.saved c' = Ctx.saved c
  /\ emitted c c'
     = (if ExplosionParticles.isActive e
        then flat_map (ParticlePainting.particleCalls (Ctx.style c))
                      (ExplosionParticles.particles e)
        else [])
  /\ (ExplosionParticles.isActive e = false -> c' = c).
Proof.
  destruct c as [s sv cs]. cbv zeta. rewrite particle_draw_unfolded.
  cbn [Ctx.style Ctx.saved].
  split; [reflexivity|]. split; [reflexivity|].
  split; [apply emitted_app; reflexivity|].
  intros ->. rewrite app_nil_r. reflexivity.
Qed.

Lemma particle_draw_restores_state_witness :
  ParticlePainting.draw
    {| ExplosionParticles.particles := ExplosionParticles.particles twoSparks;
       ExplosionParticles.isActive := false |}
    (Ctx.mk plainStyle [] [])
  = Ctx.mk plainStyle [] [].
Proof.
  destruct (particle_draw_restores_state
              {| ExplosionParticles.particles :=
                   ExplosionParticles.particles twoSparks;
                 ExplosionParticles.isActive := false |}
              (Ctx.mk plainStyle [] [])) as (_ & _ & _ & Hoff).
  apply Hoff. reflexivity.
Defined.

(** X7. Whenever a simulator that was constructed with [Math.random()] in
    [0, 1) and then updated any number of times is drawn, every particle is
    painted at an opacity within (0, 1], and there is one painting per
    remaining particle. *)
Theorem particle_draw_opacity_in_range (cm : CanvasManager.t) (x0 y0 : Q)
  (rnd : ExplosionParticles.Random) (n k : nat) (c : Ctx.t Q) :
  unitInterval rnd ->
  let e :=
    ExplosionParticles.updates k
      (fst (ExplosionParticles.new cm x0 y0 rnd n)) in
  let painted := paints (emitted c (ParticlePainting.draw e c)) in
  Forall (fun s => 0 < Ctx.globalAlpha s /\ Ctx.globalAlpha s <= 1) painted
  /\ length painted
     = (if ExplosionParticles.isActive e
        then length (ExplosionParticles.particles e) else 0%nat).
Proof.
  intros Hrnd e painted.
  assert (Hfresh : Forall ExplosionParticles.fresh
                     (ExplosionParticles.particles e)).
  { unfold e. induction k as [|k IH].
    - apply new_fresh. exact Hrnd.
    - rewrite updates_succ. apply update_fresh. exact IH. }
  assert (Halpha : map Ctx.globalAlpha painted
                   = if ExplosionParticles.isActive e
                     then map ExplosionParticles.life
                            (ExplosionParticles.particles e)
                     else []).
  { unfold painted.
    destruct c as [s sv cs]. rewrite particle_draw_unfolded.
    erewrite emitted_app by reflexivity.
    destruct (ExplosionParticles.isActive e); [apply paints_particles|].
    reflexivity. }
  split.
  - apply Forall_forall. intros s Hs.
    apply (in_map Ctx.globalAlpha) in Hs. rewrite Halpha in Hs.
    destruct (ExplosionParticles.isActive e); [|contradiction].
    apply in_map_iff in Hs. destruct Hs as (p & <- & Hp).
    rewrite Forall_forall in Hfresh. destruct (Hfresh p Hp) as (H0 & H1 & _).
    split; assumption.
  - rewrite <- (length_map Ctx.globalAlpha), Halpha.
    destruct (ExplosionParticles.isActive e); [apply length_map|reflexivity].
Qed.

Lemma particle_draw_opacity_in_range_witness :
  Forall (fun s => 0 < Ctx.globalAlpha s /\ Ctx.globalAlpha s <= 1)
    (paints
       (emitted (Ctx.mk plainStyle [] [])
          (ParticlePainting.draw
             (ExplosionParticles.updates 1
                (fst (ExplosionParticles.new wideSurface 120 80 alwaysHalf 0)))
             (Ctx.mk plainStyle [] [])))).
Proof.
  assert (H : unitInterval alwaysHalf).
  { intros i. split; vm_compute; [discriminate | reflexivity]. }
  exact (proj1 (particle_draw_opacity_in_range wideSurface 120 80 alwaysHalf
                  0 1 (Ctx.mk plainStyle [] []) H)).
Defined.

(** ** [getRocketPosition] *)

Section HeadPose.

Import CurvePainting.
Local Open Scope R_scope.

Lemma atan2_right (y x : Q) :
  (0 < x)%Q -> JSMath.atan2 y x = atan (Q2R (y / x)).
Proof.
  intros Hx. unfold JSMath.atan2.
  apply Qgt_alt in Hx. rewrite Hx. reflexivity.
Qed.

Lemma atan2_vertical (y x : Q) :
  (x == 0)%Q ->
  JSMath.atan2 y x
  = match (y ?= 0)%Q with
    | Gt => PI / 2
    | Lt => - (PI / 2)
    | Eq => 0
    end.
Proof.
  intros Hx. unfold JSMath.atan2.
  apply Qeq_alt in Hx. rewrite Hx. reflexivity.
Qed.

Lemma atan_negative (q : Q) : (q < 0)%Q -> atan (Q2R q) < 0.
Proof.
  intros Hq. rewrite <- atan_0. apply atan_increasing.
  rewrite <- RMicromega.Q2R_0. apply Qlt_Rlt. exact Hq.
Qed.

Lemma atan_positive (q : Q) : (0 < q)%Q -> 0 < atan (Q2R q).
Proof.
  intros Hq. rewrite <- atan_0. apply atan_increasing.
  rewrite <- RMicromega.Q2R_0. apply Qlt_Rlt. exact Hq.
Qed.

(** The pose when the buffer ends with the points [prev] and [lastp]. *)
Lemma pose_of_last_two (rc : RocketCurve.t)
  (older : list RocketCurve.Point) (prev lastp : RocketCurve.Point) :
  RocketCurve.points rc = older ++ [prev; lastp] ->
  getRocketPosition rc
  = Some {| pose_x := RocketCurve.x lastp;
            pose_y := RocketCurve.y lastp;
            pose_angle :=
              JSMath.atan2 (RocketCurve.y lastp - RocketCurve.y prev)
                           (RocketCurve.x lastp - RocketCurve.x prev);
            pose_multiplier := RocketCurve.multiplier lastp |}.
Proof.
  intros E. unfold getRocketPosition. rewrite E.
  destruct (older ++ [prev; lastp]) as [|p0 l] eqn:El.
  { destruct older; discriminate. }
  rewrite <- El.
  assert (Hlast : last (older ++ [prev; lastp]) p0 = lastp).
  { change [prev; lastp] with ([prev] ++ [lastp]).
    rewrite app_assoc. apply last_last. }
  assert (Hlen : length (older ++ [prev; lastp]) = (length older + 2)%nat).
  { rewrite length_app. reflexivity. }
  assert (Hprev : nth (length (older ++ [prev; lastp]) - 2)
                      (older ++ [prev; lastp]) p0 = prev).
  { rewrite Hlen. replace (length older + 2 - 2)%nat with (length older) by lia.
    apply nth_middle. }
  rewrite Hlast, Hprev, Hlen.
  destruct (Nat.ltb_spec 1 (length older + 2)); [reflexivity | lia].
Qed.

(** Two successive [addPoint] calls leave their two points at the end of
    the buffer. *)
Lemma addPoint_twice_tail (cm : CanvasManager.t) (t1 m1 t2 m2 : Q)
  (rc : RocketCurve.t) :
  exists older : list RocketCurve.Point,
    RocketCurve.points
      (RocketCurve.addPoint cm t2 m2 (RocketCurve.addPoint cm t1 m1 rc))
    = older ++ [RocketCurve.curvePoint cm t1 m1;
                RocketCurve.curvePoint cm t2 m2].
Proof.
  unfold RocketCurve.addPoint at 1. cbn [RocketCurve.points].
  unfold RocketCurve.addPoint. cbn [RocketCurve.points].
  unfold JS.push, JS.shift.
  set (p1 := RocketCurve.curvePoint cm t1 m1).
  set (p2 := RocketCurve.curvePoint cm t2 m2).
  set (l := RocketCurve.points rc).
  assert (H1 : exists l1, (if (300 <? length (l ++ [p1]))%nat
                           then tl (l ++ [p1]) else l ++ [p1]) = l1 ++ [p1]).
  { destruct (Nat.ltb_spec 300 (length (l ++ [p1]))) as [H|H].
    - rewrite length_app in H. simpl in H.
      destruct l as [|a l']; [simpl in H; lia|].
      exists l'. reflexivity.
    - exists l. reflexivity. }
  destruct H1 as (l1 & ->).
  rewrite <- app_assoc. cbn [app].
  destruct (Nat.ltb_spec 300 (length (l1 ++ [p1; p2]))) as [H|H].
  - rewrite length_app in H. simpl in H.
    destruct l1 as [|a l1']; [simpl in H; lia|].
    exists l1'. reflexivity.
  - exists l1. reflexivity.
Qed.

End HeadPose.

(** X8. [getRocketPosition] returns [null] exactly when the buffer is empty,
    in particular right after [reset()].  After [addPoint(time, multiplier)]
    it returns the coordinates at which that call stored the sample —
    whatever was in the buffer — together with the sample's multiplier; with
    one point in the buffer the angle is 0. *)
Theorem getRocketPosition_reports_newest_point (cm : CanvasManager.t)
  (time multiplier : Q) (rc : RocketCurve.t) :
  (CurvePainting.getRocketPosition rc = None <-> RocketCurve.points rc = [])
  /\ CurvePainting.getRocketPosition (RocketCurve.reset rc) = None
  /\ (exists angle : R,
        CurvePainting.getRocketPosition
          (RocketCurve.addPoint cm time multiplier rc)
        = Some {| CurvePainting.pose_x :=
                    RocketCurve.x (RocketCurve.curvePoint cm time multiplier);
                  CurvePainting.pose_y :=
                    RocketCurve.y (RocketCurve.curvePoint cm time multiplier);
                  CurvePainting.pose_angle := angle;
                  CurvePainting.pose_multiplier := multiplier |})
  /\ (forall pose,
        CurvePainting.getRocketPosition
          (RocketCurve.addPoint cm time multiplier (RocketCurve.reset rc))
        = Some pose ->
        CurvePainting.pose_angle pose = 0%R).
Proof.
  split.
  { unfold CurvePainting.getRocketPosition.
    destruct (RocketCurve.points rc); split; intros H;
      [reflexivity | reflexivity | discriminate | discriminate]. }
  split; [reflexivity|].
  split.
  - pose proof (addPoint_stores cm time multiplier rc) as Hlast.
    unfold CurvePainting.getRocketPosition.
    destruct (RocketCurve.points
                (RocketCurve.addPoint cm time multiplier rc))
      as [|p0 l] eqn:E.
    + exfalso. revert E. unfold RocketCurve.addPoint, JS.push, JS.shift.
      cbn [RocketCurve.points].
      destruct (300 <? _)%nat eqn:Hlt.
      * apply Nat.ltb_lt in Hlt. rewrite length_app in Hlt. simpl in Hlt.
        destruct (RocketCurve.points rc) as [|a [|b l']]; simpl in *;
          try lia; discriminate.
      * destruct (RocketCurve.points rc); discriminate.
    + rewrite (Hlast p0). eexists. reflexivity.
  - intros pose. unfold CurvePainting.getRocketPosition. cbn.
    intros H. injection H as <-. reflexivity.
Qed.

Lemma getRocketPosition_reports_newest_point_witness :
  CurvePainting.getRocketPosition RocketCurve.new = None.
Proof.
  destruct (getRocketPosition_reports_newest_point wideSurface 3 1.5
              RocketCurve.new) as ([_ Hnull] & _).
  apply Hnull. reflexivity.
Defined.

Section Heading.

Import CurvePainting.
Local Open Scope R_scope.

Lemma atan2_cases (y x : Q) :
  ((0 < x)%Q ->
   - PI / 2 < JSMath.atan2 y x < PI / 2
   /\ ((y < 0)%Q -> JSMath.atan2 y x < 0)
   /\ ((0 < y)%Q -> 0 < JSMath.atan2 y x)
   /\ ((y == 0)%Q -> JSMath.atan2 y x = 0))
  /\ ((x == 0)%Q ->
      ((y < 0)%Q -> JSMath.atan2 y x = - (PI / 2))
      /\ ((0 < y)%Q -> JSMath.atan2 y x = PI / 2)
      /\ ((y == 0)%Q -> JSMath.atan2 y x = 0)).
Proof.
  split.
  - intros Hx. rewrite atan2_right by exact Hx.
    split; [apply atan_bound|].
    split; [|split].
    + intros Hy. apply atan_negative.
      apply Qlt_shift_div_r; [exact Hx | qlra].
    + intros Hy. apply atan_positive.
      apply Qlt_shift_div_l; [exact Hx | qlra].
    + intros Hy. rewrite (Qeq_eqR (y / x) 0).
      * rewrite RMicromega.Q2R_0. apply atan_0.
      * rewrite Hy. unfold Qdiv. apply Qmult_0_l.
  - intros Hx. rewrite atan2_vertical by exact Hx.
    split; [|split]; intros Hy;
      destruct (Qcompare_spec y 0%Q) as [Hc|Hc|Hc];
      first [reflexivity | exfalso; qlra].
Qed.

End Heading.

(** X9. With at least two points buffered, the angle returned by
    [getRocketPosition] is the direction of the segment from the
    second-to-last to the last point.  When the last point lies to the right
    the angle is strictly between -π/2 and π/2, negative when the curve
    rises on screen (y decreases), positive when it falls, 0 when it is
    level.  When the two points have the same abscissa the angle is -π/2 for
    a rising curve, π/2 for a falling one, and 0 when the points coincide. *)
Theorem heading_follows_last_segment (rc : RocketCurve.t)
  (older : list RocketCurve.Point) (prev lastp : RocketCurve.Point) :
  RocketCurve.points rc = older ++ [prev; lastp] ->
  exists pose : CurvePainting.Pose,
    CurvePainting.getRocketPosition rc = Some pose
    /\ (RocketCurve.x prev < RocketCurve.x lastp ->
        (- PI / 2 < CurvePainting.pose_angle pose < PI / 2)%R
        /\ (RocketCurve.y lastp < RocketCurve.y prev ->
            (CurvePainting.pose_angle pose < 0)%R)
        /\ (RocketCurve.y prev < RocketCurve.y lastp ->
            (0 < CurvePainting.pose_angle pose)%R)
        /\ (RocketCurve.y lastp == RocketCurve.y prev ->
            CurvePainting.pose_angle pose = 0%R))
    /\ (RocketCurve.x lastp == RocketCurve.x prev ->
        (RocketCurve.y lastp < RocketCurve.y prev ->
         CurvePainting.pose_angle pose = (- (PI / 2))%R)
        /\ (RocketCurve.y prev < RocketCurve.y lastp ->
            CurvePainting.pose_angle pose = (PI / 2)%R)
        /\ (RocketCurve.y lastp == RocketCurve.y prev ->
            CurvePainting.pose_angle pose = 0%R)).
Proof.
  intros E. eexists. split; [apply (pose_of_last_two rc older prev lastp E)|].
  cbn [CurvePainting.pose_angle].
  destruct (atan2_cases (RocketCurve.y lastp - RocketCurve.y prev)
                        (RocketCurve.x lastp - RocketCurve.x prev))
    as [Hright Hvert].
  split.
  - intros Hx. destruct Hright as (Hb & Hneg & Hpos & Hzero); [qlra|].
    split; [exact Hb|].
    split; [intros; apply Hneg; qlra|].
    split; [intros; apply Hpos; qlra | intros; apply Hzero; qlra].
  - intros Hx. destruct Hvert as (Hneg & Hpos & Hzero); [qlra|].
    split; [intros; apply Hneg; qlra|].
    split; [intros; apply Hpos; qlra | intros; apply Hzero; qlra].
Qed.

Lemma heading_follows_last_segment_witness :
  exists pose : CurvePainting.Pose,
    CurvePainting.getRocketPosition threePointCurve = Some pose
    /\ (CurvePainting.pose_angle pose < 0)%R.
Proof.
  destruct (heading_follows_last_segment threePointCurve
              [ {| RocketCurve.x := 0; RocketCurve.y := 400;
                   RocketCurve.multiplier := 1; RocketCurve.time := 0 |} ]
              {| RocketCurve.x := 400; RocketCurve.y := 200;
                 RocketCurve.multiplier := 6; RocketCurve.time := 15 |}
              {| RocketCurve.x := 800; RocketCurve.y := 0;
                 RocketCurve.multiplier := 11; RocketCurve.time := 30 |}
              eq_refl)
    as (pose & E & Hright & _).
  exists pose. split; [exact E|].
  destruct Hright as (_ & Hneg & _); [vm_compute; reflexivity|].
  apply Hneg. vm_compute. reflexivity.
Defined.

(** X10. The heading over two successive samples, on a surface of positive
    size.  While time advances within the 30-second horizon and the
    multiplier grows within the 11x ceiling, the angle is strictly between
    -π/2 and 0: the rocket points right and up.  Once both samples are at or
    past 30 seconds the abscissa is clamped, and a growing multiplier gives
    exactly -π/2: straight up.  Once both samples are also at or above 11x
    the two points coincide and the angle is 0. *)
Theorem heading_during_flight (cm : CanvasManager.t) (rc : RocketCurve.t)
  (t1 m1 t2 m2 : Q) :
  0 < CanvasManager.width cm ->
  0 < CanvasManager.height cm ->
  exists pose : CurvePainting.Pose,
    CurvePainting.getRocketPosition
      (RocketCurve.addPoint cm t2 m2 (RocketCurve.addPoint cm t1 m1 rc))
    = Some pose
    /\ (t1 < t2 -> t2 <= 30 -> m1 < m2 -> m2 <= 11 ->
        (- PI / 2 < CurvePainting.pose_angle pose < 0)%R)
    /\ (30 <= t1 -> 30 <= t2 -> m1 < m2 -> m2 <= 11 ->
        CurvePainting.pose_angle pose = (- (PI / 2))%R)
    /\ (30 <= t1 -> 30 <= t2 -> 11 <= m1 -> 11 <= m2 ->
        CurvePainting.pose_angle pose = 0%R).
Proof.
  intros Hw Hh.
  destruct (addPoint_twice_tail cm t1 m1 t2 m2 rc) as (older & E).
  eexists. split; [apply (pose_of_last_two _ older _ _ E)|].
  cbn [CurvePainting.pose_angle].
  set (p1 := RocketCurve.curvePoint cm t1 m1).
  set (p2 := RocketCurve.curvePoint cm t2 m2).
  destruct (atan2_cases (RocketCurve.y p2 - RocketCurve.y p1)
                        (RocketCurve.x p2 - RocketCurve.x p1))
    as [Hright Hvert].
  assert (Hw0 : 0 <= CanvasManager.width cm) by qlra.
  assert (Hh0 : 0 <= CanvasManager.height cm) by qlra.
  split; [|split].
  - intros Ht Ht2 Hm Hm2.
    assert (Hx1 : RocketCurve.x p1 == t1 / 30 * CanvasManager.width cm)
      by (apply x_unclamped; qlra).
    assert (Hx2 : RocketCurve.x p2 == t2 / 30 * CanvasManager.width cm)
      by (apply x_unclamped; qlra).
    assert (Hy1 : RocketCurve.y p1
                  == CanvasManager.height cm
                     - (m1 - 1) / 10 * CanvasManager.height cm)
      by (apply y_unclamped; qlra).
    assert (Hy2 : RocketCurve.y p2
                  == CanvasManager.height cm
                     - (m2 - 1) / 10 * CanvasManager.height cm)
      by (apply y_unclamped; qlra).
    revert Hx1 Hx2 Hy1 Hy2 Hright.
    generalize (RocketCurve.x p1) (RocketCurve.x p2)
               (RocketCurve.y p1) (RocketCurve.y p2)
               (CanvasManager.width cm) (CanvasManager.height cm) Hw Hh.
    intros x1 x2 y1 y2 w h Hw' Hh' Hx1 Hx2 Hy1 Hy2 Hright. qdiv.
    destruct Hright as (Hb & Hneg & _); [qnra|].
    split; [apply Hb | apply Hneg; qnra].
  - intros Ht1 Ht2 Hm Hm2.
    assert (Hx1 : RocketCurve.x p1 == CanvasManager.width cm)
      by (apply x_clamped; qlra).
    assert (Hx2 : RocketCurve.x p2 == CanvasManager.width cm)
      by (apply x_clamped; qlra).
    assert (Hy1 : RocketCurve.y p1
                  == CanvasManager.height cm
                     - (m1 - 1) / 10 * CanvasManager.height cm)
      by (apply y_unclamped; qlra).
    assert (Hy2 : RocketCurve.y p2
                  == CanvasManager.height cm
                     - (m2 - 1) / 10 * CanvasManager.height cm)
      by (apply y_unclamped; qlra).
    revert Hx1 Hx2 Hy1 Hy2 Hvert.
    generalize (RocketCurve.x p1) (RocketCurve.x p2)
               (RocketCurve.y p1) (RocketCurve.y p2)
               (CanvasManager.width cm) (CanvasManager.height cm) Hw Hh.
    intros x1 x2 y1 y2 w h Hw' Hh' Hx1 Hx2 Hy1 Hy2 Hvert. qdiv.
    destruct Hvert as (Hneg & _); [qlra|].
    apply Hneg. qnra.
  - intros Ht1 Ht2 Hm1 Hm2.
    assert (Hx1 : RocketCurve.x p1 == CanvasManager.width cm)
      by (apply x_clamped; qlra).
    assert (Hx2 : RocketCurve.x p2 == CanvasManager.width cm)
      by (apply x_clamped; qlra).
    assert (Hy1 : RocketCurve.y p1 == 0) by (apply y_clamped; qlra).
    assert (Hy2 : RocketCurve.y p2 == 0) by (apply y_clamped; qlra).
    destruct Hvert as (_ & _ & Hzero); [qlra|].
    apply Hzero. qlra.
Qed.

Lemma heading_during_flight_witness :
  exists pose : CurvePainting.Pose,
    CurvePainting.getRocketPosition
      (RocketCurve.addPoint wideSurface 35 3
         (RocketCurve.addPoint wideSurface 31 2 RocketCurve.new))
    = Some pose
    /\ CurvePainting.pose_angle pose = (- (PI / 2))%R.
Proof.
  assert (Hw : 0 < CanvasManager.width wideSurface) by reflexivity.
  assert (Hh : 0 < CanvasManager.height wideSurface) by reflexivity.
  destruct (heading_during_flight wideSurface RocketCurve.new 31 2 35 3 Hw Hh)
    as (pose & E & _ & Hup & _).
  exists pose. split; [exact E|].
  apply Hup; vm_compute; first [reflexivity | discriminate].
Defined.

(** ** Construction of [CanvasManager] *)

Section Setup.

Import ExplosionParticles.

Lemma createLoop_length (k : nat) (x0 y0 : Q) (rnd : Random) :
  forall (ps : list Particle) (n : nat),
  length (fst (createLoop k x0 y0 rnd ps n)) = (length ps + k)%nat
  /\ snd (createLoop k x0 y0 rnd ps n) = (n + 5 * k)%nat.
Proof.
  induction k as [|k IH]; intros ps n; cbn [createLoop].
  - cbn [fst snd]. lia.
  - unfold newParticle, getRandomColor.
    destruct (IH (JS.push ps
                    {| x := x0; y := y0;
                       vx := (rnd n - 0.5) * 15;
                       vy := (rnd (S n) - 0.5) * 15;
                       life := 1;
                       decay := 0.015 + rnd (S (S n)) * 0.01;
                       size := 2 + rnd (S (S (S n))) * 4;
                       color :=
                         JS.index colors
                           (JS.floor
                              (rnd (S (S (S (S n))))
                               * inject_Z (Z.of_nat (length colors)))) |})
                 (S (S (S (S (S n)))))) as [HL HN].
    split.
    + rewrite HL. unfold JS.push. rewrite length_app. simpl. lia.
    + rewrite HN. lia.
Qed.

Lemma new_length (cm : CanvasManager.t) (x0 y0 : Q) (rnd : Random)
  (n : nat) :
  length (particles (fst (new cm x0 y0 rnd n)))
  = CanvasManager.particleCount (CanvasManager.performanceSettings cm)
  /\ snd (new cm x0 y0 rnd n)
     = (n + 5 * CanvasManager.particleCount
                  (CanvasManager.performanceSettings cm))%nat.
Proof.
  unfold new, createParticles. cbn [particles].
  destruct (createLoop_length
              (CanvasManager.particleCount
                 (CanvasManager.performanceSettings cm))
              x0 y0 rnd [] n) as [HL HN].
  destruct (createLoop _ x0 y0 rnd [] n) as [ps n'].
  cbn [fst snd particles] in *. auto.
Qed.

End Setup.

(** X11. A new [CanvasManager] never has a zero pixel ratio: it is the
    device's ratio when that is a non-zero number and 1 when the ratio is
    missing or zero.  Its logical size is the bounding rectangle of the
    canvas, the backing store is assigned that size times the ratio, the
    context has been scaled once by the ratio, and the performance settings
    are those [detectPerformance] gives for the device. *)
Theorem new_manager_is_scaled (element : CanvasManager.Canvas)
  (rect : CanvasManager.DOMRect) (devicePixelRatio : option Q)
  (dev : CanvasManager.Device) :
  let cm := CanvasSetup.new element rect devicePixelRatio dev in
  ~ CanvasManager.dpr cm == 0
  /\ (forall r, devicePixelRatio = Some r -> ~ r == 0 ->
                CanvasManager.dpr cm = r)
  /\ (forall r, devicePixelRatio = Some r -> r == 0 ->
                CanvasManager.dpr cm = 1)
  /\ (devicePixelRatio = None -> CanvasManager.dpr cm = 1)
  /\ (CanvasManager.width cm = CanvasManager.rect_width rect
      /\ CanvasManager.height cm = CanvasManager.rect_height rect)
  /\ (CanvasManager.canvas_width (CanvasManager.canvas cm)
      = CanvasManager.rect_width rect * CanvasManager.dpr cm
      /\ CanvasManager.canvas_height (CanvasManager.canvas cm)
         = CanvasManager.rect_height rect * CanvasManager.dpr cm)
  /\ CanvasManager.ctx_calls (CanvasManager.canvas cm)
     = CanvasManager.ctx_calls element
       ++ [CanvasManager.scale (CanvasManager.dpr cm) (CanvasManager.dpr cm)]
  /\ CanvasManager.performanceSettings cm
     = CanvasManager.detectPerformance dev.
Proof.
  cbv zeta. unfold CanvasSetup.new, CanvasSetup.initial, CanvasManager.resize.
  cbn [CanvasManager.dpr CanvasManager.width CanvasManager.height
       CanvasManager.canvas CanvasManager.canvas_width
       CanvasManager.canvas_height CanvasManager.ctx_calls
       CanvasManager.performanceSettings].
  split.
  { unfold CanvasSetup.pixelRatio.
    destruct devicePixelRatio as [r|]; [|discriminate].
    destruct (Qeq_bool r 0) eqn:E; [discriminate|].
    apply Qeq_bool_neq. exact E. }
  split.
  { intros r -> Hr. unfold CanvasSetup.pixelRatio.
    destruct (Qeq_bool r 0) eqn:E; [|reflexivity].
    apply Qeq_bool_eq in E. contradiction. }
  split.
  { intros r -> Hr. unfold CanvasSetup.pixelRatio.
    rewrite (proj2 (Qeq_bool_iff r 0) Hr). reflexivity. }
  split; [intros ->; reflexivity|].
  repeat split.
Qed.

Lemma new_manager_is_scaled_witness :
  CanvasManager.dpr
    (CanvasSetup.new (CanvasManager.canvas wideSurface)
       (CanvasManager.mkRect 800 400) (Some 0) smallPhone)
  = 1.
Proof.
  destruct (new_manager_is_scaled (CanvasManager.canvas wideSurface)
              (CanvasManager.mkRect 800 400) (Some 0) smallPhone)
    as (_ & _ & Hzero & _).
  apply (Hzero 0); reflexivity.
Defined.

(** X12. The size of a burst follows the device: on a [CanvasManager] set up
    for a device with a signal below its threshold a new
    [ExplosionParticles] holds 10 particles and draws 50 random numbers, on
    any other device 20 particles and 100 random numbers — whatever the
    origin and the random numbers. *)
Theorem burst_size_follows_device (element : CanvasManager.Canvas)
  (rect : CanvasManager.DOMRect) (devicePixelRatio : option Q)
  (dev : CanvasManager.Device) (x0 y0 : Q)
  (rnd : ExplosionParticles.Random) (n : nat) :
  let cm := CanvasSetup.new element rect devicePixelRatio dev in
  let burst := ExplosionParticles.new cm x0 y0 rnd n in
  (belowThresholds dev ->
   length (ExplosionParticles.particles (fst burst)) = 10%nat
   /\ snd burst = (n + 50)%nat)
  /\ (~ belowThresholds dev ->
      length (ExplosionParticles.particles (fst burst)) = 20%nat
      /\ snd burst = (n + 100)%nat).
Proof.
  cbv zeta.
  destruct (new_length (CanvasSetup.new element rect devicePixelRatio dev)
              x0 y0 rnd n) as [HL HN].
  rewrite HL, HN.
  change (CanvasManager.performanceSettings
            (CanvasSetup.new element rect devicePixelRatio dev))
    with (CanvasManager.detectPerformance dev).
  split; intros H.
  - rewrite (detect_low dev H). split; reflexivity.
  - rewrite (detect_high dev H). split; reflexivity.
Qed.

Lemma burst_size_follows_device_witness :
  length
    (ExplosionParticles.particles
       (fst (ExplosionParticles.new
               (CanvasSetup.new (CanvasManager.canvas wideSurface)
                  (CanvasManager.mkRect 390 300) (Some 3) smallPhone)
               120 80 alwaysHalf 0)))
  = 10%nat.
Proof.
  destruct (burst_size_follows_device (CanvasManager.canvas wideSurface)
              (CanvasManager.mkRect 390 300) (Some 3) smallPhone
              120 80 alwaysHalf 0) as [Hlow _].
  apply Hlow. left. vm_compute. reflexivity.
Defined.

(** ** The animation loop *)

Section Loop.

Import AnimationLoop.

Lemma remove_single (h : nat) : remove Nat.eq_dec h [h] = [].
Proof. simpl. destruct (Nat.eq_dec h h); [reflexivity | congruence]. Qed.

Lemma animate_running (this : RocketCurve.t) (host : Frames.t) :
  RocketCurve.isAnimating this = true ->
  animate (this, host)
  = ({| RocketCurve.points := RocketCurve.points this;
        RocketCurve.animationId := Some (Frames.nextHandle host);
        RocketCurve.isAnimating := true |},
     {| Frames.pending := Frames.pending host ++ [Frames.nextHandle host];
        Frames.nextHandle := S (Frames.nextHandle host) |}).
Proof. intros H. unfold animate. rewrite H. reflexivity. Qed.

Lemma wellFormed_bump (pending : list nat) (next : nat) :
  (0 < next)%nat ->
  Frames.wellFormed {| Frames.pending := pending; Frames.nextHandle := next |}
  -> Frames.wellFormed
       {| Frames.pending := [next]; Frames.nextHandle := S next |}.
Proof.
  intros Hn _. split; cbn; [lia|]. constructor; [lia | constructor].
Qed.

Lemma oneRequest_start (st : State) : oneRequest st -> oneRequest (startAnimation st).
Proof.
  destruct st as [[pts id run] [pend next]].
  unfold oneRequest, startAnimation. cbn [RocketCurve.isAnimating].
  destruct run; [auto|].
  intros (Hwf & Hid & Hp). cbn in Hp. subst pend.
  rewrite animate_running by reflexivity.
  cbn [RocketCurve.isAnimating RocketCurve.animationId RocketCurve.points
       Frames.pending Frames.nextHandle app].
  destruct Hwf as [Hn _]. cbn in Hn.
  split; [apply (wellFormed_bump [] next Hn); split; [exact Hn | constructor]|].
  split.
  - intros h E. injection E as <-. lia.
  - exists next. auto.
Qed.

Lemma oneRequest_stop (st : State) : oneRequest st -> oneRequest (stopAnimation st).
Proof.
  destruct st as [[pts id run] [pend next]].
  unfold oneRequest, stopAnimation.
  cbn [RocketCurve.isAnimating RocketCurve.animationId RocketCurve.points].
  intros (Hwf & Hid & Hp). cbn [Frames.pending Frames.nextHandle] in *.
  destruct id as [[|h]|]; cbn [truthy].
  - exfalso. specialize (Hid 0%nat eq_refl). lia.
  - assert (Hgone : remove Nat.eq_dec (S h) pend = []).
    { destruct run.
      - destruct Hp as (h' & E & ->). injection E as <-. apply remove_single.
      - subst pend. reflexivity. }
    unfold Frames.cancel, Frames.wellFormed.
    cbn [RocketCurve.isAnimating RocketCurve.animationId
         Frames.pending Frames.nextHandle].
    rewrite Hgone. destruct Hwf as [Hn _].
    repeat split; [exact Hn | constructor | apply Hid; assumption
                   | apply Hid; assumption].
  - cbn [RocketCurve.isAnimating RocketCurve.animationId].
    split; [exact Hwf|]. split; [exact Hid|].
    destruct run; [|exact Hp].
    destruct Hp as (h & Habs & _). discriminate.
Qed.

Lemma oneRequest_frame (handle : nat) (st : State) :
  oneRequest st -> oneRequest (frame handle st).
Proof.
  destruct st as [[pts id run] [pend next]].
  unfold frame, Frames.take. cbn [Frames.pending Frames.nextHandle].
  destruct (in_dec Nat.eq_dec handle pend) as [Hin|Hout]; [|auto].
  intros (Hwf & Hid & Hp). cbn [RocketCurve.isAnimating] in Hp.
  destruct run.
  - destruct Hp as (h & E & Hpend). cbn in Hpend. subst pend.
    destruct Hin as [<-|[]].
    rewrite remove_single, animate_running by reflexivity.
    unfold oneRequest.
    cbn [RocketCurve.isAnimating RocketCurve.animationId RocketCurve.points
         Frames.pending Frames.nextHandle app].
    destruct Hwf as [Hn _]. cbn in Hn.
    split; [apply (wellFormed_bump [] next Hn); split; [exact Hn|constructor]|].
    split.
    + intros h' E'. injection E' as <-. lia.
    + exists next. auto.
  - cbn in Hp. subst pend. destruct Hin.
Qed.

Lemma oneRequest_step (st : State) (op : Op) :
  oneRequest st -> oneRequest (step st op).
Proof.
  destruct op; cbn [step].
  - apply oneRequest_start.
  - apply oneRequest_stop.
  - intros H. destruct st as [[pts id run] host]. unfold reset.
    apply oneRequest_stop. exact H.
  - apply oneRequest_frame.
  - destruct st as [[pts id run] host]. exact (fun H => H).
Qed.

Lemma oneRequest_history (ops : list Op) : oneRequest (history ops).
Proof.
  unfold history.
  assert (H0 : oneRequest (RocketCurve.new, Frames.idle)).
  { unfold oneRequest, Frames.wellFormed. cbn.
    split; [split; [lia | constructor]|].
    split; [intros h E; discriminate | reflexivity]. }
  revert H0. generalize (RocketCurve.new, Frames.idle).
  induction ops as [|op ops IH]; intros st Hst; [exact Hst|].
  cbn [fold_left]. apply IH. apply oneRequest_step. exact Hst.
Qed.

End Loop.

(** X13. Whatever sequence of [startAnimation], [stopAnimation], [reset],
    frame callbacks and [addPoint] calls a curve goes through from its
    construction, at most one frame request of its loop is pending: exactly
    one while [isAnimating] holds — the one whose handle is in
    [animationId] — and none while the loop is stopped. *)
Theorem loop_keeps_one_request (ops : list AnimationLoop.Op) :
  let this := fst (AnimationLoop.history ops) in
  let host := snd (AnimationLoop.history ops) in
  (length (Frames.pending host) <= 1)%nat
  /\ (RocketCurve.isAnimating this = true ->
      exists handle,
        RocketCurve.animationId this = Some handle
        /\ Frames.pending host = [handle])
  /\ (RocketCurve.isAnimating this = false -> Frames.pending host = []).
Proof.
  cbv zeta. pose proof (oneRequest_history ops) as H.
  destruct (AnimationLoop.history ops) as [this host].
  cbn [fst snd]. destruct H as (_ & _ & Hp).
  destruct (RocketCurve.isAnimating this).
  - destruct Hp as (h & E & Hpend). rewrite Hpend.
    split; [simpl; lia|]. split; [|discriminate].
    intros _. exists h. auto.
  - rewrite Hp. split; [simpl; lia|]. split; [discriminate | reflexivity].
Qed.

Lemma loop_keeps_one_request_witness :
  Frames.pending
    (snd (AnimationLoop.history
            [AnimationLoop.Start; AnimationLoop.Frame 1; AnimationLoop.Stop]))
  = [].
Proof.
  destruct (loop_keeps_one_request
              [AnimationLoop.Start; AnimationLoop.Frame 1; AnimationLoop.Stop])
    as (_ & _ & Hoff).
  apply Hoff. reflexivity.
Defined.

(** X14. [startAnimation] on a running loop changes nothing, so calling it
    twice is the same as calling it once.  After [stopAnimation] — and
    after [reset], which calls it — the pending request is cancelled: no
    frame callback of the loop can run any more, until the loop is started
    again.  On the fields of the curve both methods do what
    [RocketCurve.stopAnimation] and [RocketCurve.reset] say. *)
Theorem start_once_stop_for_good (ops : list AnimationLoop.Op)
  (handle : nat) :
  (forall st, AnimationLoop.startAnimation (AnimationLoop.startAnimation st)
              = AnimationLoop.startAnimation st)
  /\ (let stopped := AnimationLoop.stopAnimation (AnimationLoop.history ops) in
      RocketCurve.isAnimating (fst stopped) = false
      /\ Frames.pending (snd stopped) = []
      /\ AnimationLoop.frame handle stopped = stopped)
  /\ (let cleared := AnimationLoop.reset (AnimationLoop.history ops) in
      RocketCurve.points (fst cleared) = []
      /\ Frames.pending (snd cleared) = []
      /\ AnimationLoop.frame handle cleared = cleared)
  /\ (forall rc host,
        fst (AnimationLoop.stopAnimation (rc, host))
        = RocketCurve.stopAnimation rc
        /\ fst (AnimationLoop.reset (rc, host)) = RocketCurve.reset rc).
Proof.
  split.
  { intros [[pts id run] [pend next]]. unfold AnimationLoop.startAnimation.
    cbn [RocketCurve.isAnimating]. destruct run; cbn [RocketCurve.isAnimating].
    - reflexivity.
    - rewrite animate_running by reflexivity. reflexivity. }
  assert (Hdead : forall st, AnimationLoop.oneRequest st ->
            RocketCurve.isAnimating (fst (AnimationLoop.stopAnimation st))
            = false
            /\ Frames.pending (snd (AnimationLoop.stopAnimation st)) = []
            /\ AnimationLoop.frame handle (AnimationLoop.stopAnimation st)
               = AnimationLoop.stopAnimation st).
  { intros st Hst. pose proof (oneRequest_stop st Hst) as H.
    assert (Hoff : RocketCurve.isAnimating
                     (fst (AnimationLoop.stopAnimation st)) = false).
    { destruct st as [[pts id run] host]. unfold AnimationLoop.stopAnimation.
      cbn [RocketCurve.animationId].
      destruct (AnimationLoop.truthy id); [destruct id|]; reflexivity. }
    destruct (AnimationLoop.stopAnimation st) as [this host].
    cbn [fst snd] in *. destruct H as (_ & _ & Hp). rewrite Hoff in Hp.
    split; [exact Hoff|]. split; [exact Hp|].
    unfold AnimationLoop.frame, Frames.take. rewrite Hp.
    destruct (in_dec Nat.eq_dec handle []) as [[]|]; reflexivity. }
  split; [cbv zeta; apply Hdead; apply oneRequest_history|].
  split.
  2:{ intros [pts id run] host.
      unfold AnimationLoop.reset, AnimationLoop.stopAnimation,
        RocketCurve.reset, RocketCurve.stopAnimation.
      cbn [RocketCurve.animationId RocketCurve.points
           RocketCurve.isAnimating].
      destruct (AnimationLoop.truthy id); [destruct id|]; split; reflexivity. }
  - cbv zeta. pose proof (oneRequest_history ops) as Hst.
    destruct (AnimationLoop.history ops) as [[pts id run] host].
    unfold AnimationLoop.reset.
    destruct (Hdead ({| RocketCurve.points := [];
                        RocketCurve.animationId := id;
                        RocketCurve.isAnimating := run |}, host) Hst)
      as (_ & Hp & Hf).
    split; [|split; [exact Hp | exact Hf]].
    unfold AnimationLoop.stopAnimation. cbn [RocketCurve.animationId].
    destruct (AnimationLoop.truthy id); [destruct id|]; reflexivity.
Qed.

(** X15. While the loop runs, the frame callback asks for the next frame:
    running the pending request leaves the loop running with exactly one
    new request pending, under a fresh handle, and the point buffer
    untouched. *)
Theorem frame_requests_the_next (ops : list AnimationLoop.Op) :
  let st := AnimationLoop.history ops in
  RocketCurve.isAnimating (fst st) = true ->
  exists handle handle' : nat,
    Frames.pending (snd st) = [handle]
    /\ (handle < handle')%nat
    /\ Frames.pending (snd (AnimationLoop.frame handle st)) = [handle']
    /\ RocketCurve.animationId (fst (AnimationLoop.frame handle st))
       = Some handle'
    /\ RocketCurve.isAnimating (fst (AnimationLoop.frame handle st)) = true
    /\ RocketCurve.points (fst (AnimationLoop.frame handle st))
       = RocketCurve.points (fst st).
Proof.
  cbv zeta. pose proof (oneRequest_history ops) as H.
  destruct (AnimationLoop.history ops) as [[pts id run] [pend next]].
  cbn [fst snd RocketCurve.isAnimating]. intros ->.
  destruct H as (_ & Hid & (h & E & Hpend)).
  cbn in E, Hpend. subst id pend.
  specialize (Hid h eq_refl). cbn in Hid.
  exists h, next. split; [reflexivity|]. split; [lia|].
  unfold AnimationLoop.frame, Frames.take.
  cbn [Frames.pending Frames.nextHandle].
  destruct (in_dec Nat.eq_dec h [h]) as [_|Hout]; [|exfalso; apply Hout; left; reflexivity].
  rewrite remove_single, animate_running by reflexivity.
  cbn. repeat split.
Qed.

Lemma frame_requests_the_next_witness :
  exists handle handle' : nat,
    Frames.pending
      (snd (AnimationLoop.history [AnimationLoop.Start])) = [handle]
    /\ (handle < handle')%nat.
Proof.
  destruct (frame_requests_the_next [AnimationLoop.Start] eq_refl)
    as (h & h' & E & Hlt & _).
  exists h, h'. split; [exact E | exact Hlt].
Defined.

(** ** The debounced resize handler *)

Section Debounce.

Import ResizeHandler.

Lemma onResize_pending (s : t) :
  settled s ->
  pendingSince 0 (onResize s)
  /\ manager (onResize s) = manager s
  /\ layout (onResize s) = layout s.
Proof.
  intros Hs. unfold onResize.
  assert (Hq : Timers.queue (Timers.clearTimeout (resizeTimeout s) (timers s))
               = []
               /\ Timers.now (Timers.clearTimeout (resizeTimeout s) (timers s))
                  = Timers.now (timers s)).
  { destruct Hs as [Hq|(since & id & E & _ & Hq & _)].
    - unfold quiet in Hq. unfold Timers.clearTimeout.
      destruct (resizeTimeout s); cbn; rewrite ?Hq; auto.
    - rewrite E. unfold Timers.clearTimeout. cbn. rewrite Hq. cbn.
      rewrite Nat.eqb_refl. auto. }
  destruct Hq as [Hq Hnow].
  unfold Timers.setTimeout. rewrite Hq, Hnow.
  cbn [Timers.insert manager layout].
  split; [|auto].
  exists (Timers.nextHandle (Timers.clearTimeout (resizeTimeout s) (timers s))).
  cbn. repeat split; try lia.
  rewrite Nat.sub_0_r. reflexivity.
Qed.

Lemma elapse_quiet (dt : nat) (s : t) :
  quiet s -> quiet (elapse dt s) /\ manager (elapse dt s) = manager s
             /\ layout (elapse dt s) = layout s.
Proof.
  unfold quiet, elapse, Timers.elapse. intros ->. cbn. auto.
Qed.

Lemma elapse_pending_early (dt since : nat) (s : t) :
  pendingSince since s -> (since + dt < 150)%nat ->
  pendingSince (since + dt) (elapse dt s)
  /\ manager (elapse dt s) = manager s
  /\ layout (elapse dt s) = layout s.
Proof.
  intros (id & E & Hs & Hq & Hnow) Hdt.
  unfold elapse, Timers.elapse. rewrite Hq. cbn [filter Timers.due].
  destruct (Nat.leb_spec (Timers.now (timers s) - since + 150)
                         (Timers.now (timers s) + dt)); [lia|].
  cbn. split; [|auto].
  exists id. cbn. repeat split; try assumption; try lia.
  f_equal. f_equal. lia.
Qed.

Lemma elapse_pending_late (dt since : nat) (s : t) :
  pendingSince since s -> (150 <= since + dt)%nat ->
  quiet (elapse dt s)
  /\ manager (elapse dt s) = CanvasManager.resize (layout s) (manager s)
  /\ layout (elapse dt s) = layout s.
Proof.
  intros (id & E & Hs & Hq & Hnow) Hdt.
  unfold elapse, Timers.elapse, quiet. rewrite Hq. cbn [filter Timers.due].
  destruct (Nat.leb_spec (Timers.now (timers s) - since + 150)
                         (Timers.now (timers s) + dt)); [|lia].
  cbn. auto.
Qed.

Lemma step_settled (s : t) (op : Op) : settled s -> settled (step s op).
Proof.
  intros Hs. destruct op as [|dt|rect]; cbn [step].
  - right. exists 0%nat. apply onResize_pending. exact Hs.
  - destruct Hs as [Hq|(since & Hp)].
    + left. apply elapse_quiet. exact Hq.
    + destruct (Nat.lt_ge_cases (since + dt) 150) as [Hlt|Hge].
      * right. exists (since + dt)%nat.
        apply elapse_pending_early; assumption.
      * left. apply (elapse_pending_late dt since); assumption.
  - exact Hs.
Qed.

Lemma run_settled (ops : list Op) (s : t) : settled s -> settled (run ops s).
Proof.
  revert s. induction ops as [|op ops IH]; intros s Hs; [exact Hs|].
  unfold run in *. cbn [fold_left]. apply IH. apply step_settled. exact Hs.
Qed.

Lemma setup_settled (cm : CanvasManager.t) (rect : CanvasManager.DOMRect) :
  settled (setup cm rect).
Proof. left. reflexivity. Qed.

(** While events keep coming, nothing fires. *)
Lemma run_calm (ops : list Op) :
  forall (since : nat) (s : t),
  pendingSince since s -> calm since ops ->
  pendingSince (age since ops) (run ops s)
  /\ manager (run ops s) = manager s
  /\ layout (run ops s) = layoutAfter (layout s) ops.
Proof.
  induction ops as [|op ops IH]; intros since s Hp Hc.
  - cbn. auto.
  - unfold run in *. cbn [fold_left]. destruct op as [|dt|rect]; cbn [step].
    + destruct (onResize_pending s) as (Hp' & Hm & Hl);
        [right; exists since; exact Hp|].
      destruct (IH 0%nat (onResize s) Hp' Hc) as (H1 & H2 & H3).
      cbn [age layoutAfter]. rewrite H2, H3, Hm, Hl. auto.
    + destruct Hc as [Hdt Hc].
      destruct (elapse_pending_early dt since s Hp Hdt) as (Hp' & Hm & Hl).
      destruct (IH (since + dt)%nat (elapse dt s) Hp' Hc) as (H1 & H2 & H3).
      cbn [age layoutAfter]. rewrite H2, H3, Hm, Hl. auto.
    + assert (Hp' : pendingSince since (relayout rect s)) by exact Hp.
      destruct (IH since (relayout rect s) Hp' Hc) as (H1 & H2 & H3).
      cbn [age layoutAfter]. rewrite H2, H3. auto.
Qed.

End Debounce.

(** X16. A resize event never resizes the canvas itself, and as long as
    resize events keep arriving less than 150 ms apart no [resize()] runs:
    whatever happened before, after a resize event followed by any such
    sequence of events, layout changes and passing time, the manager is
    exactly as it was before the event, and exactly one timer is pending,
    due 150 ms after the latest event. *)
Theorem resize_waits_for_quiet (cm : CanvasManager.t)
  (rect : CanvasManager.DOMRect) (before burst : list ResizeHandler.Op) :
  calm 0 burst ->
  let s0 := ResizeHandler.run before (ResizeHandler.setup cm rect) in
  let s :=
    ResizeHandler.run (before ++ ResizeHandler.ResizeEvent :: burst)
      (ResizeHandler.setup cm rect) in
  ResizeHandler.manager s = ResizeHandler.manager s0
  /\ ResizeHandler.pendingSince (age 0 burst) s.
Proof.
  intros Hc. cbv zeta.
  unfold ResizeHandler.run. rewrite fold_left_app. cbn [fold_left].
  fold (ResizeHandler.run before (ResizeHandler.setup cm rect)).
  set (s0 := ResizeHandler.run before (ResizeHandler.setup cm rect)).
  assert (Hs0 : settled s0) by (apply run_settled, setup_settled).
  destruct (onResize_pending s0 Hs0) as (Hp & Hm & _).
  destruct (run_calm burst 0 (ResizeHandler.onResize s0) Hp Hc)
    as (Hp' & Hm' & _).
  unfold ResizeHandler.run in *. cbn [ResizeHandler.step].
  rewrite Hm', Hm. auto.
Qed.

Lemma resize_waits_for_quiet_witness :
  ResizeHandler.manager
    (ResizeHandler.run
       [ ResizeHandler.ResizeEvent; ResizeHandler.Elapse 100;
         ResizeHandler.Relayout (CanvasManager.mkRect 640 360);
         ResizeHandler.ResizeEvent; ResizeHandler.Elapse 149 ]
       (ResizeHandler.setup wideSurface (CanvasManager.mkRect 800 400)))
  = wideSurface.
Proof.
  apply (resize_waits_for_quiet wideSurface (CanvasManager.mkRect 800 400) []
           [ ResizeHandler.Elapse 100;
             ResizeHandler.Relayout (CanvasManager.mkRect 640 360);
             ResizeHandler.ResizeEvent; ResizeHandler.Elapse 149 ]).
  simpl. lia.
Defined.



(** ** [throttle] *)

Section Throttling.

Import Throttle.

Context {Args : Type}.
Variable limit : nat.

Lemma lastTime_snoc (log : list (nat * Args)) (time : nat) (args : Args) :
  lastTime (log ++ [(time, args)]) = Some time.
Proof. unfold lastTime. rewrite rev_unit. reflexivity. Qed.

Lemma spaced_snoc (log : list (nat * Args)) (time : nat) (args : Args) :
  spaced limit log ->
  match lastTime log with
  | None => True
  | Some latest => (latest + limit <= time)%nat
  end ->
  spaced limit (log ++ [(time, args)]).
Proof.
  induction log as [|[t a] log IH]; intros Hs Hl.
  - cbn. auto.
  - cbn [app spaced] in *. destruct Hs as [Hnext Hs].
    destruct log as [|[t' a'] log'].
    + cbn. unfold lastTime in Hl. cbn in Hl. auto.
    + split; [exact Hnext|]. apply IH; [exact Hs|].
      unfold lastTime in *. cbn [rev] in *.
      destruct (rev log' ++ [(t', a')]) as [|[u b] l] eqn:E.
      * destruct (rev log'); discriminate.
      * cbn [app] in Hl. exact Hl.
Qed.

Lemma spaced_tail (front log : list (nat * Args)) :
  spaced limit (front ++ log) -> spaced limit log.
Proof.
  induction front as [|[t a] front IH]; intros H; [exact H|].
  apply IH. cbn [app spaced] in H. apply H.
Qed.

Lemma tick_tick (dt dt' : nat) (s : t Args) :
  tick dt' (tick dt s) = tick (dt + dt') s.
Proof.
  unfold tick. cbn [inThrottle timers executed Timers.now Timers.queue
                    Timers.nextHandle].
  rewrite Nat.add_assoc. reflexivity.
Qed.

(** A plain [func] returns, and only takes time. *)
Lemma func_plain (b : Behaviour Args) :
  plain b = true ->
  forall s : t Args, exists dt, func limit b s = (Returned, tick dt s).
Proof.
  induction b as [| |dt next IH|args inner _ next _ handler _];
    cbn [plain]; intros Hb s; try discriminate.
  - exists 0%nat. cbn [func]. unfold tick. rewrite Nat.add_0_r.
    destruct s as [i [n q h] e]. reflexivity.
  - destruct (IH Hb (tick dt s)) as [dt' Hf]. exists (dt + dt')%nat.
    cbn [func]. rewrite Hf, tick_tick. reflexivity.
Qed.

Lemma call_throttled (args : Args) (b : Behaviour Args) (s : t Args) :
  inThrottle s = true -> call limit args b s = (Returned, s).
Proof. intros H. unfold call, guarded. rewrite H. reflexivity. Qed.

(** An open gate executes a plain [func] and sets the release timer when
    [func] has returned. *)
Lemma call_open (args : Args) (b : Behaviour Args) (s : t Args) :
  inThrottle s = false -> plain b = true ->
  exists dt,
    call limit args b s
    = (Returned,
       {| inThrottle := true;
          timers :=
            snd (Timers.setTimeout release limit (timers (tick dt s)));
          executed := executed s ++ [(Timers.now (timers s), args)] |}).
Proof.
  intros Ht Hb. unfold call, guarded. rewrite Ht. cbn [negb].
  destruct (func_plain b Hb
              {| inThrottle := false; timers := timers s;
                 executed := executed s ++ [(Timers.now (timers s), args)] |})
    as [dt Hf].
  exists dt. rewrite Hf. reflexivity.
Qed.

(** A throwing [func] is executed and leaves the gate as it was: open,
    with no release timer. *)
Lemma call_throws (args : Args) (s : t Args) :
  inThrottle s = false ->
  call limit args Throw s
  = (Thrown,
     {| inThrottle := false;
        timers := timers s;
        executed := executed s ++ [(Timers.now (timers s), args)] |}).
Proof. intros Ht. unfold call, guarded. rewrite Ht. reflexivity. Qed.

(** Whatever [func] does, the log only grows. *)
Lemma func_grows (b : Behaviour Args) :
  forall s : t Args,
  exists more, executed (snd (func limit b s)) = executed s ++ more.
Proof.
  induction b as [| |dt next IH|args inner IHi next IHn handler IHh];
    intros s; cbn [func].
  - exists []. cbn. symmetry. apply app_nil_r.
  - exists []. cbn. symmetry. apply app_nil_r.
  - destruct (IH (tick dt s)) as [more H]. exists more. exact H.
  - unfold guarded. destruct (inThrottle s); cbn [negb].
    + apply IHn.
    + set (s0 := {| inThrottle := false; timers := timers s;
                    executed := executed s ++ _ |}).
      destruct (IHi s0) as [more1 H1].
      destruct (func limit inner s0) as [[] s1]; cbn [snd] in H1.
      * destruct (Timers.setTimeout release limit (timers s1)) as [id host].
        set (s2 := {| inThrottle := true; timers := host;
                      executed := executed s1 |}).
        destruct (IHn s2) as [more2 H2]. rewrite H2. subst s2 s0.
        cbn [executed] in *. rewrite H1, <- !app_assoc.
        eexists. reflexivity.
      * destruct (IHh s1) as [more2 H2]. rewrite H2, H1. subst s0.
        cbn [executed]. rewrite <- !app_assoc. eexists. reflexivity.
Qed.

Lemma call_grows (args : Args) (b : Behaviour Args) (s : t Args) :
  inThrottle s = false ->
  exists more,
    executed (snd (call limit args b s))
    = executed s ++ (Timers.now (timers s), args) :: more.
Proof.
  intros Ht. unfold call, guarded. rewrite Ht. cbn [negb].
  set (s0 := {| inThrottle := false; timers := timers s;
                executed := executed s ++ _ |}).
  destruct (func_grows b s0) as [more H].
  destruct (func limit b s0) as [[] s1]; cbn [snd] in *.
  - destruct (Timers.setTimeout release limit (timers s1)) as [id host].
    cbn [executed]. rewrite H. subst s0. cbn [executed].
    rewrite <- app_assoc. exists more. reflexivity.
  - rewrite H. subst s0. cbn [executed]. rewrite <- app_assoc.
    exists more. reflexivity.
Qed.

Lemma invariant_call (args : Args) (b : Behaviour Args) (s : t Args) :
  plain b = true ->
  throttleInvariant limit s ->
  throttleInvariant limit (snd (call limit args b s)).
Proof.
  intros Hb [Hs Hl]. destruct (inThrottle s) eqn:Ht.
  - rewrite call_throttled by exact Ht. split; [exact Hs|].
    cbn [snd]. rewrite Ht. exact Hl.
  - destruct (call_open args b s Ht Hb) as [dt ->]. cbn [snd].
    unfold throttleInvariant.
    cbn [executed inThrottle timers]. rewrite lastTime_snoc.
    assert (Hq : Timers.queue (timers s) = []).
    { destruct (lastTime (executed s)); [apply Hl | apply Hl]. }
    split.
    + apply spaced_snoc; [exact Hs|].
      destruct (lastTime (executed s)); [apply Hl | exact I].
    + unfold Timers.setTimeout, tick. cbn. rewrite Hq. cbn.
      split; [lia|]. do 2 eexists. split; [reflexivity | lia].
Qed.

Lemma invariant_tick (dt : nat) (s : t Args) :
  throttleInvariant limit s -> throttleInvariant limit (tick dt s).
Proof.
  intros [Hs Hl]. unfold throttleInvariant, tick.
  cbn [executed inThrottle timers Timers.now Timers.queue].
  split; [exact Hs|].
  destruct (lastTime (executed s)) as [latest|]; [|exact Hl].
  destruct Hl as [Hle Hl]. split; [lia|].
  destruct (inThrottle s); [exact Hl|].
  destruct Hl as [Hq Hold]. split; [exact Hq | lia].
Qed.

Lemma invariant_runTimer (s : t Args) :
  throttleInvariant limit s -> throttleInvariant limit (runTimer s).
Proof.
  intros [Hs Hl]. unfold runTimer.
  destruct (Timers.queue (timers s)) as [|timer rest] eqn:Hq;
    [split; [exact Hs | rewrite Hq; exact Hl]|].
  destruct (Nat.leb_spec (Timers.due timer) (Timers.now (timers s)))
    as [Hdue|Hdue]; [|split; [exact Hs | rewrite Hq; exact Hl]].
  destruct timer as [id due []]. cbn [Timers.callback Timers.due fire] in *.
  unfold throttleInvariant.
  cbn [executed inThrottle timers Timers.now Timers.queue].
  split; [exact Hs|].
  destruct (lastTime (executed s)) as [latest|];
    [|destruct Hl; discriminate].
  destruct Hl as [Hle Hl]. split; [exact Hle|].
  destruct (inThrottle s); [|destruct Hl; discriminate].
  destruct Hl as (id' & due' & Heq & Hlate). injection Heq as -> -> ->.
  split; [reflexivity | lia].
Qed.

Lemma orderly_cons (op : Op (Args:=Args)) (ops : list Op) :
  orderly (op :: ops) = true ->
  match op with Call _ b => plain b = true | _ => True end
  /\ orderly ops = true.
Proof.
  unfold orderly. cbn [forallb]. intros H.
  apply andb_true_iff in H. destruct H as [H1 H2].
  split; [|exact H2]. destruct op; auto.
Qed.

Lemma invariant_step (op : Op (Args:=Args)) (s : t Args) :
  match op with Call _ b => plain b = true | _ => True end ->
  throttleInvariant limit s -> throttleInvariant limit (step limit s op).
Proof.
  intros Hop Hs. destruct op; cbn [step].
  - apply invariant_call; assumption.
  - apply invariant_tick. exact Hs.
  - apply invariant_runTimer. exact Hs.
Qed.

Lemma invariant_run (ops : list (Op (Args:=Args))) :
  orderly ops = true -> throttleInvariant limit (run limit ops).
Proof.
  unfold run.
  assert (H0 : throttleInvariant limit (fresh (Args:=Args))).
  { split; cbn; auto. }
  revert H0. generalize (fresh (Args:=Args)).
  induction ops as [|op ops IH]; intros s Hs Ho; [exact Hs|].
  apply orderly_cons in Ho. destruct Ho as [Hop Ho].
  cbn [fold_left]. apply IH; [|exact Ho].
  apply invariant_step; assumption.
Qed.

(** Time passing and timers leave the log alone. *)
Lemma runTimer_keeps (s : t Args) :
  executed (runTimer s) = executed s
  /\ Timers.now (timers (runTimer s)) = Timers.now (timers s).
Proof.
  unfold runTimer. destruct (Timers.queue (timers s)) as [|timer rest];
    [auto|].
  destruct (Timers.due timer <=? Timers.now (timers s))%nat; [|auto].
  destruct (Timers.callback timer). cbn. auto.
Qed.

Lemma runTimer_open (s : t Args) :
  inThrottle s = false -> inThrottle (runTimer s) = false.
Proof.
  intros Ht. unfold runTimer.
  destruct (Timers.queue (timers s)) as [|timer rest]; [exact Ht|].
  destruct (Timers.due timer <=? Timers.now (timers s))%nat; [|exact Ht].
  destruct (Timers.callback timer). reflexivity.
Qed.

(** With a plain [func], executions are calls of the host, run at the
    moment they are made. *)
Lemma executed_are_calls (ops : list (Op (Args:=Args))) :
  orderly ops = true ->
  forall s : t Args,
  incl (executed (fold_left (step limit) ops s))
       (executed s ++ callsMade limit s ops)
  /\ exists more, executed (fold_left (step limit) ops s) = executed s ++ more.
Proof.
  induction ops as [|op ops IH]; intros Ho s.
  - cbn. rewrite app_nil_r. split; [apply incl_refl | exists []].
    symmetry. apply app_nil_r.
  - apply orderly_cons in Ho. destruct Ho as [Hop Ho].
    cbn [fold_left callsMade].
    destruct (IH Ho (step limit s op)) as [Hin (more & Hmore)].
    destruct op as [args b|dt|]; cbn [step] in *.
    + destruct (inThrottle s) eqn:Ht.
      * rewrite call_throttled in * by exact Ht. cbn [snd] in *. split.
        -- intros e He. apply Hin in He. apply in_app_or in He.
           apply in_or_app. destruct He; [left|right; right]; assumption.
        -- exists more. exact Hmore.
      * destruct (call_open args b s Ht Hop) as [dt Hc].
        rewrite Hc in *. cbn [snd executed] in *. split.
        -- intros e He. apply Hin in He. rewrite <- app_assoc in He.
           exact He.
        -- exists ((Timers.now (timers s), args) :: more).
           rewrite Hmore, <- app_assoc. reflexivity.
    + cbn [app]. split; [exact Hin | exists more; exact Hmore].
    + destruct (runTimer_keeps s) as [He _]. rewrite He in *. cbn [app].
      split; [exact Hin | exists more; exact Hmore].
Qed.

(** The first call the host makes is the first executed. *)
Lemma first_call_executes (ops : list (Op (Args:=Args))) :
  orderly ops = true ->
  forall s : t Args,
  executed s = [] -> inThrottle s = false ->
  hd_error (executed (fold_left (step limit) ops s))
  = hd_error (callsMade limit s ops).
Proof.
  induction ops as [|op ops IH]; intros Ho s He Ht.
  - cbn. rewrite He. reflexivity.
  - apply orderly_cons in Ho. destruct Ho as [Hop Ho].
    cbn [fold_left callsMade]. destruct op as [args b|dt|]; cbn [step app].
    + destruct (executed_are_calls ops Ho (snd (call limit args b s)))
        as [_ (more & ->)].
      destruct (call_open args b s Ht Hop) as [dt ->].
      cbn [snd executed]. rewrite He. reflexivity.
    + apply IH; [exact Ho | exact He | exact Ht].
    + apply IH; [exact Ho | | apply runTimer_open; exact Ht].
      destruct (runTimer_keeps s) as [-> _]. exact He.
Qed.

Lemma run_snoc (ops more : list (Op (Args:=Args))) :
  run limit (ops ++ more) = fold_left (step limit) more (run limit ops).
Proof. unfold run. apply fold_left_app. Qed.

End Throttling.

(** X18. A throttled function whose [func] returns normally and does not
    call the throttled function itself executes at most once per [limit]
    milliseconds: in every history of such calls, of passing time and of
    timers run on time or late, however long [func] takes, successive
    executions start at least [limit] apart, every execution is one of the
    host's calls, run at the moment it is made, and the first call made is
    executed.  Neither condition can go: with the gate open, a [func] that
    throws is executed again by the next call at the same instant, and a
    [func] that calls the throttled function is executed by that nested
    call at once, so with a positive [limit] the executions are not
    spaced. *)
Theorem throttle_spaces_executions (Args : Type) (limit : nat)
  (ops : list (Throttle.Op (Args:=Args))) :
  let s := Throttle.run limit ops in
  let now := Timers.now (Throttle.timers s) in
  (Throttle.orderly ops = true ->
   Throttle.spaced limit (Throttle.executed s)
   /\ incl (Throttle.executed s) (Throttle.callsMade limit Throttle.fresh ops)
   /\ hd_error (Throttle.executed s)
      = hd_error (Throttle.callsMade limit Throttle.fresh ops))
  /\ (Throttle.inThrottle s = false ->
      forall (a a' : Args) (b inner next handler : Throttle.Behaviour Args),
      let thrown :=
        Throttle.executed
          (Throttle.run limit
             (ops ++ [Throttle.Call a Throttle.Throw; Throttle.Call a' b])) in
      let reentered :=
        Throttle.executed
          (Throttle.run limit
             (ops ++ [Throttle.Call a
                        (Throttle.Reenter a' inner next handler)])) in
      (exists more,
         thrown = Throttle.executed s ++ (now, a) :: (now, a') :: more)
      /\ (exists more,
            reentered = Throttle.executed s ++ (now, a) :: (now, a') :: more)
      /\ ((0 < limit)%nat ->
          ~ Throttle.spaced limit thrown
          /\ ~ Throttle.spaced limit reentered)).
Proof.
  cbv zeta. split.
  - intros Ho. split; [apply invariant_run; exact Ho|]. split.
    + apply (executed_are_calls limit ops Ho Throttle.fresh).
    + apply (first_call_executes limit ops Ho Throttle.fresh); reflexivity.
  - intros Ht a a' b inner next handler.
    set (s := Throttle.run limit ops) in *.
    assert (Hthrown : exists more,
              Throttle.executed
                (Throttle.run limit
                   (ops ++ [Throttle.Call a Throttle.Throw;
                            Throttle.Call a' b]))
              = Throttle.executed s
                ++ (Timers.now (Throttle.timers s), a)
                   :: (Timers.now (Throttle.timers s), a') :: more).
    { rewrite run_snoc. fold s. cbn [fold_left Throttle.step].
      rewrite call_throws by exact Ht. cbn [snd].
      match goal with
      | |- context [Throttle.call limit a' b ?s1] =>
          destruct (call_grows limit a' b s1 eq_refl) as [more Hm]
      end.
      exists more. rewrite Hm. cbn [Throttle.executed Throttle.timers].
      rewrite <- app_assoc. reflexivity. }
    assert (Hre : exists more,
              Throttle.executed
                (Throttle.run limit
                   (ops ++ [Throttle.Call a
                              (Throttle.Reenter a' inner next handler)]))
              = Throttle.executed s
                ++ (Timers.now (Throttle.timers s), a)
                   :: (Timers.now (Throttle.timers s), a') :: more).
    { rewrite run_snoc. fold s. cbn [fold_left Throttle.step].
      unfold Throttle.call at 1. unfold Throttle.guarded at 1.
      rewrite Ht. cbn [negb Throttle.func].
      set (s0 := Throttle.mk false (Throttle.timers s) _).
      destruct (call_grows limit a' inner s0 eq_refl) as [more1 H1].
      unfold Throttle.call in H1.
      destruct (Throttle.guarded limit (Throttle.func limit inner) a' s0)
        as [[] s1]; cbn [snd] in H1.
      - destruct (func_grows limit next s1) as [more2 H2].
        destruct (Throttle.func limit next s1) as [[] s2]; cbn [snd] in *.
        + destruct (Timers.setTimeout Throttle.release limit
                      (Throttle.timers s2)) as [id host].
          cbn [Throttle.executed]. rewrite H2, H1. subst s0.
          cbn [Throttle.executed Throttle.timers].
          rewrite <- !app_assoc. eexists. reflexivity.
        + rewrite H2, H1. subst s0.
          cbn [Throttle.executed Throttle.timers].
          rewrite <- !app_assoc. eexists. reflexivity.
      - destruct (func_grows limit handler s1) as [more2 H2].
        destruct (Throttle.func limit handler s1) as [[] s2]; cbn [snd] in *.
        + destruct (Timers.setTimeout Throttle.release limit
                      (Throttle.timers s2)) as [id host].
          cbn [Throttle.executed]. rewrite H2, H1. subst s0.
          cbn [Throttle.executed Throttle.timers].
          rewrite <- !app_assoc. eexists. reflexivity.
        + rewrite H2, H1. subst s0.
          cbn [Throttle.executed Throttle.timers].
          rewrite <- !app_assoc. eexists. reflexivity. }
    split; [exact Hthrown|]. split; [exact Hre|].
    intros Hlimit.
    destruct Hthrown as [m1 ->]. destruct Hre as [m2 ->].
    split; intros H; apply spaced_tail in H; cbn in H; lia.
Qed.

Lemma throttle_spaces_executions_witness :
  let ops :=
    [ Throttle.Call 1%nat (Throttle.Spend 5 Throttle.Return);
      Throttle.Tick 40; Throttle.Call 2%nat Throttle.Return;
      Throttle.Tick 70; Throttle.RunTimer;
      Throttle.Call 3%nat Throttle.Return ] in
  Throttle.orderly ops = true
  /\ Throttle.spaced 100 (Throttle.executed (Throttle.run 100 ops)).
Proof.
  cbv zeta. split; [reflexivity|].
  exact (proj1 (proj1 (throttle_spaces_executions nat 100
                         [ Throttle.Call 1%nat
                             (Throttle.Spend 5 Throttle.Return);
                           Throttle.Tick 40;
                           Throttle.Call 2%nat Throttle.Return;
                           Throttle.Tick 70; Throttle.RunTimer;
                           Throttle.Call 3%nat Throttle.Return ])
                  eq_refl)).
Defined.

(** X19. The gate of a throttled function whose [func] is plain is closed
    exactly while its release timer is pending, and that timer is due
    [limit] milliseconds or more after the latest execution started.  A
    call made when no timer is pending is executed at once.  While the
    timer is pending a call is dropped, however much time has passed; once
    the timer is due and the host has run it, the next call is executed. *)
Theorem throttle_reopens (Args : Type) (limit : nat)
  (ops : list (Throttle.Op (Args:=Args))) :
  Throttle.orderly ops = true ->
  let s := Throttle.run limit ops in
  let now := Timers.now (Throttle.timers s) in
  let after (more : list Throttle.Op) :=
    Throttle.executed (Throttle.run limit (ops ++ more)) in
  (Throttle.inThrottle s = true <-> Timers.queue (Throttle.timers s) <> [])
  /\ (forall id due cb,
        Timers.queue (Throttle.timers s) = [Timers.mkTimer id due cb] ->
        exists latest,
          lastTime (Throttle.executed s) = Some latest
          /\ (latest + limit <= due)%nat)
  /\ (Timers.queue (Throttle.timers s) = [] ->
      forall a b, Throttle.plain b = true ->
      after [Throttle.Call a b] = Throttle.executed s ++ [(now, a)])
  /\ (Timers.queue (Throttle.timers s) <> [] ->
      forall dt a b,
      after [Throttle.Tick dt; Throttle.Call a b] = Throttle.executed s)
  /\ (forall id due cb dt,
        Timers.queue (Throttle.timers s) = [Timers.mkTimer id due cb] ->
        (due <= now + dt)%nat ->
        forall a b, Throttle.plain b = true ->
        after [Throttle.Tick dt; Throttle.RunTimer; Throttle.Call a b]
        = Throttle.executed s ++ [((now + dt)%nat, a)]).
Proof.
  intros Ho. cbv zeta.
  pose proof (invariant_run limit ops Ho) as [_ Hl].
  set (s := Throttle.run limit ops) in *.
  assert (Hgate : Throttle.inThrottle s = true
                  <-> Timers.queue (Throttle.timers s) <> []).
  { destruct (lastTime (Throttle.executed s)) as [latest|].
    - destruct Hl as [_ Hl]. destruct (Throttle.inThrottle s).
      + destruct Hl as (id & due & -> & _). split; [discriminate | auto].
      + destruct Hl as [-> _]. split; [discriminate | congruence].
    - destruct Hl as [-> ->]. split; [discriminate | congruence]. }
  assert (Hopen : Timers.queue (Throttle.timers s) = [] ->
                  Throttle.inThrottle s = false).
  { intros Hq. destruct (Throttle.inThrottle s); [|reflexivity].
    exfalso. apply (proj1 Hgate); auto. }
  split; [exact Hgate|]. split; [|split; [|split]].
  - intros id due cb Hq.
    destruct (lastTime (Throttle.executed s)) as [latest|].
    + exists latest. split; [reflexivity|]. destruct Hl as [_ Hl].
      destruct (Throttle.inThrottle s).
      * destruct Hl as (id' & due' & Hq' & Hdue). rewrite Hq in Hq'.
        injection Hq' as _ -> _. exact Hdue.
      * destruct Hl as [Hq' _]. rewrite Hq in Hq'. discriminate.
    + destruct Hl as [_ Hq']. rewrite Hq in Hq'. discriminate.
  - intros Hq a b Hb. rewrite run_snoc. fold s.
    cbn [fold_left Throttle.step].
    destruct (call_open limit a b s (Hopen Hq) Hb) as [dt ->]. reflexivity.
  - intros Hq dt a b. rewrite run_snoc. fold s.
    cbn [fold_left Throttle.step].
    rewrite call_throttled; [reflexivity|].
    cbn [Throttle.tick Throttle.inThrottle]. apply Hgate. exact Hq.
  - intros id due cb dt Hq Hdue a b Hb. rewrite run_snoc. fold s.
    cbn [fold_left Throttle.step].
    assert (Hr : Throttle.runTimer (Throttle.tick dt s)
                 = {| Throttle.inThrottle := false;
                      Throttle.timers :=
                        {| Timers.now := Timers.now (Throttle.timers s) + dt;
                           Timers.queue := [];
                           Timers.nextHandle :=
                             Timers.nextHandle (Throttle.timers s) |};
                      Throttle.executed := Throttle.executed s |}).
    { unfold Throttle.runTimer, Throttle.tick.
      cbn [Throttle.timers Throttle.inThrottle Throttle.executed
           Timers.queue Timers.now Timers.nextHandle].
      rewrite Hq. cbn [Timers.due Timers.callback].
      destruct (Nat.leb_spec due (Timers.now (Throttle.timers s) + dt));
        [|lia].
      destruct cb. reflexivity. }
    rewrite Hr.
    match goal with
    | |- context [Throttle.call limit a b ?s1] =>
        destruct (call_open limit a b s1 eq_refl Hb) as [dt' ->]
    end.
    reflexivity.
Qed.

Lemma throttle_reopens_witness :
  let ops :=
    [ Throttle.Call 1%nat Throttle.Return; Throttle.Tick 40;
      Throttle.Call 2%nat Throttle.Return; Throttle.Tick 60 ] in
  Throttle.orderly ops = true
  /\ Throttle.executed
       (Throttle.run 100
          (ops ++ [Throttle.Tick 25; Throttle.Call 3%nat Throttle.Return]))
     = [ (0%nat, 1%nat) ]
  /\ Throttle.executed
       (Throttle.run 100
          (ops ++ [Throttle.Tick 25; Throttle.RunTimer;
                   Throttle.Call 3%nat Throttle.Return]))
     = [ (0%nat, 1%nat); (125%nat, 3%nat) ].
Proof.
  cbv zeta. split; [reflexivity|].
  pose proof (throttle_reopens nat 100
                [ Throttle.Call 1%nat Throttle.Return; Throttle.Tick 40;
                  Throttle.Call 2%nat Throttle.Return; Throttle.Tick 60 ]
                eq_refl) as H.
  cbv zeta in H. destruct H as (_ & _ & _ & Hclosed & Hrun).
  split.
  - apply (Hclosed ltac:(discriminate) 25%nat 3%nat Throttle.Return).
  - apply (Hrun 1%nat 100%nat Throttle.release 25%nat eq_refl
             ltac:(cbn; lia) 3%nat Throttle.Return eq_refl).
Defined.

(** * Properties of socket.js *)

(** ** The event emitter *)

Section Emitter.

Import SocketManager.

Lemma get_set_same (event : string) (v : list Callback) (m : CallbackMap) :
  get event (set event v m) = Some v.
Proof.
  induction m as [|[key old] m IH]; cbn.
  - rewrite String.eqb_refl. reflexivity.
  - destruct (String.eqb key event) eqn:E; cbn; rewrite E; auto.
Qed.

Lemma get_set_other (event other : string) (v : list Callback)
  (m : CallbackMap) :
  other <> event -> get other (set event v m) = get other m.
Proof.
  intros Hne. induction m as [|[key old] m IH]; cbn.
  - destruct (String.eqb_spec event other); [congruence | reflexivity].
  - destruct (String.eqb_spec key event) as [->|Hk]; cbn.
    + destruct (String.eqb_spec event other); [congruence | reflexivity].
    + destruct (String.eqb key other); auto.
Qed.

Lemma indexOf_none (callback : Callback) (l : list Callback) :
  indexOf callback l = None <-> ~ In callback l.
Proof.
  induction l as [|a l IH]; cbn.
  - tauto.
  - destruct (Nat.eqb_spec a callback) as [->|Hne].
    + split; [discriminate | intros H; exfalso; apply H; auto].
    + destruct (indexOf callback l); cbn.
      * split; [discriminate|]. intros H. exfalso.
        assert (Hin : In callback l).
        { destruct (in_dec Nat.eq_dec callback l) as [Hin|Hout]; [exact Hin|].
          apply IH in Hout. discriminate. }
        apply H. auto.
      * split; [|reflexivity]. intros _ [H|H]; [congruence|].
        apply (proj1 IH); auto.
Qed.

Lemma splice_indexOf (callback : Callback) (l : list Callback) (i : nat) :
  indexOf callback l = Some i -> splice1 i l = withoutFirst callback l.
Proof.
  revert i. induction l as [|a l IH]; intros i; cbn; [discriminate|].
  destruct (Nat.eqb_spec a callback) as [->|Hne].
  - intros E. injection E as <-. reflexivity.
  - destruct (indexOf callback l) as [j|]; cbn; [|discriminate].
    intros E. injection E as <-.
    change (splice1 (S j) (a :: l)) with (a :: splice1 j l).
    rewrite (IH j eq_refl). reflexivity.
Qed.

Lemma withoutFirst_absent (callback : Callback) (l : list Callback) :
  ~ In callback l -> withoutFirst callback l = l.
Proof.
  induction l as [|a l IH]; cbn; [reflexivity|]. intros H.
  destruct (Nat.eqb_spec a callback) as [->|Hne]; [exfalso; auto|].
  rewrite IH; auto.
Qed.

Lemma withoutFirst_snoc (callback : Callback) (l : list Callback) :
  ~ In callback l -> withoutFirst callback (l ++ [callback]) = l.
Proof.
  induction l as [|a l IH]; cbn.
  - rewrite Nat.eqb_refl. reflexivity.
  - intros H. destruct (Nat.eqb_spec a callback) as [->|Hne]; [exfalso; auto|].
    rewrite IH; auto.
Qed.

Lemma withoutFirst_snoc_length (callback : Callback) (l : list Callback) :
  length (withoutFirst callback (l ++ [callback])) = length l.
Proof.
  induction l as [|a l IH]; cbn.
  - rewrite Nat.eqb_refl. reflexivity.
  - destruct (Nat.eqb_spec a callback); cbn.
    + rewrite length_app. simpl. lia.
    + rewrite IH. reflexivity.
Qed.

Lemma listeners_on (event other : string) (callback : Callback) (s : t) :
  listeners event (on event callback s) = listeners event s ++ [callback]
  /\ (other <> event ->
      listeners other (on event callback s) = listeners other s).
Proof.
  unfold listeners, on, has.
  destruct (get event (eventCallbacks s)) as [l|] eqn:E; cbn [negb].
  - rewrite E. cbn [eventCallbacks withCallbacks].
    rewrite get_set_same. split; [reflexivity|].
    intros Hne. rewrite get_set_other by exact Hne. reflexivity.
  - rewrite get_set_same. cbn [eventCallbacks withCallbacks].
    rewrite get_set_same. split; [reflexivity|].
    intros Hne. rewrite !get_set_other by exact Hne. reflexivity.
Qed.

Lemma listeners_off (event other : string) (callback : Callback) (s : t) :
  listeners event (off event callback s)
  = withoutFirst callback (listeners event s)
  /\ (other <> event ->
      listeners other (off event callback s) = listeners other s)
  /\ (~ In callback (listeners event s) -> off event callback s = s).
Proof.
  unfold listeners, off, has.
  destruct (get event (eventCallbacks s)) as [l|] eqn:E.
  - destruct (indexOf callback l) as [i|] eqn:Ei.
    + cbn [eventCallbacks withCallbacks]. rewrite get_set_same.
      split; [apply splice_indexOf; exact Ei|].
      split.
      * intros Hne. rewrite get_set_other by exact Hne. reflexivity.
      * intros Hout. apply indexOf_none in Hout. congruence.
    + rewrite E. apply indexOf_none in Ei.
      rewrite withoutFirst_absent by exact Ei. auto.
  - rewrite E. cbn. auto.
Qed.

Variable throws : Callback -> Data -> bool.

Lemma deliver_all (data : Data) (callbacks : list Callback) (s : t) :
  let s' := fold_left (deliver throws data) callbacks s in
  delivered s' = delivered s ++ map (fun cb => (cb, data)) callbacks
  /\ console s'
     = console s
       ++ map (fun _ => errored)
              (filter (fun cb => throws cb data) callbacks)
  /\ emitted s' = emitted s
  /\ eventCallbacks s' = eventCallbacks s
  /\ outbox s' = outbox s
  /\ isConnected s' = isConnected s
  /\ reconnectAttempts s' = reconnectAttempts s
  /\ maxReconnectAttempts s' = maxReconnectAttempts s.
Proof.
  revert s. induction callbacks as [|cb callbacks IH]; intros s; cbv zeta.
  - cbn. rewrite !app_nil_r. repeat split.
  - cbn [fold_left map filter].
    destruct (IH (deliver throws data s cb))
      as (H1 & H2 & H3 & H4 & H5 & H6 & H7 & H8).
    rewrite H1, H2, H3, H4, H5, H6, H7, H8.
    unfold deliver. destruct (throws cb data);
      cbn [withConsole delivered console emitted eventCallbacks outbox
           isConnected reconnectAttempts maxReconnectAttempts map app];
      rewrite <- ?app_assoc; repeat split.
Qed.

Lemma emit_unfolded (event : string) (data : Data) (s : t) :
  let s' := emit throws event data s in
  delivered s'
  = delivered s ++ map (fun cb => (cb, data)) (listeners event s)
  /\ console s'
     = console s
       ++ map (fun _ => errored)
              (filter (fun cb => throws cb data) (listeners event s))
  /\ emitted s' = emitted s ++ [(event, data)]
  /\ eventCallbacks s' = eventCallbacks s
  /\ outbox s' = outbox s
  /\ isConnected s' = isConnected s
  /\ reconnectAttempts s' = reconnectAttempts s
  /\ maxReconnectAttempts s' = maxReconnectAttempts s.
Proof.
  cbv zeta. unfold emit, listeners, has. cbn [eventCallbacks].
  destruct (get event (eventCallbacks s)) as [l|].
  - match goal with
    | |- context [fold_left _ l ?s1] =>
        destruct (deliver_all data l s1)
          as (H1 & H2 & H3 & H4 & H5 & H6 & H7 & H8)
    end.
    rewrite H1, H2, H3, H4, H5, H6, H7, H8. cbn. repeat split.
  - cbn. rewrite !app_nil_r. repeat split.
Qed.

End Emitter.


(** X21. [on] appends the listener to those of its event and [off] removes
    the earliest registration of the listener for its event, each leaving
    the listeners of every other event alone; [off] for a listener that is
    not registered changes nothing.  Registering a listener and removing it
    again restores the listeners of every event when the listener was not
    registered before; when it was, the number of listeners is restored but
    it is the earlier registration that goes. *)
Theorem on_appends_off_removes_first (event other : string)
  (callback : SocketManager.Callback) (s : SocketManager.t) :
  (listeners event (SocketManager.on event callback s)
   = listeners event s ++ [callback]
   /\ listeners event (SocketManager.off event callback s)
      = withoutFirst callback (listeners event s))
  /\ (other <> event ->
      listeners other (SocketManager.on event callback s) = listeners other s
      /\ listeners other (SocketManager.off event callback s)
         = listeners other s)
  /\ (~ In callback (listeners event s) ->
      SocketManager.off event callback s = s
      /\ forall e : string,
           listeners e (SocketManager.off event callback
                          (SocketManager.on event callback s))
           = listeners e s)
  /\ length (listeners event (SocketManager.off event callback
                                (SocketManager.on event callback s)))
     = length (listeners event s).
Proof.
  destruct (listeners_on event other callback s) as [Hon Hon'].
  destruct (listeners_off event other callback s) as (Hoff & Hoff' & Hnone).
  destruct (listeners_off event other callback
              (SocketManager.on event callback s)) as (Hoo & _ & _).
  split; [split; assumption|].
  split; [intros Hne; split; auto|].
  split.
  - intros Hout. split; [apply Hnone; exact Hout|].
    intros e. destruct (string_dec e event) as [->|Hne].
    + rewrite Hoo, Hon. apply withoutFirst_snoc. exact Hout.
    + destruct (listeners_off event e callback
                  (SocketManager.on event callback s)) as (_ & H & _).
      rewrite (H Hne).
      destruct (listeners_on event e callback s) as [_ H']. apply H'. exact Hne.
  - rewrite Hoo, Hon. apply withoutFirst_snoc_length.
Qed.

Lemma on_appends_off_removes_first_witness :
  listeners "game_state"
    (SocketManager.off "game_state" 7%nat
       (SocketManager.on "game_state" 7%nat
          (SocketManager.on "game_state" 3%nat SocketManager.new)))
  = [3%nat].
Proof.
  destruct (on_appends_off_removes_first "game_state" "player_bet" 7%nat
              (SocketManager.on "game_state" 3%nat SocketManager.new))
    as (_ & _ & Hback & _).
  destruct Hback as [_ Hback].
  - cbn. intros [H|[]]. discriminate.
  - exact (Hback "game_state"%string).
Defined.

(** ** Connection state *)

Section Connection.

Import SocketManager.

Variable throws : Callback -> Data -> bool.

(** What handling one socket event does to the fields that [send] and the
    reconnect counter depend on. *)
Lemma handle_fields (event : SocketEvent) (s : t) :
  outbox (handle throws event s) = outbox s
  /\ eventCallbacks (handle throws event s) = eventCallbacks s
  /\ maxReconnectAttempts (handle throws event s) = maxReconnectAttempts s
  /\ isConnected (handle throws event s)
     = onlineAfter (isConnected s) [event].
Proof.
  destruct event; cbn [handle onlineAfter fold_left];
    try (match goal with
         | |- context [emit throws ?e ?d ?s1] =>
             destruct (emit_unfolded throws e d s1)
               as (_ & _ & _ & H4 & H5 & H6 & _ & H8);
             cbv zeta in H4, H5, H6, H8; rewrite H4, H5, H6, H8
         end; cbn; repeat split).
  cbn [withAttempts withConsole reconnectAttempts maxReconnectAttempts].
  destruct (maxReconnectAttempts s <=? reconnectAttempts s + 1)%nat.
  - match goal with
    | |- context [emit throws ?e ?d ?s1] =>
        destruct (emit_unfolded throws e d s1)
          as (_ & _ & _ & H4 & H5 & H6 & _ & H8);
        cbv zeta in H4, H5, H6, H8; rewrite H4, H5, H6, H8
    end. cbn. repeat split.
  - cbn. repeat split.
Qed.

Lemma handleAll_fields (events : list SocketEvent) :
  forall s : t,
  outbox (handleAll throws events s) = outbox s
  /\ isConnected (handleAll throws events s)
     = onlineAfter (isConnected s) events
  /\ maxReconnectAttempts (handleAll throws events s)
     = maxReconnectAttempts s.
Proof.
  induction events as [|event events IH]; intros s; [cbn; auto|].
  unfold handleAll, onlineAfter in *. cbn [fold_left].
  destruct (IH (handle throws event s)) as (H1 & H2 & H3).
  destruct (handle_fields event s) as (H4 & _ & H5 & H6).
  rewrite H1, H2, H3, H4, H5, H6. cbn [onlineAfter fold_left]. auto.
Qed.

Lemma errors_counted (s : t) (k : nat) :
  maxReconnectAttempts s = 5%nat ->
  reconnectAttempts s = 0%nat ->
  let sk := Nat.iter k (handle throws connect_error) s in
  reconnectAttempts sk = k
  /\ maxReconnectAttempts sk = 5%nat
  /\ isConnected sk = isConnected s
  /\ emitted sk
     = emitted s
       ++ map (fun attempts => ("connection_error"%string,
                                failure tooManyAttempts attempts))
              (seq 5 (k - 4)).
Proof.
  intros Hmax H0. induction k as [|k (IH1 & IH2 & IH3 & IH4)]; cbv zeta.
  - cbn. rewrite app_nil_r. auto.
  - change (Nat.iter (S k) (handle throws connect_error) s)
      with (handle throws connect_error
              (Nat.iter k (handle throws connect_error) s)).
    revert IH1 IH2 IH3 IH4.
    generalize (Nat.iter k (handle throws connect_error) s).
    intros sk IH1 IH2 IH3 IH4.
    cbn [handle withAttempts withConsole reconnectAttempts
         maxReconnectAttempts].
    rewrite IH1, IH2.
    destruct (Nat.leb_spec 5 (k + 1)) as [Hge|Hlt].
    + match goal with
      | |- context [emit throws ?e ?d ?s1] =>
          destruct (emit_unfolded throws e d s1)
            as (_ & _ & H3 & _ & _ & H6 & H7 & H8);
          cbv zeta in H3, H6, H7, H8; rewrite H3, H6, H7, H8
      end.
      cbn [reconnectAttempts maxReconnectAttempts isConnected emitted
           withAttempts withConsole].
      rewrite ?IH1, ?IH2, ?IH3, ?IH4.
      split; [lia|]. split; [reflexivity|]. split; [reflexivity|].
      replace (S k - 4)%nat with (S (k - 4)) by lia.
      rewrite seq_S, map_app, app_assoc. cbn [map].
      replace (5 + (k - 4))%nat with (k + 1)%nat by lia. reflexivity.
    + cbn [reconnectAttempts maxReconnectAttempts isConnected emitted
           withAttempts withConsole].
      rewrite ?IH1, ?IH2, ?IH3, ?IH4.
      split; [lia|]. split; [reflexivity|]. split; [reflexivity|].
      replace (S k - 4)%nat with 0%nat by lia.
      replace (k - 4)%nat with 0%nat by lia. reflexivity.
Qed.

End Connection.

(** X22. Counting failed connection attempts: after a [connect] event the
    counter is 0, and after [k] [connect_error] events in a row it is [k].
    The [connection_error] event is emitted by the fifth error and by every
    further one, each time with the count reached, and by none of the first
    four; [isConnected] stays as [connect] set it. *)
Theorem connection_error_from_fifth_attempt
  (throws : SocketManager.Callback -> SocketManager.Data -> bool)
  (s : SocketManager.t) (k : nat) :
  SocketManager.maxReconnectAttempts s = 5%nat ->
  let connected := SocketManager.handle throws SocketManager.connect s in
  let failing :=
    Nat.iter k (SocketManager.handle throws SocketManager.connect_error)
      connected in
  SocketManager.reconnectAttempts connected = 0%nat
  /\ SocketManager.reconnectAttempts failing = k
  /\ SocketManager.isConnected failing = true
  /\ SocketManager.emitted failing
     = SocketManager.emitted connected
       ++ map (fun attempts =>
                 ("connection_error"%string,
                  SocketManager.failure tooManyAttempts attempts))
              (seq 5 (k - 4)).
Proof.
  intros Hmax. cbv zeta.
  set (connected := SocketManager.handle throws SocketManager.connect s).
  assert (H : SocketManager.reconnectAttempts connected = 0%nat
              /\ SocketManager.maxReconnectAttempts connected = 5%nat
              /\ SocketManager.isConnected connected = true).
  { unfold connected. cbn [SocketManager.handle].
    match goal with
    | |- context [SocketManager.emit throws ?e ?d ?s1] =>
        destruct (emit_unfolded throws e d s1)
          as (_ & _ & _ & _ & _ & H6 & H7 & H8);
        cbv zeta in H6, H7, H8; rewrite H6, H7, H8
    end.
    cbn. auto. }
  destruct H as (H0 & Hmax' & Hon).
  destruct (errors_counted throws connected k Hmax' H0) as (H1 & _ & H3 & H4).
  cbv zeta in H1, H3, H4. rewrite H1, H3, H4, Hon. auto.
Qed.

Lemma connection_error_from_fifth_attempt_witness :
  SocketManager.reconnectAttempts
    (Nat.iter 6
       (SocketManager.handle (fun _ _ => false) SocketManager.connect_error)
       (SocketManager.handle (fun _ _ => false) SocketManager.connect
          SocketManager.new))
  = 6%nat.
Proof.
  destruct (connection_error_from_fifth_attempt (fun _ _ => false)
              SocketManager.new 6 eq_refl) as (_ & H & _).
  exact H.
Defined.

(** X23. Messages leave only while the latest [connect] or [disconnect]
    event of the socket is a [connect]: socket events themselves send
    nothing, and after any sequence of them [send] hands its message to the
    socket when that is the case, and otherwise drops it with a console
    warning.  Connection errors and [reconnect] events do not change which
    case applies. *)
Theorem send_only_while_connected
  (throws : SocketManager.Callback -> SocketManager.Data -> bool)
  (events : list SocketManager.SocketEvent)
  (event : string) (message : SocketManager.Message) :
  let s := handleAll throws events SocketManager.new in
  SocketManager.outbox s = []
  /\ SocketManager.isConnected s = onlineAfter false events
  /\ (onlineAfter false events = true ->
      SocketManager.outbox (SocketManager.send event message s)
      = [(event, message)]
      /\ SocketManager.console (SocketManager.send event message s)
         = SocketManager.console s)
  /\ (onlineAfter false events = false ->
      SocketManager.outbox (SocketManager.send event message s) = []
      /\ SocketManager.console (SocketManager.send event message s)
         = SocketManager.console s ++ [SocketManager.warned]).
Proof.
  cbv zeta.
  destruct (handleAll_fields throws events SocketManager.new) as (H1 & H2 & _).
  cbn in H1, H2.
  split; [exact H1|]. split; [exact H2|].
  unfold SocketManager.send. rewrite H2.
  split; intros ->; cbn; rewrite ?H1; auto.
Qed.

Lemma send_only_while_connected_witness :
  SocketManager.outbox
    (SocketManager.send "cash_out" (SocketManager.cashOutMessage 1000)
       (handleAll (fun _ _ => false)
          [ SocketManager.connect; SocketManager.disconnect "transport close";
            SocketManager.connect_error; SocketManager.reconnect 1 ]
          SocketManager.new))
  = [].
Proof.
  destruct (send_only_while_connected (fun _ _ => false)
              [ SocketManager.connect;
                SocketManager.disconnect "transport close";
                SocketManager.connect_error; SocketManager.reconnect 1 ]
              "cash_out" (SocketManager.cashOutMessage 1000))
    as (_ & _ & _ & Hoff).
  apply Hoff. reflexivity.
Defined.

(** X24. With [Math.random()] in [0, 1), [generatePlayerName] returns one
    of the five adjectives followed by one of the five nouns and a number
    between 1 and 999, using three random numbers.  [joinGame] sends the
    name it is given when that is a non-empty string, drawing no random
    number; without a name, or with the empty string, it sends a generated
    one. *)
Theorem joinGame_names (rnd : nat -> Q) (n now : nat)
  (s : SocketManager.t) :
  unitInterval rnd ->
  (exists (adj noun : string) (number : Z),
     In adj SocketManager.adjectives
     /\ In noun SocketManager.nouns
     /\ (1 <= number <= 999)%Z
     /\ SocketManager.generatePlayerName rnd n
        = ((adj ++ noun ++ NilZero.string_of_int (Z.to_int number))%string,
           (n + 3)%nat))
  /\ (forall (c : Ascii.ascii) (rest : string),
        SocketManager.joinGame rnd n now (Some (String c rest)) s
        = (SocketManager.send "join_game"
             (SocketManager.joinGameMessage (String c rest) now) s, n))
  /\ (forall given : option string,
        given = None \/ given = Some ""%string ->
        SocketManager.joinGame rnd n now given s
        = (SocketManager.send "join_game"
             (SocketManager.joinGameMessage
                (fst (SocketManager.generatePlayerName rnd n)) now) s,
           (n + 3)%nat)).
Proof.
  intros Hrnd.
  assert (Hpick : forall (words : list string) (r : Q),
            length words = 5%nat -> 0 <= r -> r < 1 ->
            exists w, JS.index words
                        (JS.floor (r * inject_Z (Z.of_nat (length words))))
                      = Some w /\ In w words).
  { intros words r Hlen H0 H1. rewrite Hlen.
    pose proof (floor_range r 5 H0 H1 eq_refl) as Hf.
    change (Z.of_nat 5) with 5%Z.
    set (i := JS.floor (r * inject_Z 5)) in *.
    destruct words as [|w0 [|w1 [|w2 [|w3 [|w4 [|]]]]]]; try discriminate.
    assert (Hi : i = 0%Z \/ i = 1%Z \/ i = 2%Z \/ i = 3%Z \/ i = 4%Z) by lia.
    destruct Hi as [E|[E|[E|[E|E]]]]; rewrite E; cbn;
      eexists; (split; [reflexivity|]); simpl; tauto. }
  assert (Hgen : exists (adj noun : string) (number : Z),
     In adj SocketManager.adjectives
     /\ In noun SocketManager.nouns
     /\ (1 <= number <= 999)%Z
     /\ SocketManager.generatePlayerName rnd n
        = ((adj ++ noun ++ NilZero.string_of_int (Z.to_int number))%string,
           (n + 3)%nat)).
  { destruct (Hrnd n) as [Ha0 Ha1]. destruct (Hrnd (S n)) as [Hb0 Hb1].
    destruct (Hrnd (S (S n))) as [Hc0 Hc1].
    destruct (Hpick SocketManager.adjectives (rnd n) eq_refl Ha0 Ha1)
      as (adj & Eadj & Hadj).
    destruct (Hpick SocketManager.nouns (rnd (S n)) eq_refl Hb0 Hb1)
      as (noun & Enoun & Hnoun).
    pose proof (floor_range (rnd (S (S n))) 999 Hc0 Hc1 eq_refl) as Hnum.
    change (inject_Z 999) with 999 in Hnum.
    exists adj, noun, (JS.floor (rnd (S (S n)) * 999) + 1)%Z.
    split; [exact Hadj|]. split; [exact Hnoun|]. split; [lia|].
    unfold SocketManager.generatePlayerName. rewrite Eadj, Enoun.
    cbn [SocketManager.shown]. f_equal. lia. }
  split; [exact Hgen|]. split.
  - intros c rest. reflexivity.
  - intros given [->| ->]; unfold SocketManager.joinGame;
      cbn [SocketManager.nonEmpty];
      destruct Hgen as (adj & noun & number & _ & _ & _ & E);
      rewrite E; reflexivity.
Qed.

Lemma joinGame_names_witness :
  snd (SocketManager.joinGame alwaysHalf 0 1000 None SocketManager.new)
  = 3%nat.
Proof.
  assert (H : unitInterval alwaysHalf).
  { intros i. split; vm_compute; [discriminate | reflexivity]. }
  destruct (joinGame_names alwaysHalf 0 1000 SocketManager.new H)
    as (_ & _ & Hgen).
  rewrite (Hgen None (or_introl eq_refl)). reflexivity.
Defined.

(** * Properties of the UI script *)

Section Betting.

Import UIManager.

Variable round2 : Q -> Q.

Lemma resetBackground_looks (s : t) :
  beyondLooks (resetBackground s) = beyondLooks s.
Proof.
  unfold resetBackground.
  destruct (negb (isFlying s) || negb (isPlaying s)); reflexivity.
Qed.

(** The two mutually recursive methods touch nothing but looks, and when
    [validateBetAmount] returns it returns the validity of its argument. *)
Lemma validation_looks (depth : nat) :
  forall (value : option Q) (s : t),
  (beyondLooks (stateOf (validateBetAmount round2 depth value s))
   = beyondLooks s
   /\ forall ok s', validateBetAmount round2 depth value s = Returned ok s' ->
                    ok = validBet (orZero value) s)
  /\ beyondLooks (stateOf (updateStartButton round2 depth s)) = beyondLooks s.
Proof.
  induction depth as [|depth IH]; intros value s.
  - cbn. repeat split. intros ok s' E. discriminate.
  - split; [split|].
    + cbn [validateBetAmount].
      set (s1 := setBetBorder _ s).
      destruct (IH value s1) as [_ Hu].
      destruct (updateStartButton round2 depth s1); cbn [stateOf] in *;
        rewrite Hu; reflexivity.
    + intros ok s'. cbn [validateBetAmount].
      destruct (updateStartButton round2 depth _); intros E;
        [injection E as <- _; reflexivity | discriminate].
    + cbn [updateStartButton].
      destruct (waitingOrStarting s); [destruct (isPlaying s) eqn:Hp|].
      * cbn [stateOf]. rewrite resetBackground_looks. reflexivity.
      * destruct (IH (Some (orZero (parseFloat round2 (betAmountValue s)))) s)
          as [[Hv _] _].
        destruct (validateBetAmount round2 depth _ s); cbn [stateOf] in *.
        -- rewrite resetBackground_looks. cbn. exact Hv.
        -- exact Hv.
      * destruct (isFlying s); [destruct (isPlaying s)|];
          cbn [stateOf]; rewrite resetBackground_looks; reflexivity.
Qed.

(** In the waiting and starting phases, for a player who is not playing,
    neither method returns, however deep the stack. *)
Lemma validation_diverges (depth : nat) :
  forall (value : option Q) (s : t),
  waitingOrStarting s = true -> isPlaying s = false ->
  returns (validateBetAmount round2 depth value s) = false
  /\ returns (updateStartButton round2 depth s) = false.
Proof.
  induction depth as [|depth IH]; intros value s Hw Hp; [auto|].
  split.
  - cbn [validateBetAmount].
    set (s1 := setBetBorder _ s).
    destruct (IH value s1 Hw Hp) as [_ Hu].
    destruct (updateStartButton round2 depth s1); [discriminate | reflexivity].
  - cbn [updateStartButton]. rewrite Hw, Hp.
    destruct (IH (Some (orZero (parseFloat round2 (betAmountValue s)))) s Hw Hp)
      as [Hv _].
    destruct (validateBetAmount round2 depth _ s); [discriminate | reflexivity].
Qed.

(** In every other situation both return, given room for two calls. *)
Lemma validation_returns (depth : nat) (value : option Q) (s : t) :
  waitingOrStarting s = false \/ isPlaying s = true ->
  returns (updateStartButton round2 (S depth) s) = true
  /\ returns (validateBetAmount round2 (S (S depth)) value s) = true.
Proof.
  intros H.
  assert (Hu : forall s0, waitingOrStarting s0 = false \/ isPlaying s0 = true ->
                          returns (updateStartButton round2 (S depth) s0) = true).
  { intros s0 H0. cbn [updateStartButton].
    destruct (waitingOrStarting s0) eqn:Hw.
    - destruct H0 as [H0|H0]; [discriminate|]. rewrite H0. reflexivity.
    - destruct (isFlying s0); [destruct (isPlaying s0)|]; reflexivity. }
  split; [apply Hu; exact H|].
  cbn [validateBetAmount].
  set (s1 := setBetBorder _ s).
  assert (H1 : waitingOrStarting s1 = false \/ isPlaying s1 = true) by exact H.
  specialize (Hu s1 H1).
  destruct (updateStartButton round2 (S depth) s1); [reflexivity | discriminate].
Qed.

End Betting.

(** X25. [validateBetAmount] and [updateStartButton] call each other.  While
    the game is waiting or starting and the player is not playing, the
    exchange never ends: whatever room the call stack has, neither method
    returns, and all either of them changes on the way is the border of the
    bet field.  In every other situation both return, within two calls. *)
Theorem validation_never_returns_while_idle (round2 : Q -> Q) (depth : nat)
  (value : option Q) (s : UIManager.t) :
  (UIManager.waitingOrStarting s = true ->
   UIManager.isPlaying s = false ->
   UIManager.returns (UIManager.validateBetAmount round2 depth value s) = false
   /\ UIManager.returns (UIManager.updateStartButton round2 depth s) = false
   /\ beyondLooks
        (UIManager.stateOf (UIManager.validateBetAmount round2 depth value s))
      = beyondLooks s
   /\ beyondLooks (UIManager.stateOf (UIManager.updateStartButton round2 depth s))
      = beyondLooks s)
  /\ (UIManager.waitingOrStarting s = false \/ UIManager.isPlaying s = true ->
      UIManager.returns
        (UIManager.validateBetAmount round2 (S (S depth)) value s) = true
      /\ UIManager.returns (UIManager.updateStartButton round2 (S depth) s)
         = true).
Proof.
  split.
  - intros Hw Hp.
    destruct (validation_diverges round2 depth value s Hw Hp) as [Hv Hu].
    destruct (validation_looks round2 depth value s) as [[Hl _] Hl'].
    auto.
  - intros H. destruct (validation_returns round2 depth value s H). auto.
Qed.


Lemma validation_never_returns_while_idle_witness :
  UIManager.returns
    (UIManager.validateBetAmount (fun q => q) 50 (Some 10) freshPlayer)
  = false.
Proof.
  destruct (validation_never_returns_while_idle (fun q => q) 50 (Some 10)
              freshPlayer) as [Hidle _].
  destruct (Hidle eq_refl eq_refl) as [H _]. exact H.
Defined.

Section Stakes.

Import UIManager.

Variable round2 : Q -> Q.

Lemma looks_stakes (a b : t) : beyondLooks a = beyondLooks b -> stakes a = stakes b.
Proof.
  unfold beyondLooks, stakes. intros E.
  injection E as _ Hb Hc _ Hp _ _ _ _ _ Hn _ Hs.
  rewrite Hb, Hc, Hp, Hn, Hs. reflexivity.
Qed.

(** [placeBet] in the waiting or starting phase, for a player who is not
    playing: the validation never returns. *)
Lemma placeBet_idle (depth : nat) (s : t) :
  waitingOrStarting s = true -> isPlaying s = false ->
  returns (placeBet round2 depth s) = false
  /\ beyondLooks (stateOf (placeBet round2 depth s)) = beyondLooks s.
Proof.
  intros Hw Hp. destruct depth as [|depth]; [auto|].
  cbn [placeBet].
  destruct (validation_diverges round2 depth
              (Some (orZero (parseFloat round2 (betAmountValue s)))) s Hw Hp)
    as [Hv _].
  destruct (validation_looks round2 depth
              (Some (orZero (parseFloat round2 (betAmountValue s)))) s)
    as [[Hl _] _].
  destruct (validateBetAmount round2 depth _ s); [discriminate|].
  cbn [stateOf returns] in *. auto.
Qed.

End Stakes.

(** X26. The main action button cannot place a bet: for a player who is not
    playing, [handleMainAction] leaves the balance, the current bet, the
    playing flag, the calls made on the socket manager and the
    notifications as they are, whatever the phase of the game.  In the
    waiting and starting phases it does not even return — [placeBet] is
    stopped by the validation that never ends — and in every other phase it
    returns at once, having done nothing.  So a player who is not playing
    stays not playing. *)
Theorem main_action_never_places_a_bet (round2 : Q -> Q) (depth : nat)
  (s : UIManager.t) :
  UIManager.isPlaying s = false ->
  let outcome := UIManager.handleMainAction round2 depth s in
  stakes (UIManager.stateOf outcome) = stakes s
  /\ UIManager.isPlaying (UIManager.stateOf outcome) = false
  /\ (UIManager.waitingOrStarting s = true ->
      UIManager.returns outcome = false)
  /\ (UIManager.waitingOrStarting s = false -> (0 < depth)%nat ->
      outcome = UIManager.Returned tt s).
Proof.
  intros Hp. cbv zeta.
  assert (H : stakes (UIManager.stateOf
                        (UIManager.handleMainAction round2 depth s))
              = stakes s
              /\ (UIManager.waitingOrStarting s = true ->
                  UIManager.returns
                    (UIManager.handleMainAction round2 depth s) = false)
              /\ (UIManager.waitingOrStarting s = false -> (0 < depth)%nat ->
                  UIManager.handleMainAction round2 depth s
                  = UIManager.Returned tt s)).
  { destruct depth as [|depth].
    - cbn. split; [reflexivity|]. split; [reflexivity | intros; lia].
    - cbn [UIManager.handleMainAction].
      destruct (UIManager.waitingOrStarting s) eqn:Hw.
      + destruct (placeBet_idle round2 depth s Hw Hp) as [Hr Hl].
        split; [apply looks_stakes; exact Hl|].
        split; [intros _; exact Hr | discriminate].
      + rewrite Hp, andb_false_r. cbn.
        split; [reflexivity|]. split; [discriminate | reflexivity]. }
  destruct H as (Hs & Hthrown & Hret).
  split; [exact Hs|]. split; [|split; assumption].
  unfold stakes in Hs. injection Hs as _ _ E _ _. rewrite E. exact Hp.
Qed.

Lemma main_action_never_places_a_bet_witness :
  stakes (UIManager.stateOf
            (UIManager.handleMainAction (fun q => q) 50 freshPlayer))
  = stakes freshPlayer.
Proof.
  exact (proj1 (main_action_never_places_a_bet (fun q => q) 50 freshPlayer
                  eq_refl)).
Defined.

Section PlacingBets.

Import UIManager.

Variable round2 : Q -> Q.

(** What [placeBet] can have done when it ends, whichever way. *)
Lemma placeBet_cases (depth : nat) (s : t) :
  let bet := orZero (parseFloat round2 (betAmountValue s)) in
  let s' := stateOf (placeBet round2 depth s) in
  beyondLooks s' = beyondLooks s
  \/ (validBet bet s = false
      /\ notifications s' = notifications s ++ [invalidBet]
      /\ playerBalance s' = playerBalance s
      /\ currentBet s' = currentBet s
      /\ isPlaying s' = isPlaying s
      /\ socketCalls s' = socketCalls s)
  \/ (validBet bet s = true
      /\ (notifications s' = notifications s
          \/ notifications s' = notifications s ++ [betPlaced bet])
      /\ playerBalance s' = playerBalance s - bet
      /\ balanceShown s' = playerBalance s - bet
      /\ currentBet s' = bet
      /\ isPlaying s' = true
      /\ socketCalls s'
         = socketCalls s
           ++ (if hasSocketManager s
               then [placeBetCall bet
                       (if isAutoCashOut s
                        then Some (parseFloat round2 (autoCashOutText s))
                        else None)]
               else [])).
Proof.
  cbv zeta. destruct depth as [|depth]; [left; reflexivity|].
  cbn [placeBet].
  set (bet := orZero (parseFloat round2 (betAmountValue s))).
  destruct (validation_looks round2 depth (Some bet) s) as [[Hl Hok] _].
  destruct (validateBetAmount round2 depth (Some bet) s) as [ok s1|s1]
    eqn:Ev; cbn [stateOf] in Hl; [|left; exact Hl].
  specialize (Hok ok s1 eq_refl). cbn [orZero] in Hok.
  unfold beyondLooks in Hl.
  injection Hl as Hg Hb Hc Ha Hp Hv Ht Hd Hk Hsh Hn Hh Hs.
  destruct ok.
  - right. right.
    assert (Hle : Qle_bool bet (playerBalance s1) = true).
    { rewrite Hb. unfold validBet in Hok. symmetry in Hok.
      apply andb_true_iff in Hok. apply Hok. }
    rewrite Hle. cbn [negb].
    match goal with
    | |- context [updateStartButton round2 depth ?s2] =>
        destruct (validation_looks round2 depth None s2) as [_ Hu];
        set (s3 := s2) in *
    end.
    assert (H3 : beyondLooks s3
                 = (gameState s, playerBalance s - bet, bet, isAutoCashOut s,
                    true, betAmountValue s, autoCashOutText s,
                    autoCashOutDisabled s, autoCashOutChecked s,
                    playerBalance s - bet, notifications s,
                    hasSocketManager s,
                    socketCalls s
                    ++ (if hasSocketManager s
                        then [placeBetCall bet
                                (if isAutoCashOut s
                                 then Some (parseFloat round2
                                              (autoCashOutText s))
                                 else None)]
                        else []))).
    { unfold s3, updateBalance, stake, callSocket, beyondLooks.
      rewrite <- Hh. destruct (hasSocketManager s1) eqn:E1;
        cbn; rewrite ?E1, ?Hg, ?Hb, ?Hc, ?Ha, ?Hv, ?Ht, ?Hd, ?Hk, ?Hn, ?Hs,
               ?app_nil_r; reflexivity. }
    rewrite H3 in Hu. clear H3.
    split; [symmetry; exact Hok|].
    destruct (updateStartButton round2 depth s3) as [[] s4|s4];
      cbn [stateOf] in *; unfold beyondLooks in Hu;
      injection Hu as _ Hb4 Hc4 _ Hp4 _ _ _ _ Hsh4 Hn4 _ Hs4.
    + cbn [showNotification notifications playerBalance balanceShown
           currentBet isPlaying socketCalls].
      rewrite Hb4, Hc4, Hp4, Hsh4, Hn4, Hs4.
      split; [right; reflexivity | repeat split].
    + rewrite Hb4, Hc4, Hp4, Hsh4, Hn4, Hs4.
      split; [left; reflexivity | repeat split].
  - right. left. cbn [stateOf showNotification notifications playerBalance
                      currentBet isPlaying socketCalls].
    rewrite Hb, Hc, Hp, Hn, Hs. split; [symmetry; exact Hok | repeat split].
Qed.

End PlacingBets.

(** X27. [placeBet] never overdraws.  When it ends — by returning or by
    exhausting the stack — either the balance is what it was, or the bet
    read from the field was between 1 and the balance and has been moved
    from the balance to [currentBet], with [isPlaying] set and the balance
    display updated; a balance that was not negative is not negative
    afterwards.  The notification for an insufficient balance is never
    shown: a bet above the balance is already rejected as invalid. *)
Theorem placeBet_never_overdraws (round2 : Q -> Q) (depth : nat)
  (s : UIManager.t) :
  let bet :=
    UIManager.orZero (UIManager.parseFloat round2 (UIManager.betAmountValue s)) in
  let s' := UIManager.stateOf (UIManager.placeBet round2 depth s) in
  (UIManager.playerBalance s' = UIManager.playerBalance s
   \/ (1 <= bet /\ bet <= UIManager.playerBalance s
       /\ UIManager.playerBalance s' = UIManager.playerBalance s - bet
       /\ UIManager.balanceShown s' = UIManager.playerBalance s'
       /\ UIManager.currentBet s' = bet
       /\ UIManager.isPlaying s' = true))
  /\ (0 <= UIManager.playerBalance s -> 0 <= UIManager.playerBalance s')
  /\ (exists added : list UIManager.Notification,
        UIManager.notifications s' = UIManager.notifications s ++ added
        /\ ~ In UIManager.insufficientBalance added).
Proof.
  cbv zeta.
  destruct (placeBet_cases round2 depth s) as [H|[H|H]]; cbv zeta in H.
  - unfold beyondLooks in H. injection H as _ Hb _ _ _ _ _ _ _ _ Hn _ _.
    rewrite Hb, Hn. split; [left; reflexivity|]. split; [auto|].
    exists []. rewrite app_nil_r. auto.
  - destruct H as (_ & Hn & Hb & _). rewrite Hb, Hn.
    split; [left; reflexivity|]. split; [auto|].
    eexists. split; [reflexivity|]. intros [E|[]]. discriminate.
  - destruct H as (Hok & Hn & Hb & Hsh & Hc & Hp & _).
    unfold validBet in Hok. apply andb_true_iff in Hok.
    destruct Hok as [H1 H2]. apply Qle_bool_iff in H1, H2.
    rewrite Hb, Hsh, Hc, Hp.
    split; [right; repeat split; assumption|].
    split; [intros _; qlra|].
    destruct Hn as [-> | ->].
    + exists []. rewrite app_nil_r. auto.
    + eexists. split; [reflexivity|]. intros [E|[]]. discriminate.
Qed.

Lemma placeBet_never_overdraws_witness :
  0 <= UIManager.playerBalance
         (UIManager.stateOf (UIManager.placeBet (fun q => q) 50 freshPlayer)).
Proof.
  assert (H : 0 <= UIManager.playerBalance freshPlayer)
    by (vm_compute; discriminate).
  exact (proj1 (proj2 (placeBet_never_overdraws (fun q => q) 50 freshPlayer))
           H).
Defined.

(** X28. The half and double buttons keep the bet within reach of the
    balance: [adjustBetAmount] writes into the bet field the two-decimal
    text of a value that is never above the balance, and never below 1
    unless the balance itself is — in which case it is the balance.  Any
    other action writes the text of NaN.  Balance, current bet, playing
    flag, socket calls and notifications are left alone, whichever way the
    call ends. *)
Theorem adjustBetAmount_clamps (round2 : Q -> Q) (depth : nat)
  (action : UIManager.Action) (s : UIManager.t) :
  let s' :=
    UIManager.stateOf (UIManager.adjustBetAmount round2 (S depth) action s) in
  (action = UIManager.otherAction ->
   UIManager.betAmountValue s' = UIManager.toFixed2 None)
  /\ (action <> UIManager.otherAction ->
      exists value : Q,
        UIManager.betAmountValue s' = UIManager.toFixed2 (Some value)
        /\ value <= UIManager.playerBalance s
        /\ (1 <= UIManager.playerBalance s -> 1 <= value)
        /\ (UIManager.playerBalance s < 1 ->
            value == UIManager.playerBalance s))
  /\ stakes s' = stakes s.
Proof.
  cbv zeta. cbn [UIManager.adjustBetAmount].
  match goal with
  | |- context [UIManager.validateBetAmount round2 depth ?v ?s1] =>
      destruct (validation_looks round2 depth v s1) as [[Hl _] _];
      destruct (UIManager.validateBetAmount round2 depth v s1) as [ok s2|s2]
  end; cbn [UIManager.stateOf] in *;
    (assert (Hs : stakes s2 = stakes s)
       by (rewrite (looks_stakes _ _ Hl); reflexivity));
    unfold beyondLooks in Hl;
    injection Hl as _ _ _ _ _ Hv _ _ _ _ _ _ _; rewrite Hv;
    cbn [UIManager.betAmountValue UIManager.setBetText];
    (split; [intros ->; reflexivity|]);
    (split; [|exact Hs]);
    intros Hact;
    (destruct action; [| |congruence]);
    cbn [UIManager.maxNaN UIManager.minNaN option_map];
    eexists; (split; [reflexivity|]);
    (split; [apply Q.le_min_r|]);
    (split;
     [intros H1; apply Q.min_glb; [apply Q.le_max_r | exact H1]
     |intros H1; apply Q.min_r;
      apply Qle_trans with 1; [qlra | apply Q.le_max_r]]).
Qed.

Lemma adjustBetAmount_clamps_witness :
  exists value : Q,
    UIManager.betAmountValue
      (UIManager.stateOf
         (UIManager.adjustBetAmount (fun q => q) 4 UIManager.double
            freshPlayer))
    = UIManager.toFixed2 (Some value)
    /\ value <= 1000.
Proof.
  destruct (adjustBetAmount_clamps (fun q => q) 3 UIManager.double freshPlayer)
    as (_ & Hclamp & _).
  destruct Hclamp as (value & E & Hle & _); [discriminate|].
  exists value. split; [exact E | exact Hle].
Defined.

(** ** The history *)

Section History.

Import UIManager.

Lemma trimHistory_firstn (turns : nat) :
  forall children : list HistoryItem,
  (length children - 20 <= turns)%nat ->
  trimHistory turns children = firstn 20 children.
Proof.
  induction turns as [|turns IH]; intros children Hlen; cbn [trimHistory].
  - symmetry. apply firstn_all2. lia.
  - destruct (Nat.ltb_spec 20 (length children)) as [Hlong|Hshort].
    + rewrite IH.
      * rewrite removelast_firstn_len, firstn_firstn.
        f_equal. lia.
      * rewrite removelast_firstn_len, length_firstn. lia.
    + symmetry. apply firstn_all2. exact Hshort.
Qed.

Lemma addToHistory_firstn (multiplier : Q) (children : list HistoryItem) :
  addToHistory multiplier children
  = firstn 20 (historyItemOf multiplier :: children).
Proof.
  unfold addToHistory. cbv zeta.
  rewrite trimHistory_firstn by lia. reflexivity.
Qed.

Lemma firstn_cons_firstn {A : Type} (n : nat) (a : A) (l : list A) :
  firstn (S n) (a :: firstn (S n) l) = firstn (S n) (a :: l).
Proof.
  cbn [firstn]. f_equal.
  revert l. induction n as [|n IH]; intros [|b l]; cbn; try reflexivity.
  f_equal. apply IH.
Qed.

End History.

(** X29. The history keeps the 20 most recent results, newest first:
    [addToHistory] puts the new item in front and drops what is beyond the
    twentieth child — however many children there were — so after any
    sequence of calls on an empty container the children are the items of
    the last 20 multipliers, latest first.  An item is purple from 10x on,
    green from 2x on and red below. *)
Theorem history_keeps_newest_twenty (multipliers : list Q)
  (multiplier : Q) (children : list UIManager.HistoryItem) :
  UIManager.addToHistory multiplier children
  = firstn 20 (historyItemOf multiplier :: children)
  /\ (length (UIManager.addToHistory multiplier children) <= 20)%nat
  /\ fold_left (fun shown m => UIManager.addToHistory m shown) multipliers []
     = firstn 20 (rev (map historyItemOf multipliers))
  /\ UIManager.shownMultiplier (historyItemOf multiplier) = multiplier
  /\ (10 <= multiplier ->
      UIManager.colourClass (historyItemOf multiplier) = "purple"%string)
  /\ (2 <= multiplier -> multiplier < 10 ->
      UIManager.colourClass (historyItemOf multiplier) = "green"%string)
  /\ (multiplier < 2 ->
      UIManager.colourClass (historyItemOf multiplier) = "red"%string).
Proof.
  split; [apply addToHistory_firstn|].
  split; [rewrite addToHistory_firstn; apply firstn_le_length|].
  split.
  { assert (H : forall shown,
              fold_left (fun shown m => UIManager.addToHistory m shown)
                        multipliers (firstn 20 shown)
              = firstn 20 (rev (map historyItemOf multipliers) ++ shown)).
    { induction multipliers as [|m ms IH]; intros shown; [reflexivity|].
      cbn [fold_left map rev]. rewrite addToHistory_firstn.
      rewrite firstn_cons_firstn, IH, <- app_assoc. reflexivity. }
    specialize (H []). rewrite app_nil_r in H. exact H. }
  assert (Hitem : historyItemOf multiplier
                  = UIManager.mkItem
                      (if Qle_bool 10 multiplier then "purple"%string
                       else if Qle_bool 2 multiplier then "green"%string
                       else "red"%string) multiplier) by reflexivity.
  rewrite Hitem. cbn [UIManager.shownMultiplier UIManager.colourClass].
  split; [reflexivity|].
  split; [intros H; rewrite (proj2 (Qle_bool_iff 10 multiplier) H); reflexivity|].
  split.
  - intros H2 H10.
    destruct (Qle_bool 10 multiplier) eqn:E;
      [apply Qle_bool_iff in E; exfalso; qlra|].
    rewrite (proj2 (Qle_bool_iff 2 multiplier) H2). reflexivity.
  - intros H2.
    destruct (Qle_bool 10 multiplier) eqn:E;
      [apply Qle_bool_iff in E; exfalso; qlra|].
    destruct (Qle_bool 2 multiplier) eqn:E2;
      [apply Qle_bool_iff in E2; exfalso; qlra | reflexivity].
Qed.

Lemma history_keeps_newest_twenty_witness :
  UIManager.colourClass (historyItemOf 1.5) = "red"%string.
Proof.
  destruct (history_keeps_newest_twenty [] 1.5 []) as (_ & _ & _ & _ & _ & _ & H).
  apply H. reflexivity.
Defined.

(** ** The multiplier display *)

(** X30. The scale of the multiplier display grows with the multiplier and
    is capped at 1.5; from 1x on it is at least 1.  It reaches the cap
    exactly from 11x on — on a surface of positive height, exactly when the
    point [addPoint] stores for that multiplier has reached the top edge.
    The colour is gold from 10x on, red from 5x on, green from 2x on and
    white below. *)
Theorem multiplier_display_caps_at_11x (cm : CanvasManager.t)
  (time m m' : Q) :
  0 < CanvasManager.height cm ->
  let look := MultiplierDisplay.updateMultiplier m in
  MultiplierDisplay.scale look <= 1.5
  /\ (1 <= m -> 1 <= MultiplierDisplay.scale look)
  /\ (m <= m' ->
      MultiplierDisplay.scale look
      <= MultiplierDisplay.scale (MultiplierDisplay.updateMultiplier m'))
  /\ (MultiplierDisplay.scale look == 1.5 <-> 11 <= m)
  /\ (RocketCurve.y (RocketCurve.curvePoint cm time m) == 0 <-> 11 <= m)
  /\ (MultiplierDisplay.colour look = "#ffd700"%string <-> 10 <= m)
  /\ (MultiplierDisplay.colour look = "#ff6b6b"%string <-> 5 <= m /\ m < 10)
  /\ (MultiplierDisplay.colour look = "#68d391"%string <-> 2 <= m /\ m < 5)
  /\ (MultiplierDisplay.colour look = "white"%string <-> m < 2).
Proof.
  intros Hh. cbv zeta. unfold MultiplierDisplay.updateMultiplier.
  cbn [MultiplierDisplay.scale MultiplierDisplay.colour].
  split; [destruct (min_cases (1 + (m - 1) * 0.05) 1.5) as [[H E]|[H E]]; qlra|].
  split; [intros H1;
          destruct (min_cases (1 + (m - 1) * 0.05) 1.5) as [[H E]|[H E]]; qlra|].
  split.
  { intros Hle.
    destruct (min_cases (1 + (m - 1) * 0.05) 1.5) as [[H E]|[H E]];
      destruct (min_cases (1 + (m' - 1) * 0.05) 1.5) as [[H' E']|[H' E']];
      qlra. }
  split.
  { destruct (min_cases (1 + (m - 1) * 0.05) 1.5) as [[H E]|[H E]];
      split; intros; qlra. }
  split.
  { split.
    - intros Hy. destruct (Qlt_le_dec m 11) as [Hlt|Hge]; [|exact Hge].
      exfalso. rewrite y_unclamped in Hy by qlra.
      revert Hy Hh. generalize (CanvasManager.height cm). intros h Hy Hh.
      qdiv. qnra.
    - intros Hge. apply y_clamped; qlra. }
  destruct (Qle_bool 10 m) eqn:E10;
    [apply Qle_bool_iff in E10
    |assert (H10 : m < 10)
       by (apply Qnot_le_lt; intros H; apply Qle_bool_iff in H; congruence)];
    [repeat split; intros; try discriminate; try qlra; destruct H; qlra|].
  destruct (Qle_bool 5 m) eqn:E5;
    [apply Qle_bool_iff in E5
    |assert (H5 : m < 5)
       by (apply Qnot_le_lt; intros H; apply Qle_bool_iff in H; congruence)];
    [repeat split; intros; try discriminate; try qlra; destruct H; qlra|].
  destruct (Qle_bool 2 m) eqn:E2;
    [apply Qle_bool_iff in E2
    |assert (H2 : m < 2)
       by (apply Qnot_le_lt; intros H; apply Qle_bool_iff in H; congruence)];
    repeat split; intros; try discriminate; try qlra; destruct H; qlra.
Qed.

Lemma multiplier_display_caps_at_11x_witness :
  MultiplierDisplay.scale (MultiplierDisplay.updateMultiplier 12) <= 1.5.
Proof.
  assert (Hh : 0 < CanvasManager.height wideSurface) by reflexivity.
  exact (proj1 (multiplier_display_caps_at_11x wideSurface 0 12 12 Hh)).
Defined.
